(** * Watch-together: playback synchronisation, presence and locator validation

    A shallow embedding of the parts of the client that decide how a room
    stays in sync:

    - [App]      : [validateVideoUrl], [cleanYouTubeUrl], [cleanVimeoUrl]
                   (js/app.js);
    - [Video]    : the [VideoPlayer] adapter (video.js);
    - [Room]     : [RoomManager.updateRoomState] and
                   [RoomManager.syncToRemoteState] (room.js);
    - [Presence] : [PresenceManager.updatePresence], [updateHost] and
                   [updateRoomHost] (js/presence.js).

    Conventions.  JavaScript numbers that hold media times and volumes are
    rationals ([Q]): a finite double is kept as the rational it stands for,
    and the arithmetic of [syncToRemoteState] rounds as doubles do
    ([Js.double]).  Millisecond timestamps produced by [Date.now()] are
    integers ([Z]).  [Date.now()] is an explicit argument [now].  Objects are
    records, [null] is [None], and every method takes the object state and
    returns the new one.  DOM updates are not part of the model. *)

From Stdlib Require Import ZArith QArith Qabs Bool List String Ascii Lia Lqa.
From Stdlib Require Import Permutation Qround DecimalString SpecFloat.
Import ListNotations.

Local Open Scope string_scope.

(* ------------------------------------------------------------------ *)
(** * String primitives of the platform *)

Module Js.

Definition is_upper (c : ascii) : bool :=
  let n := nat_of_ascii c in (65 <=? n)%nat && (n <=? 90)%nat.

Definition is_alpha (c : ascii) : bool :=
  let n := nat_of_ascii c in
  ((65 <=? n)%nat && (n <=? 90)%nat) || ((97 <=? n)%nat && (n <=? 122)%nat).

Definition is_digit (c : ascii) : bool :=
  let n := nat_of_ascii c in (48 <=? n)%nat && (n <=? 57)%nat.

Definition lower_char (c : ascii) : ascii :=
  if is_upper c then ascii_of_nat (nat_of_ascii c + 32) else c.

(** [String.prototype.toLowerCase], on ASCII text. *)
Fixpoint toLowerCase (s : string) : string :=
  match s with
  | EmptyString => EmptyString
  | String c r => String (lower_char c) (toLowerCase r)
  end.

(** [String.prototype.includes]. *)
Fixpoint includes (s sub : string) : bool :=
  if String.prefix sub s then true
  else match s with
       | EmptyString => false
       | String _ r => includes r sub
       end.

(** [String.prototype.endsWith]. *)
Definition endsWith (s suf : string) : bool :=
  let n := String.length s in
  let k := String.length suf in
  (k <=? n)%nat && String.eqb (String.substring (n - k) k s) suf.

(** [s.slice(1)]. *)
Definition slice1 (s : string) : string :=
  match s with
  | EmptyString => EmptyString
  | String _ r => r
  end.

(** [s] is truthy exactly when it is not the empty string. *)
Definition truthy (s : string) : bool :=
  match s with
  | EmptyString => false
  | String _ _ => true
  end.

(** Longest prefix of [s] whose characters satisfy [p], and the rest. *)
Fixpoint span (p : ascii -> bool) (s : string) : string * string :=
  match s with
  | EmptyString => (EmptyString, EmptyString)
  | String c r =>
      if p c then let '(a, b) := span p r in (String c a, b)
      else (EmptyString, s)
  end.

Fixpoint dropWhile (p : ascii -> bool) (s : string) : string :=
  match s with
  | EmptyString => EmptyString
  | String c r => if p c then dropWhile p r else s
  end.

Fixpoint has (c : ascii) (s : string) : bool :=
  match s with
  | EmptyString => false
  | String d r => Ascii.eqb c d || has c r
  end.

(** Text after the last occurrence of [c], or the whole of [s] when [c]
    does not occur. *)
Fixpoint afterLast (c : ascii) (s : string) : string :=
  match s with
  | EmptyString => EmptyString
  | String d r =>
      if has c r then afterLast c r
      else if Ascii.eqb c d then r else s
  end.

(** [s.split(sep)] for a one-character separator. *)
Fixpoint split (sep : ascii) (s : string) : list string :=
  match s with
  | EmptyString => [EmptyString]
  | String c r =>
      if Ascii.eqb c sep then EmptyString :: split sep r
      else match split sep r with
           | [] => [String c EmptyString]
           | h :: t => String c h :: t
           end
  end.

Definition is_lower (c : ascii) : bool :=
  let n := nat_of_ascii c in (97 <=? n)%nat && (n <=? 122)%nat.

Definition upper_char (c : ascii) : ascii :=
  if is_lower c then ascii_of_nat (nat_of_ascii c - 32) else c.

(** [String.prototype.toUpperCase], on ASCII text. *)
Fixpoint toUpperCase (s : string) : string :=
  match s with
  | EmptyString => EmptyString
  | String c r => String (upper_char c) (toUpperCase r)
  end.

(** ASCII white space: tab, line feed, vertical tab, form feed, carriage
    return and space. *)
Definition is_space (c : ascii) : bool :=
  let n := nat_of_ascii c in
  ((9 <=? n)%nat && (n <=? 13)%nat) || (n =? 32)%nat.

(** [s] without its longest suffix of characters that satisfy [p]. *)
Fixpoint dropEnd (p : ascii -> bool) (s : string) : string :=
  match s with
  | EmptyString => EmptyString
  | String c r =>
      match dropEnd p r with
      | EmptyString => if p c then EmptyString else String c EmptyString
      | r' => String c r'
      end
  end.

(** [String.prototype.trim], on ASCII text. *)
Definition trim (s : string) : string :=
  dropEnd is_space (dropWhile is_space s).

(** [s.charAt(i)]: the empty string when [i] is out of range. *)
Definition charAt (s : string) (i : Z) : string :=
  if (i <? 0)%Z then EmptyString
  else match String.get (Z.to_nat i) s with
       | Some c => String c EmptyString
       | None => EmptyString
       end.

(** [s.charCodeAt(i)] for each [i] below [s.length], on ASCII text. *)
Fixpoint charCodes (s : string) : list Z :=
  match s with
  | EmptyString => []
  | String c r => Z.of_nat (nat_of_ascii c) :: charCodes r
  end.

(** [words.join('')]. *)
Fixpoint join (words : list string) : string :=
  match words with
  | [] => EmptyString
  | w :: r => w ++ join r
  end.

(** The characters of [s] that satisfy [p]: [s.replace(/[^...]/g, '')]. *)
Fixpoint keep (p : ascii -> bool) (s : string) : string :=
  match s with
  | EmptyString => EmptyString
  | String c r => if p c then String c (keep p r) else keep p r
  end.

(** [ToInt32]: the integer wrapped into the signed 32-bit range, which is
    what the bit operators work on. *)
Definition toInt32 (z : Z) : Z := ((z + 2 ^ 31) mod 2 ^ 32 - 2 ^ 31)%Z.

(** Every character of [s] satisfies [p]. *)
Fixpoint every (p : ascii -> bool) (s : string) : bool :=
  match s with
  | EmptyString => true
  | String c r => p c && every p r
  end.

(** [s.slice(n)]: [s] without its first [n] characters. *)
Fixpoint drop (n : nat) (s : string) : string :=
  match n, s with
  | O, _ => s
  | S n', String _ r => drop n' r
  | S _, EmptyString => EmptyString
  end.





(** ** Numbers

    JS numbers are IEEE 754 doubles.  The model keeps a finite number as
    the rational it stands for; a rational that is not a double stands for
    the double nearest to it, as a decimal literal does. *)

(** [floor (log2 |x|)], for [x] other than 0. *)
Definition ilog2 (x : Q) : Z :=
  let l := (Z.log2 (Z.abs (Qnum x)) - Z.log2 (Zpos (Qden x)))%Z in
  if Qle_bool (2 ^ l) (Qabs x) then l else (l - 1)%Z.

(** The integer nearest to [x], the even one of the two when [x] lies
    halfway. *)
Definition round_half_even (x : Q) : Z :=
  let f := Qfloor x in
  match Qcompare (x - inject_Z f) (1 # 2) with
  | Lt => f
  | Gt => (f + 1)%Z
  | Eq => if Z.even f then f else (f + 1)%Z
  end.

(** The double nearest to [x], ties going to the even significand: a
    double has 53 significant bits and no bit below 2^-1074.  This is the
    rounding of every arithmetic operation of JS.  The model has no
    [Infinity]: it follows JS as long as results stay below 2^1024 in
    magnitude. *)
Definition double (x : Q) : Q :=
  if Qeq_bool x 0 then 0%Q
  else let e := Z.max (ilog2 x - 52) (-1074) in
       Qred (inject_Z (round_half_even (x / 2 ^ e)) * 2 ^ e).

(** The quotient of two integers as the standard library's specification
    of IEEE 754 binary64 computes it, for comparison with [double]. *)
Definition binary64_quotient (n : Z) (d : positive) : Q :=
  match SFdiv 53 1024 (binary_normalize 53 1024 n 0 false)
                      (binary_normalize 53 1024 (Zpos d) 0 false) with
  | S754_finite s m e =>
      Qred ((if s then -1 else 1) * inject_Z (Zpos m) * 2 ^ e)
  | _ => 0%Q
  end.

(** [x + y], [x - y], [x / y] and [x > y] on numbers: the operands are the
    doubles that [x] and [y] stand for, the result is the exact one rounded
    to a double.  [div] is only used with a divisor other than 0. *)
Definition add (x y : Q) : Q := double (double x + double y).
Definition sub (x y : Q) : Q := double (double x - double y).
Definition div (x y : Q) : Q := double (double x / double y).
Definition gt (x y : Q) : bool := negb (Qle_bool (double x) (double y)).

(** Numbers of a magnitude up to 2^53, as media times and differences of
    millisecond timestamps are: far from the range where a double
    overflows to [Infinity]. *)
Definition safe (x : Q) : Prop := (Qabs x <= 9007199254740992)%Q.

(** ** Text as UTF-16 code units

    [String.prototype.trim] and [length] work on the UTF-16 code units of
    a string; text that a user types is kept as the list of its code
    units. *)
Definition text16 : Type := list N.

(** The code units that [trim] strips: the white space and the line
    terminators of the language, all of them in the basic plane. *)
Definition is_white16 (c : N) : bool :=
  (((9 <=? c) && (c <=? 13)) || (c =? 32) || (c =? 160) || (c =? 5760)
   || ((8192 <=? c) && (c <=? 8202)) || (c =? 8232) || (c =? 8233)
   || (c =? 8239) || (c =? 8287) || (c =? 12288) || (c =? 65279))%N.

Fixpoint skip {A} (p : A -> bool) (l : list A) : list A :=
  match l with
  | [] => []
  | c :: r => if p c then skip p r else l
  end.

(** [l] without its longest suffix of elements that satisfy [p]. *)
Fixpoint chop {A} (p : A -> bool) (l : list A) : list A :=
  match l with
  | [] => []
  | c :: r =>
      match chop p r with
      | [] => if p c then [] else [c]
      | r' => c :: r'
      end
  end.

(** [String.prototype.trim] on code units. *)
Definition trim16 (s : text16) : text16 := chop is_white16 (skip is_white16 s).

(** The code units of ASCII text. *)
Fixpoint ascii16 (s : string) : text16 :=
  match s with
  | EmptyString => []
  | String c r => N_of_ascii c :: ascii16 r
  end.

End Js.

(* ------------------------------------------------------------------ *)
(** * js/app.js: video locator validation *)

Module App.

(** The fields of a platform [URL] object that the validation reads. *)
Record URL := mkURL {
  protocol : string;
  hostname : string;
  pathname : string;
  search   : string
}.

Definition is_scheme_char (c : ascii) : bool :=
  Js.is_alpha c || Js.is_digit c
  || Ascii.eqb c "+" || Ascii.eqb c "-" || Ascii.eqb c ".".

Definition is_slash (c : ascii) : bool :=
  Ascii.eqb c "/" || Ascii.eqb c "\".

Definition ends_authority (c : ascii) : bool :=
  is_slash c || Ascii.eqb c "?" || Ascii.eqb c "#".

Definition ends_path (c : ascii) : bool :=
  Ascii.eqb c "?" || Ascii.eqb c "#".

Definition is_special (scheme : string) : bool :=
  existsb (String.eqb scheme) ["http"; "https"; "ws"; "wss"; "ftp"].

(** Host of an authority [userinfo@host:port]. *)
Definition host_of (authority : string) : string :=
  let hp := Js.afterLast "@" authority in
  fst (Js.span (fun c => negb (Ascii.eqb c ":")) hp).

(** Path, query and fragment of what follows the authority. *)
Definition split_tail (t : string) : string * string :=
  let '(path, r) := Js.span (fun c => negb (ends_path c)) t in
  let '(query, _) := Js.span (fun c => negb (Ascii.eqb c "#")) r in
  (path, if String.eqb query "?" then "" else query).

(** The platform's [new URL(s)] without a base, restricted to absolute
    URLs [scheme:[//][userinfo@]host[:port][/path][?query][#fragment]].
    A string with no scheme has no base to resolve against and is refused
    ([None] is the [TypeError] the constructor throws), as is a special
    scheme with an empty host.  The scheme and the host of a special scheme
    are lower-cased and an empty path of a special scheme is ["/"].
    Percent-decoding, IDNA and dot-segment removal are left out. *)
Definition parseURL (s : string) : option URL :=
  match s with
  | EmptyString => None
  | String c0 _ =>
      if negb (Js.is_alpha c0) then None else
      let '(scheme, r) := Js.span is_scheme_char s in
      match r with
      | String ":" rest =>
          let scheme := Js.toLowerCase scheme in
          if is_special scheme then
            let rest := Js.dropWhile is_slash rest in
            let '(authority, t) := Js.span (fun c => negb (ends_authority c)) rest in
            let host := Js.toLowerCase (host_of authority) in
            if Js.truthy host then
              let '(path, query) := split_tail t in
              Some (mkURL (scheme ++ ":") host
                          (if Js.truthy path then path else "/") query)
            else None
          else
            match rest with
            | String "/" (String "/" rest') =>
                let '(authority, t) :=
                  Js.span (fun c => negb (ends_authority c)) rest' in
                let '(path, query) := split_tail t in
                Some (mkURL (scheme ++ ":") (host_of authority) path query)
            | _ =>
                let '(path, query) := split_tail rest in
                Some (mkURL (scheme ++ ":") "" path query)
            end
      | _ => None
      end
  end.

(** [urlObj.searchParams]: the [name=value] pairs of the query string. *)
Definition pair_of (kv : string) : string * string :=
  let '(k, v) := Js.span (fun c => negb (Ascii.eqb c "=")) kv in
  (k, Js.slice1 v).

Definition searchParams (u : URL) : list (string * string) :=
  map pair_of
      (filter Js.truthy (Js.split "&" (Js.slice1 (search u)))).

Definition params_has (ps : list (string * string)) (k : string) : bool :=
  existsb (fun p => String.eqb (fst p) k) ps.

Definition params_get (ps : list (string * string)) (k : string) : string :=
  match find (fun p => String.eqb (fst p) k) ps with
  | Some p => snd p
  | None => ""
  end.

(** [path.match(/\/(\d+)/)]: the digits after the first slash that is
    followed by a digit. *)
Fixpoint match_slash_digits (path : string) : option string :=
  match path with
  | EmptyString => None
  | String c r =>
      if Ascii.eqb c "/" then
        let d := fst (Js.span Js.is_digit r) in
        if Js.truthy d then Some d else match_slash_digits r
      else match_slash_digits r
  end.

Inductive VideoType := youtube | vimeo | mp4.

Record Validated := mkValidated { type : VideoType; url : string }.

Definition cleanYouTubeUrl (url : string) : string :=
  match parseURL url with
  | None => url
  | Some urlObj =>
      let videoId :=
        if String.eqb (hostname urlObj) "youtu.be" then
          Js.slice1 (pathname urlObj)
        else if params_has (searchParams urlObj) "v" then
          params_get (searchParams urlObj) "v"
        else "" in
      if Js.truthy videoId then "https://www.youtube.com/watch?v=" ++ videoId
      else url
  end.

Definition cleanVimeoUrl (url : string) : string :=
  match parseURL url with
  | None => url
  | Some urlObj =>
      match match_slash_digits (pathname urlObj) with
      | Some id => "https://vimeo.com/" ++ id
      | None => url
      end
  end.

(** [validateVideoUrl]: [None] is the [null] the function returns both when
    no pattern matches and when the [URL] constructor throws. *)
Definition validateVideoUrl (url : string) : option Validated :=
  match parseURL url with
  | None => None
  | Some urlObj =>
      if Js.includes (hostname urlObj) "youtube.com"
         || Js.includes (hostname urlObj) "youtu.be" then
        Some (mkValidated youtube (cleanYouTubeUrl url))
      else if Js.includes (hostname urlObj) "vimeo.com" then
        Some (mkValidated vimeo (cleanVimeoUrl url))
      else if Js.includes (Js.toLowerCase url) ".mp4"
              || Js.endsWith (Js.toLowerCase (pathname urlObj)) ".mp4" then
        Some (mkValidated mp4 url)
      else None
  end.

(** [generateRoomId()]; [random i] is the value of the [i]-th call of
    [Math.random()]. *)
Definition roomIdChars : string := "ABCDEFGHIJKLMNOPQRSTUVWXYZ0123456789".

Fixpoint roomIdLoop (random : nat -> Q) (i n : nat) (result : string) : string :=
  match n with
  | O => result
  | S n' =>
      let pick := Qfloor (random i * inject_Z (Z.of_nat (String.length roomIdChars))) in
      roomIdLoop random (S i) n' (result ++ Js.charAt roomIdChars pick)
  end.

Definition generateRoomId (random : nat -> Q) : string :=
  roomIdLoop random 0 6 "".

(** The [input] handler of the room id field:
    [value.toUpperCase().replace(/[^A-Z0-9]/g, '')]. *)
Definition sanitizeRoomId (value : string) : string :=
  Js.keep (fun c => Js.is_upper c || Js.is_digit c) (Js.toUpperCase value).

(** A character that the room id field keeps as it is and that is not
    white space. *)
Definition id_char (c : ascii) : Prop :=
  (Js.is_upper c || Js.is_digit c) = true
  /\ Js.upper_char c = c
  /\ Js.is_space c = false.

(** [getUserName()]: [displayName] is what [localStorage] holds under that
    key, if anything. *)
Definition getUserName (displayName : option string) : option string :=
  match displayName with
  | Some n => if Js.truthy n then Some n else None
  | None => None
  end.

(** What [joinRoom()] does with the text of the room id field. *)
Inductive JoinOutcome :=
| JoinAskName                         (* the name modal is shown *)
| JoinError (message : string)        (* showToast(message, 'error') *)
| JoinNavigate (href : string).       (* window.location.href = href *)

Definition joinRoom (displayName : option string) (value : string)
  : JoinOutcome :=
  match getUserName displayName with
  | None => JoinAskName
  | Some _ =>
      let roomId := Js.trim value in
      if negb (Js.truthy roomId) then JoinError "Please enter a room ID"
      else if negb (String.length roomId =? 6)%nat then
        JoinError "Room ID must be 6 characters"
      else JoinNavigate ("room.html?r=" ++ roomId)
  end.

(** [class RateLimiter]: the times of the calls it still remembers, oldest
    first. *)
Record RateLimiter := mkRateLimiter {
  maxCalls : Z;
  timeWindow : Z;
  calls : list Z
}.

(** [new RateLimiter(maxCalls, timeWindow)]. *)
Definition newRateLimiter (maxCalls timeWindow : Z) : RateLimiter :=
  mkRateLimiter maxCalls timeWindow [].

(** [canMakeCall()] at wall-clock time [now]. *)
Definition canMakeCall (now : Z) (rl : RateLimiter) : bool * RateLimiter :=
  let recent := filter (fun call => (now - call <? timeWindow rl)%Z) (calls rl) in
  if (Z.of_nat (List.length recent) <? maxCalls rl)%Z then
    (true, mkRateLimiter (maxCalls rl) (timeWindow rl) (recent ++ [now]))
  else
    (false, mkRateLimiter (maxCalls rl) (timeWindow rl) recent).

(** [Math.min(...calls)]; [None] is the [Infinity] of an empty list. *)
Definition Math_min_of (l : list Z) : option Z :=
  match l with
  | [] => None
  | x :: r => Some (fold_left Z.min r x)
  end.

(** [getTimeUntilNextCall()] at wall-clock time [now]; [None] is
    [Infinity]. *)
Definition getTimeUntilNextCall (now : Z) (rl : RateLimiter) : option Z :=
  if (Z.of_nat (List.length (calls rl)) <? maxCalls rl)%Z then Some 0%Z
  else option_map (fun oldestCall => (timeWindow rl - (now - oldestCall))%Z)
                  (Math_min_of (calls rl)).

(** The calls admitted when [canMakeCall()] is asked at each of [times] in
    turn, and the limiter afterwards. *)
Fixpoint admitted (times : list Z) (rl : RateLimiter) : list Z * RateLimiter :=
  match times with
  | [] => ([], rl)
  | now :: rest =>
      let '(ok, rl1) := canMakeCall now rl in
      let '(later, rl2) := admitted rest rl1 in
      (if ok then now :: later else later, rl2)
  end.

(** The times [times] never run backwards, starting from [last]. *)
Fixpoint ascending (last : Z) (times : list Z) : Prop :=
  match times with
  | [] => True
  | t :: rest => (last <= t)%Z /\ ascending t rest
  end.


End App.

(* ------------------------------------------------------------------ *)
(** * video.js: the [VideoPlayer] adapter *)

Module Video.

Import App.
Local Open Scope list_scope.
Local Open Scope Q_scope.

(** [Math.min] and [Math.max] on rationals. *)
Definition Math_min (x y : Q) : Q := if Qle_bool x y then x else y.
Definition Math_max (x y : Q) : Q := if Qle_bool x y then y else x.

(** [x || 0] on a number: [0] is the only falsy rational. *)
Definition or_zero (x : Q) : Q := if Qeq_bool x 0 then 0 else x.

(** Commands the adapter sends to the embedded player behind it (the
    YouTube iframe player, the Vimeo player or the [<video>] element). *)
Inductive BackendCall :=
| CallPlay                (* playVideo() / play() *)
| CallPause               (* pauseVideo() / pause() *)
| CallSeek (t : Q)        (* seekTo(t, true) / setCurrentTime(t) / currentTime = t *)
| CallSetVolume (v : Q)   (* setVolume(v) / volume = v *)
| CallMute                (* mute() / muted = true *)
| CallUnMute.             (* unMute() / muted = false *)

(** The embedded player: what its getters answer, and the commands it has
    received so far (oldest first).  It is an ideal player: a command takes
    effect at once and nothing else moves it. *)
Record Backend := mkBackend {
  b_currentTime : Q;
  b_playing : bool;
  b_muted : bool;
  b_volume : Q;
  b_calls : list BackendCall
}.

Definition exec (c : BackendCall) (b : Backend) : Backend :=
  let log := b_calls b ++ [c] in
  match c with
  | CallPlay => mkBackend (b_currentTime b) true (b_muted b) (b_volume b) log
  | CallPause => mkBackend (b_currentTime b) false (b_muted b) (b_volume b) log
  | CallSeek t => mkBackend t (b_playing b) (b_muted b) (b_volume b) log
  | CallSetVolume v => mkBackend (b_currentTime b) (b_playing b) (b_muted b) v log
  | CallMute => mkBackend (b_currentTime b) (b_playing b) true (b_volume b) log
  | CallUnMute => mkBackend (b_currentTime b) (b_playing b) false (b_volume b) log
  end.

(** The fields of a [VideoPlayer]; [player] and [type] are [null] until a
    video is loaded. *)
Record VideoPlayer := mkVideoPlayer {
  player : option Backend;
  type : option VideoType;
  isReady_ : bool;
  currentTime : Q;
  duration : Q;
  playing : bool;
  muted : bool;
  volume : Q
}.

(** [new VideoPlayer()]. *)
Definition init : VideoPlayer :=
  mkVideoPlayer None None false 0 0 false false (1 # 2).

Definition set_player (b : Backend) (vp : VideoPlayer) : VideoPlayer :=
  mkVideoPlayer (Some b) (type vp) (isReady_ vp) (currentTime vp)
                (duration vp) (playing vp) (muted vp) (volume vp).

Definition set_currentTime (t : Q) (vp : VideoPlayer) : VideoPlayer :=
  mkVideoPlayer (player vp) (type vp) (isReady_ vp) t
                (duration vp) (playing vp) (muted vp) (volume vp).

Definition set_playing (p : bool) (vp : VideoPlayer) : VideoPlayer :=
  mkVideoPlayer (player vp) (type vp) (isReady_ vp) (currentTime vp)
                (duration vp) p (muted vp) (volume vp).

Definition set_muted (m : bool) (vp : VideoPlayer) : VideoPlayer :=
  mkVideoPlayer (player vp) (type vp) (isReady_ vp) (currentTime vp)
                (duration vp) (playing vp) m (volume vp).

Definition set_volume (v : Q) (vp : VideoPlayer) : VideoPlayer :=
  mkVideoPlayer (player vp) (type vp) (isReady_ vp) (currentTime vp)
                (duration vp) (playing vp) (muted vp) v.

(** Notifications the adapter passes to the callbacks given to
    [loadVideo]: [onPlay()], [onPause()], [onSeek(time)]. *)
Inductive Event :=
| EvPlay
| EvPause
| EvSeek (t : Q).

(** Result of an [async] method: the promise resolves with the new adapter
    state and the callbacks to run, or rejects (a [TypeError] on a missing
    player object). *)
Inductive Promise :=
| Resolved (vp : VideoPlayer) (evs : list Event)
| Rejected.

(** The command [c] reaches the player, which reports it through the
    listener the adapter registered: a play or pause notification sets
    [this.playing] and runs [onPlay]/[onPause]; the [seeked] listener of the
    Vimeo player and of the [<video>] element runs [onSeek]. *)
Definition send (c : BackendCall) (vp : VideoPlayer) : Promise :=
  match player vp with
  | None => Rejected
  | Some b =>
      let vp' := set_player (exec c b) vp in
      match c with
      | CallPlay => Resolved (set_playing true vp') [EvPlay]
      | CallPause => Resolved (set_playing false vp') [EvPause]
      | CallSeek t =>
          match type vp with
          | Some youtube => Resolved vp' []
          | _ => Resolved vp' [EvSeek t]
          end
      | _ => Resolved vp' []
      end
  end.

Definition isReady (vp : VideoPlayer) : bool := isReady_ vp.

Definition play (vp : VideoPlayer) : Promise :=
  if negb (isReady_ vp) then Resolved vp []
  else match type vp with
       | Some youtube => send CallPlay vp
       | Some vimeo => send CallPlay vp
       | Some mp4 => send CallPlay vp
       | None => Resolved vp []
       end.

Definition pause (vp : VideoPlayer) : Promise :=
  if negb (isReady_ vp) then Resolved vp []
  else match type vp with
       | Some youtube => send CallPause vp
       | Some vimeo => send CallPause vp
       | Some mp4 => send CallPause vp
       | None => Resolved vp []
       end.

Definition seek (time : Q) (vp : VideoPlayer) : Promise :=
  if negb (isReady_ vp) then Resolved vp []
  else
    let sent :=
      match type vp with
      | Some youtube => send (CallSeek time) vp
      | Some vimeo => send (CallSeek time) vp
      | Some mp4 => send (CallSeek time) vp
      | None => Resolved vp []
      end in
    match sent with
    | Resolved vp' evs => Resolved (set_currentTime time vp') evs
    | Rejected => Rejected
    end.

(** The getters are synchronous: [None] is a thrown [TypeError]. *)
Definition getCurrentTime (vp : VideoPlayer) : option Q :=
  if negb (isReady_ vp) then Some 0
  else match type vp with
       | Some youtube => option_map (fun b => or_zero (b_currentTime b)) (player vp)
       | Some vimeo => Some (currentTime vp)
       | Some mp4 => option_map (fun b => or_zero (b_currentTime b)) (player vp)
       | None => Some 0
       end.

Definition getDuration (vp : VideoPlayer) : Q := or_zero (duration vp).

Definition isPlaying (vp : VideoPlayer) : option bool :=
  if negb (isReady_ vp) then Some false
  else match type vp with
       | Some youtube => option_map b_playing (player vp)
       | Some vimeo => Some (playing vp)
       | Some mp4 => Some (playing vp)
       | None => Some false
       end.

Definition setVolume (v : Q) (vp : VideoPlayer) : Promise :=
  let vp := set_volume (Math_max 0 (Math_min 1 v)) vp in
  if negb (isReady_ vp) then Resolved vp []
  else match type vp with
       | Some youtube => send (CallSetVolume (volume vp * 100)) vp
       | Some vimeo => send (CallSetVolume (volume vp)) vp
       | Some mp4 => send (CallSetVolume (volume vp)) vp
       | None => Resolved vp []
       end.

Definition then_set_muted (m : bool) (p : Promise) : Promise :=
  match p with
  | Resolved vp evs => Resolved (set_muted m vp) evs
  | Rejected => Rejected
  end.

Definition toggleMute (vp : VideoPlayer) : Promise :=
  if negb (isReady_ vp) then Resolved vp []
  else match type vp with
       | Some youtube =>
           match player vp with
           | None => Rejected
           | Some b =>
               if b_muted b then then_set_muted false (send CallUnMute vp)
               else then_set_muted true (send CallMute vp)
           end
       | Some vimeo =>
           match player vp with
           | None => Rejected
           | Some b =>
               if Qle_bool (b_volume b) 0 then
                 then_set_muted false (send (CallSetVolume (volume vp)) vp)
               else
                 then_set_muted true
                   (send (CallSetVolume 0) (set_volume (b_volume b) vp))
           end
       | Some mp4 =>
           match player vp with
           | None => Rejected
           | Some b =>
               if b_muted b then then_set_muted false (send CallUnMute vp)
               else then_set_muted true (send CallMute vp)
           end
       | None => Resolved vp []
       end.

Definition isMuted (vp : VideoPlayer) : option bool :=
  if negb (isReady_ vp) then Some false
  else match type vp with
       | Some youtube => option_map b_muted (player vp)
       | Some vimeo => Some (muted vp)
       | Some mp4 => Some (muted vp)
       | None => Some false
       end.

(** ** Calls that are not awaited

    [play()], [pause()] and [seek(time)] are [async]: a caller that does
    not await them gets control back when the body reaches its first
    [await], or its end when there is none on its path.  [start_play],
    [start_pause] and [start_seek] give the adapter at that point,
    [finish_play], [finish_pause] and [finish_seek] what happens after
    it. *)

(** The command is handed to the player.  A missing player object is a
    [TypeError] inside the method: its promise will reject, and nothing has
    changed. *)
Definition deliver (c : BackendCall) (vp : VideoPlayer) : VideoPlayer :=
  match player vp with
  | Some b => set_player (exec c b) vp
  | None => vp
  end.

Definition start_play (vp : VideoPlayer) : VideoPlayer :=
  if negb (isReady_ vp) then vp
  else match type vp with
       | Some youtube => deliver CallPlay vp   (* this.player.playVideo() *)
       | Some vimeo => deliver CallPlay vp     (* await this.player.play() *)
       | Some mp4 => deliver CallPlay vp       (* await this.player.play() *)
       | None => vp
       end.

Definition start_pause (vp : VideoPlayer) : VideoPlayer :=
  if negb (isReady_ vp) then vp
  else match type vp with
       | Some youtube => deliver CallPause vp  (* this.player.pauseVideo() *)
       | Some vimeo => deliver CallPause vp    (* await this.player.pause() *)
       | Some mp4 => deliver CallPause vp      (* this.player.pause() *)
       | None => vp
       end.

(** For YouTube and for the [<video>] element the body of [seek] has no
    [await]: [this.currentTime = time] has run when the call returns.  For
    Vimeo the assignment follows [await this.player.setCurrentTime(time)]
    and is still to come. *)
Definition start_seek (time : Q) (vp : VideoPlayer) : VideoPlayer :=
  if negb (isReady_ vp) then vp
  else match type vp with
       | Some youtube =>
           match player vp with
           | Some _ => set_currentTime time (deliver (CallSeek time) vp)
           | None => vp
           end
       | Some vimeo => deliver (CallSeek time) vp
       | Some mp4 =>
           match player vp with
           | Some _ => set_currentTime time (deliver (CallSeek time) vp)
           | None => vp
           end
       | None => set_currentTime time vp
       end.

(** What is left of a call of [play()]: the player reports that it plays,
    and the listener the adapter registered writes [this.playing] and runs
    [onPlay]. *)
Definition finish_play (vp : VideoPlayer) : VideoPlayer * list Event :=
  if negb (isReady_ vp) then (vp, [])
  else match type vp, player vp with
       | Some _, Some _ => (set_playing true vp, [EvPlay])
       | _, _ => (vp, [])
       end.

Definition finish_pause (vp : VideoPlayer) : VideoPlayer * list Event :=
  if negb (isReady_ vp) then (vp, [])
  else match type vp, player vp with
       | Some _, Some _ => (set_playing false vp, [EvPause])
       | _, _ => (vp, [])
       end.

(** What is left of a call of [seek(time)]: for Vimeo the assignment
    [this.currentTime = time]; and the [seeked] notification of the Vimeo
    player and of the [<video>] element, whose listener runs [onSeek]. *)
Definition finish_seek (time : Q) (vp : VideoPlayer)
  : VideoPlayer * list Event :=
  if negb (isReady_ vp) then (vp, [])
  else match type vp, player vp with
       | Some youtube, Some _ => (vp, [])
       | Some vimeo, Some _ => (set_currentTime time vp, [EvSeek time])
       | Some mp4, Some _ => (vp, [EvSeek time])
       | _, _ => (vp, [])
       end.

(** The play state a loaded adapter reports: the player's own for YouTube,
    the flag kept by the listeners otherwise. *)
Definition reported (ty : VideoType) (b : Backend) (vp : VideoPlayer) : bool :=
  match ty with
  | youtube => b_playing b
  | _ => playing vp
  end.

(** A video has been loaded: an adapter that is ready has its [type] and
    its [player] set, as [loadVideo] leaves them. *)
Definition loaded (vp : VideoPlayer) : Prop :=
  isReady_ vp = true ->
  exists ty b, type vp = Some ty /\ player vp = Some b.

(** [destroy()]: the embedded player is destroyed or removed and the
    adapter forgets it. *)
Definition destroy (vp : VideoPlayer) : VideoPlayer :=
  mkVideoPlayer None (type vp) false (currentTime vp) (duration vp)
                (playing vp) (muted vp) (volume vp).

(** The characters that end the capture [([^&\n?#]+)]. *)
Definition id_stop (c : ascii) : bool :=
  Ascii.eqb c "&" || Ascii.eqb c "010" || Ascii.eqb c "?" || Ascii.eqb c "#".

(** A match of [prefix([^&\n?#]+)] at the start of [s]. *)
Definition capture_after (s prefix : string) : option string :=
  if String.prefix prefix s then
    let id := fst (Js.span (fun c => negb (id_stop c))
                           (Js.drop (String.length prefix) s)) in
    if Js.truthy id then Some id else None
  else None.

Fixpoint first_capture (s : string) (prefixes : list string) : option string :=
  match prefixes with
  | [] => None
  | p :: rest =>
      match capture_after s p with
      | Some id => Some id
      | None => first_capture s rest
      end
  end.

(** [url.match(/(?:p1|p2|...)([^&\n?#]+)/)]: the capture of the leftmost
    match, the alternatives being tried in order at each position. *)
Fixpoint match_capture (prefixes : list string) (url : string) : option string :=
  match first_capture url prefixes with
  | Some id => Some id
  | None =>
      match url with
      | EmptyString => None
      | String _ r => match_capture prefixes r
      end
  end.

(** [extractYouTubeId(url)]. *)
Definition extractYouTubeId (url : string) : option string :=
  match match_capture ["youtube.com/watch?v="; "youtu.be/"; "youtube.com/embed/"]
                      url with
  | Some id => Some id
  | None => match_capture ["youtube.com/v/"] url
  end.

(** A match of [vimeo\.com\/(?:video\/)?(\d+)] at the start of [s]: the
    optional group is tried first and given up when no digit follows. *)
Definition vimeo_at (s : string) : option string :=
  if String.prefix "vimeo.com/" s then
    let rest := Js.drop 10 s in
    let digits (t : string) := fst (Js.span Js.is_digit t) in
    if String.prefix "video/" rest && Js.truthy (digits (Js.drop 6 rest))
    then Some (digits (Js.drop 6 rest))
    else if Js.truthy (digits rest) then Some (digits rest)
    else None
  else None.

(** [extractVimeoId(url)]. *)
Fixpoint extractVimeoId (url : string) : option string :=
  match vimeo_at url with
  | Some id => Some id
  | None =>
      match url with
      | EmptyString => None
      | String _ r => extractVimeoId r
      end
  end.

(** The methods a caller can invoke on the adapter. *)
Inductive Command :=
| DoPlay
| DoPause
| DoSeek (t : Q)
| DoSetVolume (v : Q)
| DoToggleMute
| DoDestroy.

Definition invoke (c : Command) (vp : VideoPlayer) : Promise :=
  match c with
  | DoPlay => play vp
  | DoPause => pause vp
  | DoSeek t => seek t vp
  | DoSetVolume v => setVolume v vp
  | DoToggleMute => toggleMute vp
  | DoDestroy => Resolved (destroy vp) []
  end.

(** The adapter after a series of calls, each awaited; [None] when one of
    them rejects. *)
Fixpoint run (cs : list Command) (vp : VideoPlayer) : option VideoPlayer :=
  match cs with
  | [] => Some vp
  | c :: rest =>
      match invoke c vp with
      | Resolved vp' _ => run rest vp'
      | Rejected => None
      end
  end.

(** The part of [loadVideo(type, url, callbacks)] that runs before the
    method first waits: the type is recorded and the adapter is no longer
    ready; [fresh] is the new embedded player when it is created at once (a
    [<video>] element always is), otherwise the old object stays in
    [player] until the new one exists. *)
Definition loadVideo_begin (ty : VideoType) (fresh : option Backend)
                           (vp : VideoPlayer) : VideoPlayer :=
  mkVideoPlayer (match fresh with Some b => Some b | None => player vp end)
                (Some ty) false (currentTime vp) (duration vp)
                (playing vp) (muted vp) (volume vp).

End Video.

(* ------------------------------------------------------------------ *)
(** * The record [rooms/<roomId>/state] of the remote store *)

Module Store.

(** The stored object; a child that was never written, or was written as
    [null], is absent. *)
Record StoredState := mkStored {
  s_url : option string;
  s_time : option Q;
  s_playing : option bool;
  s_updatedAt : option Z;
  s_hostId : option string
}.

(** The two [update(roomStateRef, ...)] calls of the client. *)
Inductive Write :=
| UpdateState (url : string) (time : Q) (playing : bool)
              (updatedAt : Z) (hostId : string)
| UpdateHost (hostId : option string) (updatedAt : Z).

(** [update] sets the listed children and leaves the others alone. *)
Definition apply (w : Write) (s : StoredState) : StoredState :=
  match w with
  | UpdateState u t p a h => mkStored (Some u) (Some t) (Some p) (Some a) (Some h)
  | UpdateHost h a => mkStored (s_url s) (s_time s) (s_playing s) (Some a) h
  end.

End Store.

(* ------------------------------------------------------------------ *)
(** * room.js: the [RoomManager] *)

Module Room.

Local Open Scope list_scope.
Local Open Scope Z_scope.

Record RoomState := mkRoomState {
  url : string;
  time : Q;
  playing : bool;
  updatedAt : Z;
  hostId : string
}.

(** The argument of [updateRoomState]: an object holding any of the keys of
    a [RoomState]. *)
Record Updates := mkUpdates {
  u_url : option string;
  u_time : option Q;
  u_playing : option bool;
  u_updatedAt : option Z;
  u_hostId : option string
}.

Definition no_updates : Updates := mkUpdates None None None None None.

Record RoomManager := mkRoomManager {
  userId : string;
  isHost : bool;
  currentState : RoomState;
  lastSyncTime : Z;
  isUpdatingFromRemote : bool;
  videoPlayer : Video.VideoPlayer
}.

Definition set_currentState (s : RoomState) (rm : RoomManager) :=
  mkRoomManager (userId rm) (isHost rm) s (lastSyncTime rm)
                (isUpdatingFromRemote rm) (videoPlayer rm).

Definition set_lastSyncTime (t : Z) (rm : RoomManager) :=
  mkRoomManager (userId rm) (isHost rm) (currentState rm) t
                (isUpdatingFromRemote rm) (videoPlayer rm).

Definition set_isUpdatingFromRemote (b : bool) (rm : RoomManager) :=
  mkRoomManager (userId rm) (isHost rm) (currentState rm) (lastSyncTime rm)
                b (videoPlayer rm).

Definition set_videoPlayer (vp : Video.VideoPlayer) (rm : RoomManager) :=
  mkRoomManager (userId rm) (isHost rm) (currentState rm) (lastSyncTime rm)
                (isUpdatingFromRemote rm) vp.

(** What a method does to the world outside the [RoomManager] object, in
    the order it happens. *)
Inductive Effect :=
| PlayerSeek (t : Q)                  (* this.videoPlayer.seek(t) *)
| PlayerPlay                          (* this.videoPlayer.play() *)
| PlayerPause                         (* this.videoPlayer.pause() *)
| Toast (message kind : string)       (* showToast(message, kind) *)
| StoreUpdate (w : Store.Write).      (* update(roomStateRef, ...) *)

(** A method either returns or throws; both leave a state and a trace. *)
Inductive Outcome (A : Type) :=
| Done (a : A) (rm : RoomManager) (tr : list Effect)
| Thrown (rm : RoomManager) (tr : list Effect).

Arguments Done {A} a rm tr.
Arguments Thrown {A} rm tr.

Definition M (A : Type) : Type := RoomManager -> Outcome A.

Definition ret {A} (a : A) : M A := fun rm => Done a rm [].

Definition bind {A B} (m : M A) (k : A -> M B) : M B :=
  fun rm =>
    match m rm with
    | Done a rm1 tr1 =>
        match k a rm1 with
        | Done b rm2 tr2 => Done b rm2 (tr1 ++ tr2)
        | Thrown rm2 tr2 => Thrown rm2 (tr1 ++ tr2)
        end
    | Thrown rm1 tr1 => Thrown rm1 tr1
    end.

Notation "x <- m ;; k" := (bind m (fun x => k))
  (at level 61, m at next level, right associativity).
Notation "m ;; k" := (bind m (fun _ => k))
  (at level 61, right associativity).

Definition this : M RoomManager := fun rm => Done rm rm [].
Definition modify (f : RoomManager -> RoomManager) : M unit :=
  fun rm => Done tt (f rm) [].
Definition emit (e : Effect) : M unit := fun rm => Done tt rm [e].
Definition throw {A} : M A := fun rm => Thrown rm [].

(** [{...this.currentState, ...updates, updatedAt: now, hostId: userId}]:
    the last two keys win over whatever [updates] carries. *)
Definition merge (s : RoomState) (u : Updates) (now : Z) (uid : string)
  : RoomState :=
  let spread := mkRoomState
    (match u_url u with Some x => x | None => url s end)
    (match u_time u with Some x => x | None => time s end)
    (match u_playing u with Some x => x | None => playing s end)
    (match u_updatedAt u with Some x => x | None => updatedAt s end)
    (match u_hostId u with Some x => x | None => hostId s end) in
  mkRoomState (url spread) (time spread) (playing spread) now uid.

Definition write_of (s : RoomState) : Store.Write :=
  Store.UpdateState (url s) (time s) (playing s) (updatedAt s) (hostId s).

(** [updateRoomState(updates)]; [now] and [now'] are the two readings of
    [Date.now()], for [updatedAt] and for [lastSyncTime].  Nothing runs
    between the host check and the rest of the body, which follows the
    import the method awaits. *)
Definition updateRoomState (updates : Updates) (now now' : Z) : M unit :=
  rm <- this ;;
  if negb (isHost rm) then ret tt
  else
    let newState := merge (currentState rm) updates now (userId rm) in
    modify (set_currentState newState) ;;
    modify (set_lastSyncTime now') ;;
    emit (StoreUpdate (write_of newState)).

(** The callbacks [loadVideo] hands to the adapter. *)
Definition onPlay (now : Z) : M unit :=
  rm <- this ;;
  if isHost rm && negb (isUpdatingFromRemote rm) then
    updateRoomState (mkUpdates None None (Some true) None None) now now
  else ret tt.

Definition onPause (now : Z) : M unit :=
  rm <- this ;;
  if isHost rm && negb (isUpdatingFromRemote rm) then
    updateRoomState (mkUpdates None None (Some false) None None) now now
  else ret tt.

Definition onSeek (t : Q) (now : Z) : M unit :=
  rm <- this ;;
  if isHost rm && negb (isUpdatingFromRemote rm) then
    updateRoomState (mkUpdates None (Some t) None None None) now now
  else ret tt.

Definition callback (now : Z) (ev : Video.Event) : M unit :=
  match ev with
  | Video.EvPlay => onPlay now
  | Video.EvPause => onPause now
  | Video.EvSeek t => onSeek t now
  end.

Fixpoint callbacks (now : Z) (evs : list Video.Event) : M unit :=
  match evs with
  | [] => ret tt
  | ev :: rest => callback now ev ;; callbacks now rest
  end.

(** A call of an [async] adapter method whose promise is not awaited: the
    caller goes on with the adapter as the method has left it at its first
    [await]. *)
Definition call (e : Effect)
                (start : Video.VideoPlayer -> Video.VideoPlayer) : M unit :=
  emit e ;;
  modify (fun rm => set_videoPlayer (start (videoPlayer rm)) rm).

(** What such a call has left to do, when the event loop gets to it: the
    adapter finishes the method and the callbacks it was given run. *)
Definition later (finish : Video.VideoPlayer
                           -> Video.VideoPlayer * list Video.Event)
                 (now : Z) : M unit :=
  rm <- this ;;
  modify (set_videoPlayer (fst (finish (videoPlayer rm)))) ;;
  callbacks now (snd (finish (videoPlayer rm))).

(** The calls of a trace, finished in the order they were made. *)
Fixpoint settle (tr : list Effect) (now : Z) : M unit :=
  match tr with
  | [] => ret tt
  | PlayerSeek t :: rest => later (Video.finish_seek t) now ;; settle rest now
  | PlayerPlay :: rest => later Video.finish_play now ;; settle rest now
  | PlayerPause :: rest => later Video.finish_pause now ;; settle rest now
  | _ :: rest => settle rest now
  end.

(** A call of a synchronous getter of the adapter. *)
Definition query {A} (getter : Video.VideoPlayer -> option A) : M A :=
  rm <- this ;;
  match getter (videoPlayer rm) with
  | Some a => ret a
  | None => throw
  end.

(** [this.currentState.time + (timeSinceUpdate / 1000)]. *)
Definition remoteTime (s : RoomState) (now : Z) : Q :=
  Js.add (time s) (Js.div (inject_Z (now - updatedAt s)) 1000).

(** [syncToRemoteState(force)] at wall-clock time [now].  The adapter
    calls are not awaited. *)
Definition syncToRemoteState (force : bool) (now : Z) : M unit :=
  rm <- this ;;
  if isHost rm || negb (Js.truthy (url (currentState rm)))
     || negb (Video.isReady (videoPlayer rm))
  then ret tt
  else
    let timeSinceUpdate := now - updatedAt (currentState rm) in
    if (10000 <? timeSinceUpdate) && negb force then ret tt
    else
      modify (set_isUpdatingFromRemote true) ;;
      let remoteTime := remoteTime (currentState rm) now in
      localTime <- query Video.getCurrentTime ;;
      let drift := Qabs (Js.sub remoteTime localTime) in
      (if Js.gt drift (4 # 10) || force then
         call (PlayerSeek remoteTime) (Video.start_seek remoteTime) ;;
         if force then emit (Toast "Synced with host" "success") else ret tt
       else ret tt) ;;
      rm' <- this ;;
      let shouldBePlaying := playing (currentState rm') in
      isPlaying <- query Video.isPlaying ;;
      (if shouldBePlaying && negb isPlaying then
         call PlayerPlay Video.start_play
       else if negb shouldBePlaying && isPlaying then
         call PlayerPause Video.start_pause
       else ret tt) ;;
      modify (set_isUpdatingFromRemote false).

(** The remote record after the writes of a trace have reached it. *)
Fixpoint replay (tr : list Effect) (s : Store.StoredState) : Store.StoredState :=
  match tr with
  | [] => s
  | StoreUpdate w :: rest => replay rest (Store.apply w s)
  | _ :: rest => replay rest s
  end.

(** The adapter once the calls of a trace are finished, for a client
    whose callbacks have nothing to add. *)
Fixpoint finished (tr : list Effect) (vp : Video.VideoPlayer)
  : Video.VideoPlayer :=
  match tr with
  | [] => vp
  | PlayerSeek t :: rest => finished rest (fst (Video.finish_seek t vp))
  | PlayerPlay :: rest => finished rest (fst (Video.finish_play vp))
  | PlayerPause :: rest => finished rest (fst (Video.finish_pause vp))
  | _ :: rest => finished rest vp
  end.

Definition set_isHost (b : bool) (rm : RoomManager) :=
  mkRoomManager (userId rm) b (currentState rm) (lastSyncTime rm)
                (isUpdatingFromRemote rm) (videoPlayer rm).

(** A call of an [async] adapter method that is awaited: a rejection is
    thrown on. *)
Definition await (e : Effect) (method : Video.VideoPlayer -> Video.Promise)
                 (now : Z) : M unit :=
  emit e ;;
  rm <- this ;;
  match method (videoPlayer rm) with
  | Video.Resolved vp evs => modify (set_videoPlayer vp) ;; callbacks now evs
  | Video.Rejected => throw
  end.

(** [play()], [pause()] and [seek(time)] of the room manager. *)
Definition play (now : Z) : M unit :=
  rm <- this ;;
  if negb (isHost rm) then ret tt
  else
    await PlayerPlay Video.play now ;;
    t <- query Video.getCurrentTime ;;
    updateRoomState (mkUpdates None (Some t) (Some true) None None) now now.

Definition pause (now : Z) : M unit :=
  rm <- this ;;
  if negb (isHost rm) then ret tt
  else
    await PlayerPause Video.pause now ;;
    t <- query Video.getCurrentTime ;;
    updateRoomState (mkUpdates None (Some t) (Some false) None None) now now.

Definition seek (time : Q) (now : Z) : M unit :=
  rm <- this ;;
  if negb (isHost rm) then ret tt
  else
    await (PlayerSeek time) (Video.seek time) now ;;
    p <- query Video.isPlaying ;;
    updateRoomState (mkUpdates None (Some time) (Some p) None None) now now.

(** [becomeHost()]: the cached state, with the client as host, is written
    as the room state. *)
Definition becomeHost : M unit :=
  modify (set_isHost true) ;;
  rm <- this ;;
  let s := currentState rm in
  let s' := mkRoomState (url s) (time s) (playing s) (updatedAt s) (userId rm) in
  modify (set_currentState s') ;;
  emit (StoreUpdate (write_of s')) ;;
  emit (Toast "You are the host" "success").

(** The part of [loadVideo(url, false)] that runs before the method first
    waits. *)
Definition loadVideo_begin (url : string) (fresh : option Video.Backend)
  : M unit :=
  match App.validateVideoUrl url with
  | None =>
      emit (Toast "Invalid video URL. Please use YouTube, Vimeo, or MP4 links."
                  "error")
  | Some v =>
      modify (fun rm =>
                set_videoPlayer
                  (Video.loadVideo_begin (App.type v) fresh (videoPlayer rm))
                  rm)
  end.

(** The listener [connectToRoom] puts on the room state, for a snapshot
    that holds a whole [RoomState] or nothing. *)
Definition onRoomState (state : option RoomState) (fresh : option Video.Backend)
                       (now : Z) : M unit :=
  match state with
  | None => becomeHost
  | Some s =>
      modify (set_currentState s) ;;
      rm <- this ;;
      modify (set_isHost (String.eqb (hostId s) (userId rm))) ;;
      (if Js.truthy (url s) then loadVideo_begin (url s) fresh else ret tt) ;;
      syncToRemoteState false now
  end.

(** The callback [connectToRoom] registers with the presence manager. *)
Definition onHostChange (newHostId : option string) : M unit :=
  rm <- this ;;
  let wasHost := isHost rm in
  let nowHost := match newHostId with
                 | Some h => String.eqb h (userId rm)
                 | None => false
                 end in
  modify (set_isHost nowHost) ;;
  if negb wasHost && nowHost then emit (Toast "You are now the host" "success")
  else if wasHost && negb nowHost then
    emit (Toast "Host privileges transferred" "warning")
  else ret tt.

(** The trace of a method, whether it returned or threw. *)
Definition trace_of {A} (o : Outcome A) : list Effect :=
  match o with
  | Done _ _ tr => tr
  | Thrown _ tr => tr
  end.

(** A call of an [async] method of the room manager whose promise is
    dropped: if it rejects, nobody hears of it. *)
Definition detached (m : M unit) : M unit :=
  fun rm =>
    match m rm with
    | Done _ rm' tr => Done tt rm' tr
    | Thrown rm' tr => Done tt rm' tr
    end.

(** The [keydown] listener of the document; [inField] says that the event
    comes from an [INPUT] or a [TEXTAREA]. *)
Definition onKeyDown (inField : bool) (key : string) (now : Z) : M unit :=
  if inField then ret tt
  else
    let k := Js.toLowerCase key in
    if String.eqb k " " then
      rm <- this ;;
      if isHost rm then
        p <- query Video.isPlaying ;;
        if p then detached (pause now) else detached (play now)
      else ret tt
    else if String.eqb k "arrowleft" then
      rm <- this ;;
      if isHost rm then
        currentTime <- query Video.getCurrentTime ;;
        detached (seek (Video.Math_max 0 (currentTime - 5)) now)
      else ret tt
    else if String.eqb k "arrowright" then
      rm <- this ;;
      if isHost rm then
        currentTime <- query Video.getCurrentTime ;;
        let duration := Video.getDuration (videoPlayer rm) in
        detached (seek (Video.Math_min duration (currentTime + 5)) now)
      else ret tt
    else if String.eqb k "s" then syncToRemoteState true now
    else ret tt.

(** An effect that is a write to the store. *)
Definition is_write (e : Effect) : Prop := exists w, e = StoreUpdate w.

End Room.

(* ------------------------------------------------------------------ *)
(** * js/presence.js: the [PresenceManager] *)

Module Presence.

Local Open Scope list_scope.
Local Open Scope Z_scope.

(** A child of [rooms/<roomId>/presence]; [lastSeen] is missing until the
    server has resolved its timestamp. *)
Record UserData := mkUserData {
  name : string;
  joinedAt : Z;
  lastSeen : option Z
}.

(** A value of the [users] map: [{...userData, isOnline}]. *)
Record User := mkUser {
  userData : UserData;
  isOnline : bool
}.

(** The [users] map keeps its keys in insertion order. *)
Definition Users := list (string * User).

Record PresenceManager := mkPresenceManager {
  userId : string;
  users : Users;
  hostId : option string;
  onHostChangeCallback : bool      (* a callback has been registered *)
}.

Definition set_users (us : Users) (pm : PresenceManager) :=
  mkPresenceManager (userId pm) us (hostId pm) (onHostChangeCallback pm).

Definition set_hostId (h : option string) (pm : PresenceManager) :=
  mkPresenceManager (userId pm) (users pm) h (onHostChangeCallback pm).

(** What a method does to the world outside the [PresenceManager], in the
    order of the calls that cause it. *)
Inductive Effect :=
| StoreUpdate (w : Store.Write)              (* update(roomStateRef, ...) *)
| HostChange (newHostId previousHostId : option string)
                                             (* this.onHostChangeCallback(...) *)
| ViewersCount (n : nat).                    (* viewersCount.textContent = n *)

(** [Map.prototype.set]: an existing key keeps its place. *)
Fixpoint map_set (k : string) (v : User) (m : Users) : Users :=
  match m with
  | [] => [(k, v)]
  | (k', v') :: rest =>
      if String.eqb k k' then (k, v) :: rest else (k', v') :: map_set k v rest
  end.

(** [a || b] on numbers: [0] and [undefined] are falsy. *)
Definition or_else (a : option Z) (b : Z) : Z :=
  match a with
  | Some x => if x =? 0 then b else x
  | None => b
  end.

(** [userData.lastSeen || userData.joinedAt || now]. *)
Definition lastSeenOf (u : UserData) (now : Z) : Z :=
  or_else (lastSeen u) (or_else (Some (joinedAt u)) now).

Definition timeoutMs : Z := 60000.

(** The body of the [forEach] of [updatePresence] for one entry of the
    snapshot; a [null] entry is skipped. *)
Definition addEntry (now : Z) (m : Users) (entry : string * option UserData)
  : Users :=
  match entry with
  | (_, None) => m
  | (uid, Some u) =>
      let timeSinceLastSeen := now - lastSeenOf u now in
      if timeSinceLastSeen <? timeoutMs then
        map_set uid (mkUser u (timeSinceLastSeen <? 35000)) m
      else m
  end.

(** Insertion of [x] into a list ordered by the comparator
    [a.joinedAt - b.joinedAt]; [x] stays ahead of the elements that compare
    equal to it. *)
Fixpoint insert (x : string * User) (l : Users) : Users :=
  match l with
  | [] => [x]
  | y :: rest =>
      if joinedAt (userData (snd x)) - joinedAt (userData (snd y)) <=? 0
      then x :: l
      else y :: insert x rest
  end.

(** [Array.prototype.sort] with that comparator: a stable sort. *)
Fixpoint sort (l : Users) : Users :=
  match l with
  | [] => []
  | x :: rest => insert x (sort rest)
  end.

Definition onlineEntries (m : Users) : Users :=
  filter (fun e => isOnline (snd e)) m.

(** [getOnlineUsers()], which [updateViewersCount] counts. *)
Definition getOnlineUsers (pm : PresenceManager) : list User :=
  filter isOnline (map snd (users pm)).

(** The host [updateHost] picks: the first online entry by [joinedAt]. *)
Definition electHost (m : Users) : option string :=
  match sort (onlineEntries m) with
  | [] => None
  | e :: _ => Some (fst e)
  end.

Definition option_string_eqb (a b : option string) : bool :=
  match a, b with
  | None, None => true
  | Some x, Some y => String.eqb x y
  | _, _ => false
  end.

(** [updateRoomHost(newHostId)]: the write goes out once the import the
    method awaits has resolved and carries the [Date.now()] of that
    moment. *)
Definition updateRoomHost (newHostId : option string) (now : Z) : Effect :=
  StoreUpdate (Store.UpdateHost newHostId now).

(** [updateHost()]. *)
Definition updateHost (now : Z) (pm : PresenceManager)
  : PresenceManager * list Effect :=
  let newHostId := electHost (users pm) in
  if negb (option_string_eqb newHostId (hostId pm)) then
    let previousHostId := hostId pm in
    (set_hostId newHostId pm,
     updateRoomHost newHostId now ::
     (if onHostChangeCallback pm then [HostChange newHostId previousHostId]
      else []))
  else (pm, []).

Definition updateUI (pm : PresenceManager) : list Effect :=
  [ViewersCount (List.length (getOnlineUsers pm))].

(** [updatePresence(presenceData)] at wall-clock time [now]; [None] is the
    [null] of an empty snapshot, and the entries come in the order of
    [Object.entries].  [now'] is the later reading of [Date.now()] by
    [updateRoomHost].  The join and leave toasts are left out. *)
Definition updatePresence (presenceData : option (list (string * option UserData)))
                          (now now' : Z) (pm : PresenceManager)
  : PresenceManager * list Effect :=
  let pm0 := set_users [] pm in
  match presenceData with
  | None => (pm0, updateUI pm0)
  | Some entries =>
      let pm1 := set_users (fold_left (addEntry now) entries []) pm0 in
      let '(pm2, effs) := updateHost now' pm1 in
      (pm2, effs ++ updateUI pm2)
  end.

(** The remote record after the writes of a trace have reached it. *)
Fixpoint replay (tr : list Effect) (s : Store.StoredState) : Store.StoredState :=
  match tr with
  | [] => s
  | StoreUpdate w :: rest => replay rest (Store.apply w s)
  | _ :: rest => replay rest s
  end.

(** The [joinedAt] of an entry of the map, the key of the sort. *)
Definition joined (e : string * User) : Z := joinedAt (userData (snd e)).

(** The entries of a snapshot that the loop of [updatePresence] keeps, in
    the order of the snapshot. *)
Definition kept (now : Z) (entry : string * option UserData) : Users :=
  match entry with
  | (_, None) => []
  | (uid, Some u) =>
      if now - lastSeenOf u now <? timeoutMs
      then [(uid, mkUser u (now - lastSeenOf u now <? 35000))]
      else []
  end.

(** The entries of a snapshot that count as online viewers. *)
Definition counted (now : Z) (entry : string * option UserData) : bool :=
  match snd entry with
  | None => false
  | Some u => now - lastSeenOf u now <? 35000
  end.

(** [getInitials(name)]. *)
Definition getInitials (name : string) : string :=
  String.substring 0 2
    (Js.join (map (fun word => Js.toUpperCase (Js.charAt word 0))
                  (Js.split " " name))).

Definition colors : list string :=
  ["#e53e3e"; "#dd6b20"; "#d69e2e"; "#38a169"; "#319795";
   "#3182ce"; "#553c9a"; "#805ad5"; "#b83280"; "#ec4899"].

(** The loop of [getUserColor] over the character codes of the id:
    [hash = ((hash << 5) - hash) + char; hash = hash & hash]. *)
Fixpoint hashLoop (codes : list Z) (hash : Z) : Z :=
  match codes with
  | [] => hash
  | char :: rest =>
      let hash1 := Js.toInt32 (Js.toInt32 hash * 32) - hash + char in
      hashLoop rest (Js.toInt32 hash1)
  end.

(** [getUserColor(userId)]; [None] is the [undefined] of an index outside
    the array. *)
Definition getUserColor (uid : string) : option string :=
  let hash := hashLoop (Js.charCodes uid) 0 in
  nth_error colors (Z.to_nat (Z.abs hash mod Z.of_nat (List.length colors))).

(** The polynomial in 31 of a list of character codes. *)
Definition poly31 (codes : list Z) : Z :=
  fold_left (fun h char => h * 31 + char) codes 0.

(** [isHost(userId = null)]. *)
Definition isHost (uid : option string) (pm : PresenceManager) : bool :=
  let checkUserId :=
    match uid with
    | Some u => if Js.truthy u then u else userId pm
    | None => userId pm
    end in
  option_string_eqb (Some checkUserId) (hostId pm).

(** [users.has(key)]. *)
Definition has (m : Users) (key : string) : bool :=
  existsb (fun e => String.eqb (fst e) key) m.

(** The toasts of [handlePresenceChanges]:
    [showToast(`${name} joined the room`, 'success', 2000)] and
    [showToast(`${name} left the room`, 'warning', 2000)]. *)
Inductive Notice :=
| Joined (uid name : string)
| Left (uid name : string).

(** [handlePresenceChanges(previousUsers, showToast)], run on the user map
    as [updatePresence] has just left it. *)
Definition handlePresenceChanges (previousUsers : Users) (pm : PresenceManager)
  : list Notice :=
  flat_map (fun e =>
              if negb (has previousUsers (fst e))
                 && negb (String.eqb (fst e) (userId pm))
              then [Joined (fst e) (name (userData (snd e)))] else [])
           (users pm)
  ++ flat_map (fun e =>
                 if negb (has (users pm) (fst e))
                    && negb (String.eqb (fst e) (userId pm))
                 then [Left (fst e) (name (userData (snd e)))] else [])
              previousUsers.

(** The toasts that follow [updatePresence(presenceData)]: none on an empty
    snapshot, where the method returns before [showPresenceChanges]. *)
Definition showPresenceChanges
    (presenceData : option (list (string * option UserData)))
    (now now' : Z) (pm : PresenceManager) : list Notice :=
  match presenceData with
  | None => []
  | Some _ =>
      handlePresenceChanges (users pm)
        (fst (updatePresence presenceData now now' pm))
  end.

(** One [<div class="user-avatar">] of [updateUserAvatars]. *)
Record Avatar := mkAvatar {
  a_initials : string;
  a_isHost : bool;
  a_backgroundColor : option string;
  a_name : string
}.

(** [updateUserAvatars()]: the avatars, and the number of the overflow
    badge when there is one. *)
Definition updateUserAvatars (pm : PresenceManager)
  : list Avatar * option nat :=
  let onlineUsers := firstn 6 (sort (onlineEntries (users pm))) in
  let totalOnline := List.length (getOnlineUsers pm) in
  (map (fun e =>
          mkAvatar (getInitials (name (userData (snd e))))
                   (option_string_eqb (Some (fst e)) (hostId pm))
                   (getUserColor (fst e))
                   (name (userData (snd e))))
       onlineUsers,
   if (6 <? totalOnline)%nat then Some (totalOnline - 6)%nat else None).

End Presence.

(* ------------------------------------------------------------------ *)
(** * js/chat.js: sending a message *)

Module Chat.

Local Open Scope list_scope.
Local Open Scope Z_scope.

(** A child pushed to [rooms/<roomId>/chat]; the text is kept as its
    UTF-16 code units. *)
Record Message := mkMessage {
  m_userId : string;
  m_userName : string;
  m_text : Js.text16;
  m_timestamp : Z
}.

Record ChatManager := mkChatManager {
  userId : string;
  userName : string;
  rateLimiter : App.RateLimiter;
  isTyping : bool
}.

(** [new ChatManager(db, roomId, userId, userName)]: one message per
    800 ms. *)
Definition init (uid uname : string) : ChatManager :=
  mkChatManager uid uname (App.newRateLimiter 1 800) false.

Inductive Effect :=
| Push (m : Message)                  (* push(messagesRef, message) *)
| Toast (message kind : string)       (* showToast(message, kind) *)
| ToastWait (waitTime : option Z)
    (* showToast(`Please wait ${waitTime}s before sending another
       message`, 'warning'); [None] is [Infinity] *)
| RemoveTyping.                       (* remove(typingRef), in stopTyping() *)

(** [Math.ceil(ms / 1000)]. *)
Definition ceilSeconds (ms : Z) : Z := - ((- ms) / 1000).

(** [sendMessage(text)]; [now] is the [Date.now()] read by
    [canMakeCall()], [now'] the one read later, by
    [getTimeUntilNextCall()] or for the timestamp of the message.  The
    push is taken to succeed. *)
Definition sendMessage (text : Js.text16) (now now' : Z) (cm : ChatManager)
  : ChatManager * list Effect :=
  let text := Js.trim16 text in
  match text with
  | [] => (cm, [])
  | _ :: _ =>
      if (500 <? List.length text)%nat then
        (cm, [Toast "Message too long (max 500 characters)" "error"])
      else
        let '(ok, limiter) := App.canMakeCall now (rateLimiter cm) in
        if negb ok then
          (mkChatManager (userId cm) (userName cm) limiter (isTyping cm),
           [ToastWait (option_map ceilSeconds
                         (App.getTimeUntilNextCall now' limiter))])
        else
          (mkChatManager (userId cm) (userName cm) limiter false,
           [Push (mkMessage (userId cm) (userName cm) text now');
            RemoveTyping])
  end.

End Chat.

(* ------------------------------------------------------------------ *)
(** * How [connectToRoom] wires the presence manager to the room manager *)

Module Wiring.

Import Room.

(** The host-change calls of a presence trace, delivered in order to the
    callback of the room manager. *)
Fixpoint deliver (effs : list Presence.Effect) : M unit :=
  match effs with
  | [] => ret tt
  | Presence.HostChange newHostId _ :: rest =>
      onHostChange newHostId ;; deliver rest
  | _ :: rest => deliver rest
  end.

End Wiring.

(* ------------------------------------------------------------------ *)
(** * Sample rooms *)

Module Examples.

Local Open Scope Z_scope.

(** A [<video>] element at 101.5 s, paused. *)
Definition element : Video.Backend :=
  Video.mkBackend (1015 # 10) false false (1 # 2) [].

Definition adapter : Video.VideoPlayer :=
  Video.mkVideoPlayer (Some element) (Some App.mp4) true 0 600 false false
                      (1 # 2).

(** The record the host wrote at time 1700000000000. *)
Definition record : Room.RoomState :=
  Room.mkRoomState "https://example.com/a.mp4" 100 true 1700000000000 "user_h".

Definition viewer : Room.RoomManager :=
  Room.mkRoomManager "user_v" false record 0 false adapter.

Definition host : Room.RoomManager :=
  Room.mkRoomManager "user_h" true record 0 false adapter.

(** A Vimeo player and its adapter, which has 101.5 s in [currentTime] and
    knows that the player plays. *)
Definition vimeo_player : Video.Backend :=
  Video.mkBackend (1015 # 10) true false (1 # 2) [].

Definition vimeo_adapter : Video.VideoPlayer :=
  Video.mkVideoPlayer (Some vimeo_player) (Some App.vimeo) true (1015 # 10)
                      600 true false (1 # 2).

Definition vimeo_viewer : Room.RoomManager :=
  Room.mkRoomManager "user_v" false record 0 false vimeo_adapter.

(** A viewer whose adapter has not signalled readiness yet. *)
Definition early_viewer : Room.RoomManager :=
  Room.mkRoomManager "user_v" false record 0 false Video.init.

Definition empty_store : Store.StoredState :=
  Store.mkStored None None None None None.

(** Two online users who joined at 100 and 200, the later one first in the
    map. *)
Definition two_users : Presence.Users :=
  [("user_b", Presence.mkUser (Presence.mkUserData "Bea" 200 (Some 990)) true);
   ("user_a", Presence.mkUser (Presence.mkUserData "Ann" 100 (Some 995)) true)].

Definition presence (us : Presence.Users) (h : option string)
  : Presence.PresenceManager :=
  Presence.mkPresenceManager "user_a" us h true.

(** A snapshot taken at 1700000100000: one entry last seen 70 s before,
    one last seen 1 s before. *)
Definition snapshot : list (string * option Presence.UserData) :=
  [("user_a", Some (Presence.mkUserData "Ann" 1700000000000 (Some 1700000030000)));
   ("user_b", Some (Presence.mkUserData "Bea" 1700000050000 (Some 1700000099000)))].

(** A snapshot taken at 1700000100000: Zoe joined 30 s before and her
    [lastSeen] is 0; Bea joined 20 s before and was last seen 1 s
    before. *)
Definition falsy_snapshot : list (string * option Presence.UserData) :=
  [("user_b", Some (Presence.mkUserData "Bea" 1700000080000 (Some 1700000099000)));
   ("user_z", Some (Presence.mkUserData "Zoe" 1700000070000 (Some 0)))].

(** A snapshot whose only entry has [lastSeen] 0 and joined 1 s before. *)
Definition zero_snapshot : list (string * option Presence.UserData) :=
  [("user_z", Some (Presence.mkUserData "Zoe" 1700000099000 (Some 0)))].

(** The user map once everybody has gone quiet. *)
Definition offline_users : Presence.Users :=
  [("user_a", Presence.mkUser (Presence.mkUserData "Ann" 100 (Some 995)) false)].

(** A third client that knows the two users. *)
Definition watcher : Presence.PresenceManager :=
  Presence.mkPresenceManager "user_c" two_users None true.

End Examples.

(* ------------------------------------------------------------------ *)
(** * Locator validation *)

Module AppFacts.

Import App.

(** C8, as stated, fails on the bare file names: [new URL("foo.MP4")] has
    no scheme and throws, and [validateVideoUrl] answers [null] for both
    spellings. *)
Lemma bare_file_name_rejected :
  validateVideoUrl "foo.MP4" = None /\ validateVideoUrl "foo.mp4" = None.
Proof. split; reflexivity. Qed.

(** C8 (amended): the short and the long YouTube locator get the same
    canonical form, and so do the two Vimeo locators; an absolute URL that
    ends in [foo.MP4] or [foo.mp4] is accepted as a direct file and kept as
    it is; [https://example.com/notvideo] is rejected. *)
Theorem validateVideoUrl_canonical :
  validateVideoUrl "https://youtu.be/XYZ"
    = Some (mkValidated youtube "https://www.youtube.com/watch?v=XYZ")
  /\ validateVideoUrl "https://www.youtube.com/watch?v=XYZ"
    = validateVideoUrl "https://youtu.be/XYZ"
  /\ validateVideoUrl "https://vimeo.com/12345"
    = Some (mkValidated vimeo "https://vimeo.com/12345")
  /\ validateVideoUrl "https://vimeo.com/video/12345"
    = validateVideoUrl "https://vimeo.com/12345"
  /\ validateVideoUrl "https://example.com/foo.MP4"
    = Some (mkValidated mp4 "https://example.com/foo.MP4")
  /\ validateVideoUrl "https://example.com/foo.mp4"
    = Some (mkValidated mp4 "https://example.com/foo.mp4")
  /\ validateVideoUrl "https://example.com/notvideo" = None.
Proof. repeat split; reflexivity. Qed.

End AppFacts.

(* ------------------------------------------------------------------ *)
(** * The adapter before readiness *)

Module VideoFacts.

Import Video.

(** C9: while [isReady()] is false, [play], [pause], [seek] and
    [toggleMute] resolve without touching the adapter or the player behind
    it; [setVolume] only records the clamped volume in the adapter and sends
    nothing to the player; [getCurrentTime], [isPlaying] and [isMuted]
    answer [0], [false] and [false]; no call rejects or throws. *)
Theorem not_ready_is_noop (vp : VideoPlayer) (t v : Q) :
  isReady vp = false ->
  play vp = Resolved vp []
  /\ pause vp = Resolved vp []
  /\ seek t vp = Resolved vp []
  /\ toggleMute vp = Resolved vp []
  /\ setVolume v vp
     = Resolved (set_volume (Math_max 0 (Math_min 1 v)) vp) []
  /\ player (set_volume (Math_max 0 (Math_min 1 v)) vp) = player vp
  /\ getCurrentTime vp = Some 0%Q
  /\ isPlaying vp = Some false
  /\ isMuted vp = Some false.
Proof.
  unfold isReady, play, pause, seek, toggleMute, setVolume,
    getCurrentTime, isPlaying, isMuted.
  intros Hready. cbn [isReady_ set_volume]. rewrite Hready. cbn [negb].
  repeat split.
Qed.

(** On a freshly constructed adapter, whose [player] is still [null]. *)
Lemma not_ready_is_noop_witness :
  isReady init = false
  /\ play init = Resolved init []
  /\ getCurrentTime init = Some 0%Q.
Proof.
  split; [reflexivity|].
  pose proof (not_ready_is_noop init 5 (3 # 2) eq_refl) as H.
  split; [exact (proj1 H) | exact (proj1 (proj2 (proj2 (proj2 (proj2 (proj2 (proj2 H)))))))].
Defined.

End VideoFacts.

(* ------------------------------------------------------------------ *)
(** * Writing and reconciling the room state *)

Module RoomFacts.

Import Room.
Local Open Scope list_scope.
Local Open Scope Z_scope.

Ltac run := unfold bind, this, modify, emit, ret, throw; cbn.

Lemma updateRoomState_viewer (u : Updates) (now now' : Z) (rm : RoomManager) :
  isHost rm = false -> updateRoomState u now now' rm = Done tt rm [].
Proof. intros H. unfold updateRoomState. run. rewrite H. reflexivity. Qed.

Lemma callback_viewer (now : Z) (ev : Video.Event) (rm : RoomManager) :
  isHost rm = false -> callback now ev rm = Done tt rm [].
Proof.
  intros H. destruct ev; unfold callback, onPlay, onPause, onSeek; run;
    rewrite H; reflexivity.
Qed.

Lemma callbacks_viewer (now : Z) (evs : list Video.Event) (rm : RoomManager) :
  isHost rm = false -> callbacks now evs rm = Done tt rm [].
Proof.
  intros H. induction evs as [|ev evs IH]; [reflexivity|].
  cbn [callbacks]. unfold bind. rewrite (callback_viewer now ev rm H), IH.
  reflexivity.
Qed.

(** On a client that is not host, finishing a call only changes the
    adapter. *)
Lemma later_viewer (finish : Video.VideoPlayer
                             -> Video.VideoPlayer * list Video.Event)
                   (now : Z) (rm : RoomManager) :
  isHost rm = false ->
  later finish now rm
  = Done tt (set_videoPlayer (fst (finish (videoPlayer rm))) rm) [].
Proof.
  intros H. unfold later, bind, this, modify.
  rewrite callbacks_viewer by exact H. reflexivity.
Qed.

Lemma settle_viewer (tr : list Effect) (now : Z) :
  forall rm, isHost rm = false ->
    settle tr now rm
    = Done tt (set_videoPlayer (finished tr (videoPlayer rm)) rm) [].
Proof.
  induction tr as [|e tr IH]; intros rm H.
  - destruct rm; reflexivity.
  - destruct e; cbn [settle finished]; try apply IH; try exact H;
      unfold bind; rewrite later_viewer by exact H;
      rewrite IH by exact H; reflexivity.
Qed.

(** C3: an unforced reconciliation against a record older than 10000 ms
    returns at once: the manager, its adapter and the player behind it are
    as before, and nothing was called, shown or written. *)
Theorem stale_sync_is_skipped (rm : RoomManager) (now : Z) :
  10000 < now - updatedAt (currentState rm) ->
  syncToRemoteState false now rm = Done tt rm [].
Proof.
  intros Hstale. unfold syncToRemoteState. run.
  destruct (isHost rm || negb (Js.truthy (url (currentState rm)))
            || negb (Video.isReady (videoPlayer rm))); [reflexivity|].
  apply Z.ltb_lt in Hstale. rewrite Hstale. reflexivity.
Qed.

(** The sample viewer, 20 s after the host's write. *)
Lemma stale_sync_is_skipped_witness :
  syncToRemoteState false 1700000020000 Examples.viewer
  = Done tt Examples.viewer [].
Proof. apply stale_sync_is_skipped. reflexivity. Defined.

Lemma stale_sync (now : Z) (rm : RoomManager) :
  (10000 <? now - updatedAt (currentState rm)) = true ->
  syncToRemoteState false now rm = Done tt rm [].
Proof.
  intros Hstale. unfold syncToRemoteState. run.
  destruct (isHost rm || negb (Js.truthy (url (currentState rm)))
            || negb (Video.isReady (videoPlayer rm))); [reflexivity|].
  rewrite Hstale. reflexivity.
Qed.

Lemma query_run {A} (getter : Video.VideoPlayer -> option A) (rm : RoomManager) :
  query getter rm
  = match getter (videoPlayer rm) with
    | Some a => Done a rm []
    | None => Thrown rm []
    end.
Proof. unfold query. run. destruct (getter (videoPlayer rm)); reflexivity. Qed.

(** The commands a reconciliation sends for the play state [p] that the
    adapter reports. *)
Lemma sync_viewer (force : bool) (now : Z) (rm : RoomManager) (l : Q) (p : bool) :
  isHost rm = false ->
  Js.truthy (url (currentState rm)) = true ->
  Video.isReady (videoPlayer rm) = true ->
  (10000 <? now - updatedAt (currentState rm)) && negb force = false ->
  Video.getCurrentTime (videoPlayer rm) = Some l ->
  let r := remoteTime (currentState rm) now in
  let seeks := Js.gt (Qabs (Js.sub r l)) (4 # 10) || force in
  let vp1 := if seeks then Video.start_seek r (videoPlayer rm)
             else videoPlayer rm in
  Video.isPlaying vp1 = Some p ->
  let should := playing (currentState rm) in
  let vp2 := if should && negb p then Video.start_play vp1
             else if negb should && p then Video.start_pause vp1
             else vp1 in
  syncToRemoteState force now rm
  = Done tt
      (mkRoomManager (userId rm) false (currentState rm) (lastSyncTime rm)
                     false vp2)
      ((if seeks then
          PlayerSeek r :: (if force then [Toast "Synced with host" "success"]
                           else [])
        else [])
       ++ (if should && negb p then [PlayerPlay]
           else if negb should && p then [PlayerPause]
           else [])).
Proof.
  intros Hhost Hurl Hready Hfresh Hlocal r seeks vp1 Hplaying should vp2.
  unfold syncToRemoteState.
  repeat (unfold bind, this, modify, query, call, ret, throw, emit; cbv beta).
  rewrite Hhost, Hurl, Hready, Hfresh. cbn [orb negb].
  unfold set_isUpdatingFromRemote at 1 2.
  cbn [videoPlayer]. rewrite Hlocal.
  fold r. fold seeks. subst vp2 vp1.
  destruct seeks; cbv iota in Hplaying |- *.
  - unfold set_videoPlayer, set_isUpdatingFromRemote.
    cbn [videoPlayer currentState userId isHost lastSyncTime isUpdatingFromRemote].
    destruct force; cbv beta iota; cbn [videoPlayer currentState];
      rewrite Hplaying; fold should;
      (destruct (should && negb p); [|destruct (negb should && p)]);
      cbv beta iota; cbn; rewrite ?Hhost; reflexivity.
  - cbn [videoPlayer currentState]. rewrite Hplaying. fold should.
    (destruct (should && negb p); [|destruct (negb should && p)]);
      cbv beta iota; cbn; rewrite ?Hhost; reflexivity.
Qed.

Lemma sync_guarded (force : bool) (now : Z) (rm : RoomManager) :
  isHost rm || negb (Js.truthy (url (currentState rm)))
  || negb (Video.isReady (videoPlayer rm)) = true ->
  syncToRemoteState force now rm = Done tt rm [].
Proof. intros H. unfold syncToRemoteState. run. rewrite H. reflexivity. Qed.

Lemma or_zero_eq (x : Q) : (Video.or_zero x == x)%Q.
Proof.
  unfold Video.or_zero. destruct (Qeq_bool x 0) eqn:E; [|reflexivity].
  apply Qeq_bool_eq in E. symmetry. exact E.
Qed.

Lemma local_time_defined (vp : Video.VideoPlayer) :
  Video.isReady_ vp = true ->
  (exists ty b, Video.type vp = Some ty /\ Video.player vp = Some b) ->
  exists l, Video.getCurrentTime vp = Some l.
Proof.
  intros Hready (ty & b & Hty & Hb). unfold Video.getCurrentTime.
  rewrite Hready, Hty, Hb. destruct ty; cbn; eauto.
Qed.



(** The commands that reach the player in a reconciliation, and what the
    adapter holds when it returns. *)
Lemma reconciled_player (vp : Video.VideoPlayer) (r : Q) (should seeks : bool)
    (ty : App.VideoType) (b : Video.Backend) :
  Video.isReady_ vp = true ->
  Video.type vp = Some ty ->
  Video.player vp = Some b ->
  let vp1 := if seeks then Video.start_seek r vp else vp in
  let p := Video.reported ty b vp in
  Video.isPlaying vp1 = Some p
  /\ let vp2 := if should && negb p then Video.start_play vp1
                else if negb should && p then Video.start_pause vp1
                else vp1 in
     exists b',
       Video.player vp2 = Some b'
       /\ Video.b_calls b'
          = Video.b_calls b
            ++ (if seeks then [Video.CallSeek r] else [])
            ++ (if should && negb p then [Video.CallPlay]
                else if negb should && p then [Video.CallPause]
                else [])
       /\ Video.isReady_ vp2 = true
       /\ Video.type vp2 = Some ty
       /\ Video.currentTime vp2
          = (if seeks
             then match ty with
                  | App.vimeo => Video.currentTime vp
                  | _ => r
                  end
             else Video.currentTime vp)
       /\ Video.playing vp2 = Video.playing vp.
Proof.
  intros Hready Hty Hb.
  destruct vp as [pl t rd ct du pg mu vo]. cbn in Hready, Hty, Hb. subst.
  destruct b as [bt bp bm bv bc].
  destruct ty, seeks, should, pg, bp; cbn;
    (split; [reflexivity|]); eexists; repeat split;
    rewrite <- ?app_assoc, ?app_nil_r; reflexivity.
Qed.

(** A reconciliation that decides to seek hands the target to the player,
    once, and on YouTube and on the [<video>] element stores it in
    [this.currentTime]. *)
Lemma seek_is_sent (force : bool) (now : Z) (rm : RoomManager) (l : Q)
    (ty : App.VideoType) (b : Video.Backend) :
  isHost rm = false ->
  Js.truthy (url (currentState rm)) = true ->
  Video.isReady (videoPlayer rm) = true ->
  Video.type (videoPlayer rm) = Some ty ->
  Video.player (videoPlayer rm) = Some b ->
  Video.getCurrentTime (videoPlayer rm) = Some l ->
  (10000 <? now - updatedAt (currentState rm)) && negb force = false ->
  let r := remoteTime (currentState rm) now in
  Js.gt (Qabs (Js.sub r l)) (4 # 10) || force = true ->
  exists rm' tr b' calls,
    syncToRemoteState force now rm
    = Done tt rm' (PlayerSeek r
                   :: (if force then [Toast "Synced with host" "success"]
                       else []) ++ tr)
    /\ (forall t, ~ In (PlayerSeek t) tr)
    /\ Video.player (videoPlayer rm') = Some b'
    /\ Video.b_calls b' = Video.b_calls b ++ Video.CallSeek r :: calls
    /\ (forall t, ~ In (Video.CallSeek t) calls)
    /\ (ty <> App.vimeo -> Video.currentTime (videoPlayer rm') = r)
    /\ currentState rm' = currentState rm
    /\ isUpdatingFromRemote rm' = false.
Proof.
  intros Hhost Hurl Hready Hty Hb Hlocal Hgate r Hseeks.
  destruct (reconciled_player (videoPlayer rm) r (playing (currentState rm))
              true ty b Hready Hty Hb)
    as (Hp & b' & Hb' & Hcalls & _ & _ & Htime & _).
  pose proof (sync_viewer force now rm l (Video.reported ty b (videoPlayer rm))
                Hhost Hurl Hready Hgate Hlocal) as Hrun.
  cbv zeta in Hrun. fold r in Hrun. rewrite Hseeks in Hrun.
  specialize (Hrun Hp). rewrite Hrun.
  set (p := Video.reported ty b (videoPlayer rm)) in *.
  set (should := playing (currentState rm)) in *.
  eexists. eexists. exists b'. eexists.
  split; [reflexivity|].
  cbn [videoPlayer currentState isUpdatingFromRemote].
  split; [|split; [exact Hb'|split; [exact Hcalls|]]].
  - intros t. destruct (should && negb p); [|destruct (negb should && p)];
      cbn; intuition discriminate.
  - split.
    + intros t. destruct (should && negb p); [|destruct (negb should && p)];
        cbn; intuition discriminate.
    + split; [|split; reflexivity].
      intros Hnot. rewrite Htime. destruct ty; congruence.
Qed.

(** C1: on a viewer whose video is loaded and ready and whose cached record
    is at most 10000 ms old, an unforced reconciliation computes the
    predicted remote time [time + staleness / 1000] and the drift from the
    local time in double arithmetic; when the drift is above 0.4 it hands
    the predicted time to the player with one seek command (and keeps it in
    [this.currentTime], except for Vimeo, where that follows an await).
    The [playing] flag of the record has no part in the predicted time.
    With [time] 100, staleness 3000 ms and local time 101.5 the predicted
    time is 103 and the drift 1.5, which is above 0.4.  The numbers are of
    magnitude at most 2^53. *)
Theorem viewer_seeks_to_predicted_time (rm : RoomManager) (now : Z) (l : Q)
    (ty : App.VideoType) (b : Video.Backend) :
  isHost rm = false ->
  Js.truthy (url (currentState rm)) = true ->
  Video.isReady (videoPlayer rm) = true ->
  Video.type (videoPlayer rm) = Some ty ->
  Video.player (videoPlayer rm) = Some b ->
  Video.getCurrentTime (videoPlayer rm) = Some l ->
  now - updatedAt (currentState rm) <= 10000 ->
  Js.safe (time (currentState rm)) -> Js.safe l ->
  Js.safe (inject_Z (now - updatedAt (currentState rm))) ->
  let staleness := now - updatedAt (currentState rm) in
  let predicted :=
    Js.add (time (currentState rm)) (Js.div (inject_Z staleness) 1000) in
  let drift := Qabs (Js.sub predicted l) in
  (Js.gt drift (4 # 10) = true ->
   exists rm' tr b' calls,
     syncToRemoteState false now rm = Done tt rm' (PlayerSeek predicted :: tr)
     /\ (forall t, ~ In (PlayerSeek t) tr)
     /\ Video.player (videoPlayer rm') = Some b'
     /\ Video.b_calls b' = Video.b_calls b ++ Video.CallSeek predicted :: calls
     /\ (forall t, ~ In (Video.CallSeek t) calls)
     /\ (ty <> App.vimeo -> Video.currentTime (videoPlayer rm') = predicted)
     /\ currentState rm' = currentState rm)
  /\ (forall p,
        remoteTime (mkRoomState (url (currentState rm))
                                (time (currentState rm)) p
                                (updatedAt (currentState rm))
                                (hostId (currentState rm))) now
        = predicted)
  /\ (time (currentState rm) = 100%Q -> staleness = 3000 -> l = (1015 # 10)%Q ->
      predicted = 103%Q /\ (drift == 15 # 10)%Q
      /\ Js.gt drift (4 # 10) = true).
Proof.
  intros Hhost Hurl Hready Hty Hb Hlocal Hfresh _ _ _ staleness predicted drift.
  split; [|split].
  - intros Hdrift.
    assert (Hgate : (10000 <? now - updatedAt (currentState rm)) && negb false
                    = false).
    { apply andb_false_intro1. apply Z.ltb_ge. exact Hfresh. }
    destruct (seek_is_sent false now rm l ty b Hhost Hurl Hready Hty Hb Hlocal
                Hgate)
      as (rm' & tr & b' & calls & Hrun & Htr & Hb' & Hcalls & Hone & Htime
          & Hstate & _).
    { fold staleness. unfold remoteTime. fold staleness. fold predicted.
      fold drift. rewrite Hdrift. reflexivity. }
    exists rm', tr, b', calls. cbn [app] in Hrun. auto 10.
  - intros p. reflexivity.
  - intros Htime Hstale Hl. subst predicted drift.
    rewrite Htime, Hstale, Hl. vm_compute. repeat split; congruence.
Qed.

(** The sample viewer, 3 s after the host's write: its [<video>] element is
    told to seek to 103. *)
Lemma viewer_seeks_to_predicted_time_witness :
  exists rm' tr b' calls,
    syncToRemoteState false 1700000003000 Examples.viewer
    = Done tt rm' (PlayerSeek 103 :: tr)
    /\ Video.player (videoPlayer rm') = Some b'
    /\ Video.b_calls b' = Video.CallSeek 103 :: calls.
Proof.
  destruct (viewer_seeks_to_predicted_time Examples.viewer 1700000003000
              (1015 # 10) App.mp4 Examples.element
              eq_refl eq_refl eq_refl eq_refl eq_refl eq_refl)
    as (Hseek & _ & _).
  - vm_compute. discriminate.
  - vm_compute. discriminate.
  - vm_compute. discriminate.
  - vm_compute. discriminate.
  - destruct (Hseek eq_refl)
      as (rm' & tr & b' & calls & Hrun & _ & Hb' & Hcalls & _).
    exists rm', tr, b', calls. auto.
Defined.

(** C2, as stated, fails where the first guard of [syncToRemoteState]
    returns before [force] is looked at: a forced reconciliation seeks
    nowhere on a viewer whose adapter is not ready yet, nor on the host. *)
Lemma forced_sync_behind_guard_does_nothing :
  syncToRemoteState true 1700000003000 Examples.early_viewer
  = Done tt Examples.early_viewer []
  /\ syncToRemoteState true 1700000003000 Examples.host
     = Done tt Examples.host [].
Proof. split; reflexivity. Qed.

(** C2 (amended): on the host, without a video url or before the adapter
    is ready, a forced reconciliation returns without a call.  On a client
    that is not host, whose cached record names a video and whose adapter
    is loaded and ready, it hands the predicted remote time to the player
    with one seek command and confirms it with a toast, whatever the drift
    and the staleness are.  The numbers are of magnitude at most 2^53. *)
Theorem forced_sync_seeks (rm : RoomManager) (now : Z) :
  (isHost rm || negb (Js.truthy (url (currentState rm)))
   || negb (Video.isReady (videoPlayer rm)) = true ->
   syncToRemoteState true now rm = Done tt rm [])
  /\ (forall l ty b,
        isHost rm = false ->
        Js.truthy (url (currentState rm)) = true ->
        Video.isReady (videoPlayer rm) = true ->
        Video.type (videoPlayer rm) = Some ty ->
        Video.player (videoPlayer rm) = Some b ->
        Video.getCurrentTime (videoPlayer rm) = Some l ->
        Js.safe (time (currentState rm)) -> Js.safe l ->
        Js.safe (inject_Z (now - updatedAt (currentState rm))) ->
        let predicted := remoteTime (currentState rm) now in
        exists rm' tr b' calls,
          syncToRemoteState true now rm
          = Done tt rm' (PlayerSeek predicted
                         :: Toast "Synced with host" "success" :: tr)
          /\ (forall t, ~ In (PlayerSeek t) tr)
          /\ Video.player (videoPlayer rm') = Some b'
          /\ Video.b_calls b'
             = Video.b_calls b ++ Video.CallSeek predicted :: calls
          /\ (forall t, ~ In (Video.CallSeek t) calls)
          /\ (ty <> App.vimeo ->
              Video.currentTime (videoPlayer rm') = predicted)).
Proof.
  split; [apply sync_guarded|].
  intros l ty b Hhost Hurl Hready Hty Hb Hlocal _ _ _ predicted.
  destruct (seek_is_sent true now rm l ty b Hhost Hurl Hready Hty Hb Hlocal
              (andb_false_r _) (orb_true_r _))
    as (rm' & tr & b' & calls & Hrun & Htr & Hb' & Hcalls & Hone & Htime & _).
  exists rm', tr, b', calls. cbn [app] in Hrun. auto 10.
Qed.

(** The sample viewer, forced a minute after the host's write: its
    [<video>] element is told to seek to 160. *)
Lemma forced_sync_seeks_witness :
  exists rm' tr b' calls,
    syncToRemoteState true 1700000060000 Examples.viewer
    = Done tt rm' (PlayerSeek 160 :: Toast "Synced with host" "success" :: tr)
    /\ Video.player (videoPlayer rm') = Some b'
    /\ Video.b_calls b' = Video.CallSeek 160 :: calls.
Proof.
  destruct (proj2 (forced_sync_seeks Examples.viewer 1700000060000)
              (1015 # 10) App.mp4 Examples.element
              eq_refl eq_refl eq_refl eq_refl eq_refl eq_refl)
    as (rm' & tr & b' & calls & Hrun & _ & Hb' & Hcalls & _).
  - vm_compute. discriminate.
  - vm_compute. discriminate.
  - vm_compute. discriminate.
  - exists rm', tr, b', calls. auto.
Defined.

(** An unforced reconciliation that finds nothing to correct. *)
Lemma sync_in_step (now : Z) (rm : RoomManager) (l : Q) :
  isHost rm = false ->
  isUpdatingFromRemote rm = false ->
  Video.getCurrentTime (videoPlayer rm) = Some l ->
  Js.gt (Qabs (Js.sub (remoteTime (currentState rm) now) l)) (4 # 10) = false ->
  Video.isPlaying (videoPlayer rm) = Some (playing (currentState rm)) ->
  syncToRemoteState false now rm = Done tt rm [].
Proof.
  intros Hhost Hflag Hlocal Hdrift Hplaying.
  destruct (isHost rm || negb (Js.truthy (url (currentState rm)))
            || negb (Video.isReady (videoPlayer rm))) eqn:Hguard.
  { apply sync_guarded. exact Hguard. }
  destruct (10000 <? now - updatedAt (currentState rm)) eqn:Hstale.
  { apply stale_sync. exact Hstale. }
  apply orb_false_elim in Hguard. destruct Hguard as [Hguard Hready].
  apply orb_false_elim in Hguard. destruct Hguard as [_ Hurl].
  apply negb_false_iff in Hurl, Hready.
  pose proof (sync_viewer false now rm l (playing (currentState rm))
                Hhost Hurl Hready) as Hrun.
  rewrite Hstale in Hrun. specialize (Hrun eq_refl Hlocal).
  cbv zeta in Hrun. rewrite Hdrift in Hrun. cbn [orb] in Hrun.
  specialize (Hrun Hplaying).
  rewrite andb_negb_r, andb_negb_l in Hrun. rewrite Hrun.
  destruct rm; cbn in Hhost, Hflag |- *. subst. reflexivity.
Qed.

Lemma double_zero (x : Q) : Qeq_bool x 0 = true -> Js.double x = 0%Q.
Proof. intros H. unfold Js.double. rewrite H. reflexivity. Qed.

(** A number is at no distance from itself, nor from what [x || 0] makes
    of it. *)
Lemma sub_self (x : Q) : Js.sub x x = 0%Q.
Proof.
  unfold Js.sub. apply double_zero. apply Qeq_bool_iff. ring.
Qed.

Lemma sub_or_zero (x : Q) : Js.sub x (Video.or_zero x) = 0%Q.
Proof.
  unfold Video.or_zero. destruct (Qeq_bool x 0) eqn:E; [|apply sub_self].
  unfold Js.sub. rewrite (double_zero x E). reflexivity.
Qed.

(** The adapter after a reconciliation, once the calls it made are
    finished: it reports the play state that was asked for, and the target
    of the seek if there was one. *)
Lemma settled_player (vp : Video.VideoPlayer) (r l : Q)
    (should seeks force : bool) (ty : App.VideoType) (b : Video.Backend) :
  Video.isReady_ vp = true ->
  Video.type vp = Some ty ->
  Video.player vp = Some b ->
  Video.getCurrentTime vp = Some l ->
  let vp1 := if seeks then Video.start_seek r vp else vp in
  let p := Video.reported ty b vp in
  let vp2 := if should && negb p then Video.start_play vp1
             else if negb should && p then Video.start_pause vp1
             else vp1 in
  let tr := (if seeks then
               PlayerSeek r :: (if force then [Toast "Synced with host" "success"]
                                else [])
             else [])
            ++ (if should && negb p then [PlayerPlay]
                else if negb should && p then [PlayerPause]
                else []) in
  let vp3 := finished tr vp2 in
  Video.isReady vp3 = true
  /\ Video.isPlaying vp3 = Some should
  /\ exists l3, Video.getCurrentTime vp3 = Some l3
                /\ if seeks then l3 = r \/ l3 = Video.or_zero r else l3 = l.
Proof.
  intros Hready Hty Hb Hlocal.
  destruct vp as [pl t rd ct du pg mu vo]. cbn in Hready, Hty, Hb. subst.
  destruct b as [bt bp bm bv bc].
  destruct ty, seeks, force, should, pg, bp;
    cbn -[Video.or_zero] in Hlocal |- *;
    injection Hlocal as <-;
    (split; [reflexivity|]); (split; [reflexivity|]);
    eexists; (split; [reflexivity|]); auto.
Qed.

(** C4, as stated, fails when the second application follows the first at
    once.  On the Vimeo adapter [this.currentTime] gets the target only
    after an await, so right after the first application the local time is
    still 101.5 and the second application seeks to 103 again.  On the
    [<video>] adapter [this.playing] is only written by the listener of the
    [play] event, so the second application calls [play()] again. *)
Lemma second_sync_repeats_the_calls :
  (exists rm1 tr1 rm2 tr2,
     syncToRemoteState false 1700000003000 Examples.vimeo_viewer
     = Done tt rm1 (PlayerSeek 103 :: tr1)
     /\ Video.getCurrentTime (videoPlayer rm1) = Some (1015 # 10)%Q
     /\ syncToRemoteState false 1700000003000 rm1
        = Done tt rm2 (PlayerSeek 103 :: tr2))
  /\ (exists rm1 rm2,
        syncToRemoteState false 1700000003000 Examples.viewer
        = Done tt rm1 [PlayerSeek 103; PlayerPlay]
        /\ syncToRemoteState false 1700000003000 rm1
           = Done tt rm2 [PlayerPlay]).
Proof.
  split.
  - do 4 eexists. split; [vm_compute; reflexivity|].
    split; vm_compute; reflexivity.
  - do 2 eexists. split; [vm_compute; reflexivity|]. vm_compute. reflexivity.
Qed.

(** C4 (amended): take a reconciliation, forced or not, of an adapter that
    is loaded, with a target inside the video; let the calls it made
    finish, on a player that carries out what it is told (the promises
    settle and the player's notifications reach the listeners); an
    unforced reconciliation against the same record at the same wall-clock
    time then changes nothing and calls nothing: no seek, no play, no
    pause.  The numbers are of magnitude at most 2^53. *)
Theorem second_sync_is_noop (rm : RoomManager) (force : bool) (now : Z) :
  Video.loaded (videoPlayer rm) ->
  Js.safe (time (currentState rm)) ->
  Js.safe (inject_Z (now - updatedAt (currentState rm))) ->
  (0 <= remoteTime (currentState rm) now
   /\ remoteTime (currentState rm) now <= Video.getDuration (videoPlayer rm))%Q ->
  exists rm1 tr1 rm2,
    syncToRemoteState force now rm = Done tt rm1 tr1
    /\ settle tr1 now rm1 = Done tt rm2 []
    /\ syncToRemoteState false now rm2 = Done tt rm2 [].
Proof.
  intros Hloaded _ _ _.
  destruct (isHost rm || negb (Js.truthy (url (currentState rm)))
            || negb (Video.isReady (videoPlayer rm))) eqn:Hguard.
  { exists rm, [], rm. repeat split; apply sync_guarded; exact Hguard. }
  apply orb_false_elim in Hguard. destruct Hguard as [Hguard Hready].
  apply orb_false_elim in Hguard. destruct Hguard as [Hhost Hurl].
  apply negb_false_iff in Hurl, Hready.
  destruct ((10000 <? now - updatedAt (currentState rm)) && negb force)
    eqn:Hgate.
  { apply andb_true_iff in Hgate. destruct Hgate as [Hstale Hforce].
    apply negb_true_iff in Hforce. subst force.
    exists rm, [], rm. repeat split; apply stale_sync; exact Hstale. }
  set (r := remoteTime (currentState rm) now).
  destruct (Hloaded Hready) as (ty & b & Hty & Hb).
  destruct (local_time_defined _ Hready (Hloaded Hready)) as [l Hlocal].
  set (seeks := Js.gt (Qabs (Js.sub r l)) (4 # 10) || force).
  destruct (reconciled_player (videoPlayer rm) r (playing (currentState rm))
              seeks ty b Hready Hty Hb) as (Hp & _).
  pose proof (sync_viewer force now rm l (Video.reported ty b (videoPlayer rm))
                Hhost Hurl Hready Hgate Hlocal) as Hrun.
  cbv zeta in Hrun. fold r seeks in Hrun. specialize (Hrun Hp).
  destruct (settled_player (videoPlayer rm) r l (playing (currentState rm))
              seeks force ty b Hready Hty Hb Hlocal)
    as (Hready3 & Hplaying3 & l3 & Hlocal3 & Hl3).
  eexists. eexists. eexists. split; [exact Hrun|].
  split; [apply settle_viewer; reflexivity|].
  apply (sync_in_step now _ l3); try reflexivity; try assumption.
  cbn [currentState videoPlayer set_videoPlayer]. fold r.
  destruct seeks eqn:Hseeks.
  - destruct Hl3 as [->| ->]; rewrite ?sub_self, ?sub_or_zero; reflexivity.
  - subst l3. apply orb_false_elim in Hseeks. exact (proj1 Hseeks).
Qed.

(** The sample viewer, reconciled 3 s after the host's write: once its
    element has sought to 103 and reported that it plays, a second
    reconciliation does nothing. *)
Lemma second_sync_is_noop_witness :
  exists rm1 tr1 rm2,
    syncToRemoteState false 1700000003000 Examples.viewer = Done tt rm1 tr1
    /\ settle tr1 1700000003000 rm1 = Done tt rm2 []
    /\ syncToRemoteState false 1700000003000 rm2 = Done tt rm2 [].
Proof.
  apply (second_sync_is_noop Examples.viewer false 1700000003000).
  - intros _. exists App.mp4, Examples.element. split; reflexivity.
  - vm_compute. discriminate.
  - vm_compute. discriminate.
  - split; vm_compute; discriminate.
Defined.

(** C7: [updateRoomState] on a client that is not host changes neither the
    cached state nor the remote record; on the host it caches and writes a
    state whose [hostId] is the caller's [userId] and whose [updatedAt] is
    the time of the write, so a second write at a later or equal time
    carries an [updatedAt] that is at least the first one. *)
Theorem updateRoomState_host_only (rm : RoomManager) (u1 u2 : Updates)
    (now1 now1' now2 now2' : Z) (remote : Store.StoredState) :
  (isHost rm = false ->
   updateRoomState u1 now1 now1' rm = Done tt rm []
   /\ replay [] remote = remote)
  /\ (isHost rm = true ->
      exists rm1 tr1,
        updateRoomState u1 now1 now1' rm = Done tt rm1 tr1
        /\ hostId (currentState rm1) = userId rm
        /\ updatedAt (currentState rm1) = now1
        /\ Store.s_hostId (replay tr1 remote) = Some (userId rm)
        /\ Store.s_updatedAt (replay tr1 remote) = Some now1
        /\ (now1 <= now2 ->
            exists rm2 tr2,
              updateRoomState u2 now2 now2' rm1 = Done tt rm2 tr2
              /\ hostId (currentState rm2) = userId rm
              /\ updatedAt (currentState rm1) <= updatedAt (currentState rm2)
              /\ Store.s_updatedAt (replay (tr1 ++ tr2) remote) = Some now2)).
Proof.
  split.
  - intros Hhost. split; [apply updateRoomState_viewer; exact Hhost|reflexivity].
  - intros Hhost. unfold updateRoomState. run. rewrite Hhost. cbn.
    do 2 eexists. split; [reflexivity|]. cbn. repeat split.
    intros Hle. rewrite Hhost. cbn.
    do 2 eexists. split; [reflexivity|]. cbn. repeat split. exact Hle.
Qed.

(** Two writes of the sample host, 5 s apart. *)
Lemma updateRoomState_host_only_witness :
  exists rm1 tr1,
    updateRoomState no_updates 1700000003000 1700000003000 Examples.host
    = Done tt rm1 tr1
    /\ hostId (currentState rm1) = "user_h"
    /\ updatedAt (currentState rm1) = 1700000003000.
Proof.
  destruct (proj2 (updateRoomState_host_only Examples.host no_updates
                     no_updates 1700000003000 1700000003000 1700000008000
                     1700000008000 Examples.empty_store) eq_refl)
    as (rm1 & tr1 & Hrun & Hhost & Htime & _).
  exists rm1, tr1. repeat split; assumption.
Defined.

End RoomFacts.

(* ------------------------------------------------------------------ *)
(** * Presence and host election *)

Module PresenceFacts.

Import Presence.
Local Open Scope list_scope.
Local Open Scope Z_scope.

Lemma insert_In (x y : string * User) (l : Users) :
  In y (insert x l) <-> y = x \/ In y l.
Proof.
  induction l as [|z l IH]; cbn.
  - intuition.
  - destruct (_ <=? 0); cbn; [intuition|]. rewrite IH. intuition.
Qed.

Lemma sort_In (y : string * User) (l : Users) : In y (sort l) <-> In y l.
Proof.
  induction l as [|x l IH]; cbn; [reflexivity|].
  rewrite insert_In, IH. intuition.
Qed.

Lemma sort_nil (l : Users) : sort l = [] -> l = [].
Proof.
  destruct l as [|x l]; [reflexivity|]. cbn [sort].
  destruct (sort l) as [|y r]; cbn; [discriminate|].
  destruct (_ <=? 0); discriminate.
Qed.

(** The head of the sorted array is an element with the least [joinedAt]. *)
Lemma sort_head (l : Users) (e : string * User) (r : Users) :
  sort l = e :: r ->
  In e l /\ forall y, In y l -> joined e <= joined y.
Proof.
  revert e r. induction l as [|x l IH]; intros e r; cbn [sort].
  - discriminate.
  - destruct (sort l) as [|y0 r0] eqn:Hs.
    + cbn. intros [= <- <-].
      rewrite (sort_nil l Hs).
      split; [now left|]. intros y [<-|[]]. lia.
    + destruct (IH y0 r0 eq_refl) as [Hin Hmin].
      cbn [insert]. fold (joined x) (joined y0).
      destruct (joined x - joined y0 <=? 0) eqn:Hc.
      * intros [= <- <-]. apply Z.leb_le in Hc.
        split; [now left|]. intros y [<-|Hy]; [lia|].
        specialize (Hmin y Hy). lia.
      * intros [= <- <-]. apply Z.leb_gt in Hc.
        split; [now right|]. intros y [<-|Hy]; [lia|]. exact (Hmin y Hy).
Qed.

Lemma onlineEntries_In (e : string * User) (m : Users) :
  In e (onlineEntries m) <-> In e m /\ isOnline (snd e) = true.
Proof. unfold onlineEntries. apply filter_In. Qed.

Lemma electHost_some (m : Users) (h : string) :
  electHost m = Some h ->
  exists e, fst e = h /\ In e m /\ isOnline (snd e) = true
            /\ forall y, In y m -> isOnline (snd y) = true ->
                         joined e <= joined y.
Proof.
  unfold electHost. destruct (sort (onlineEntries m)) as [|e r] eqn:Hs;
    [discriminate|].
  intros [= <-]. destruct (sort_head _ _ _ Hs) as [Hin Hmin].
  apply onlineEntries_In in Hin. exists e. repeat split; try tauto.
  intros y Hy Hon. apply Hmin. apply onlineEntries_In. tauto.
Qed.

Lemma electHost_none (m : Users) :
  electHost m = None <-> forall e, In e m -> isOnline (snd e) = false.
Proof.
  unfold electHost. split.
  - destruct (sort (onlineEntries m)) as [|e r] eqn:Hs; [|discriminate].
    intros _ e He. destruct (isOnline (snd e)) eqn:Hon; [|reflexivity].
    apply sort_nil in Hs.
    assert (Hin : In e (onlineEntries m)) by (apply onlineEntries_In; tauto).
    rewrite Hs in Hin. destruct Hin.
  - intros Hoff. destruct (sort (onlineEntries m)) as [|e r] eqn:Hs;
      [reflexivity|].
    destruct (sort_head _ _ _ Hs) as [Hin _].
    apply onlineEntries_In in Hin. rewrite (Hoff e) in Hin; [|tauto].
    destruct Hin; discriminate.
Qed.

Lemma option_string_eqb_eq (a b : option string) :
  option_string_eqb a b = true <-> a = b.
Proof.
  destruct a as [x|], b as [y|]; cbn; try (split; congruence).
  rewrite String.eqb_eq. split; congruence.
Qed.

Lemma updateHost_hostId (now : Z) (pm : PresenceManager) :
  hostId (fst (updateHost now pm)) = electHost (users pm).
Proof.
  unfold updateHost.
  destruct (option_string_eqb (electHost (users pm)) (hostId pm)) eqn:E; cbn.
  - apply option_string_eqb_eq in E. congruence.
  - reflexivity.
Qed.

Lemma joined_injective (l : Users) (a b : string * User) :
  NoDup (map joined l) -> In a l -> In b l -> joined a = joined b -> a = b.
Proof.
  induction l as [|x l IH]; cbn; [tauto|].
  intros Hnd Ha Hb Hab. inversion Hnd as [|k ks Hnotin Hnd']; subst.
  destruct Ha as [<-|Ha], Hb as [<-|Hb]; try reflexivity.
  - exfalso. apply Hnotin. rewrite Hab. apply in_map. exact Hb.
  - exfalso. apply Hnotin. rewrite <- Hab. apply in_map. exact Ha.
  - apply IH; assumption.
Qed.

(** The entry elected from [m] when the online entries have distinct
    [joinedAt]. *)
Lemma electHost_least (m : Users) (e : string * User) :
  NoDup (map joined (onlineEntries m)) ->
  In e m -> isOnline (snd e) = true ->
  (forall y, In y m -> isOnline (snd y) = true -> joined e <= joined y) ->
  electHost m = Some (fst e).
Proof.
  intros Hnd He Hon Hmin.
  destruct (electHost m) as [h|] eqn:Hel.
  - destruct (electHost_some m h Hel) as (e' & <- & He' & Hon' & Hmin').
    f_equal. f_equal.
    apply (joined_injective (onlineEntries m)); try assumption.
    + apply onlineEntries_In. tauto.
    + apply onlineEntries_In. tauto.
    + specialize (Hmin e' He' Hon'). specialize (Hmin' e He Hon). lia.
  - rewrite electHost_none in Hel. rewrite (Hel e He) in Hon. discriminate.
Qed.

Lemma map_set_fresh (k : string) (v : User) (m : Users) :
  ~ In k (map fst m) -> map_set k v m = m ++ [(k, v)].
Proof.
  induction m as [|[k' v'] m IH]; cbn; [reflexivity|].
  intros Hfresh. destruct (String.eqb_spec k k') as [->|Hne].
  - exfalso. apply Hfresh. now left.
  - rewrite IH; [reflexivity|]. intros Hin. apply Hfresh. now right.
Qed.

Lemma kept_keys (now : Z) (entry : string * option UserData) (k : string) :
  In k (map fst (kept now entry)) -> k = fst entry.
Proof.
  destruct entry as [uid [u|]]; cbn; [|tauto].
  destruct (_ <? timeoutMs); cbn; intuition.
Qed.

Lemma addEntry_fresh (now : Z) (m : Users) (entry : string * option UserData) :
  ~ In (fst entry) (map fst m) -> addEntry now m entry = m ++ kept now entry.
Proof.
  destruct entry as [uid [u|]]; cbn [addEntry kept fst].
  - intros Hfresh. destruct (_ <? timeoutMs).
    + apply map_set_fresh. exact Hfresh.
    + symmetry. apply app_nil_r.
  - intros _. symmetry. apply app_nil_r.
Qed.

(** With the distinct keys of a snapshot object, the loop appends what it
    keeps of each entry. *)
Lemma fold_addEntry (now : Z) (entries : list (string * option UserData)) :
  forall acc : Users,
    NoDup (map fst entries) ->
    (forall k, In k (map fst acc) -> ~ In k (map fst entries)) ->
    fold_left (addEntry now) entries acc = acc ++ flat_map (kept now) entries.
Proof.
  induction entries as [|entry entries IH]; intros acc Hnd Hdisj; cbn.
  - symmetry. apply app_nil_r.
  - inversion Hnd as [|k ks Hnotin Hnd']; subst.
    rewrite addEntry_fresh.
    + rewrite IH; [now rewrite <- app_assoc | exact Hnd' |].
      intros k Hk Hin. rewrite map_app, in_app_iff in Hk.
      destruct Hk as [Hk|Hk].
      * apply (Hdisj k Hk). now right.
      * apply kept_keys in Hk. subst k. exact (Hnotin Hin).
    + intros Hin. apply (Hdisj _ Hin). now left.
Qed.

Lemma unique_key {A} (l : list (string * A)) (k : string) (a b : A) :
  NoDup (map fst l) -> In (k, a) l -> In (k, b) l -> a = b.
Proof.
  induction l as [|x l IH]; cbn; [tauto|].
  intros Hnd Ha Hb. inversion Hnd as [|k' ks Hnotin Hnd']; subst.
  destruct Ha as [->|Ha], Hb as [Hx|Hb].
  - congruence.
  - exfalso. apply Hnotin. apply (in_map fst) in Hb. exact Hb.
  - exfalso. apply Hnotin. subst x. apply (in_map fst) in Ha. exact Ha.
  - apply IH; assumption.
Qed.

Lemma users_after_snapshot (entries : list _) (now now' : Z)
                           (pm : PresenceManager) :
  NoDup (map fst entries) ->
  users (fst (updatePresence (Some entries) now now' pm))
  = flat_map (kept now) entries.
Proof.
  intros Hnd. unfold updatePresence.
  destruct (updateHost now' _) as [pm2 effs] eqn:Hup. cbn [fst].
  assert (Husers : users pm2 = users (fst (updateHost now' (set_users
            (fold_left (addEntry now) entries []) (set_users [] pm)))))
    by (rewrite Hup; reflexivity).
  rewrite Husers. unfold updateHost.
  destruct (negb _); cbn; apply (fold_addEntry now entries []); try exact Hnd;
    intros k [].
Qed.

(** The host held after a snapshot is the one elected from the entries the
    loop keeps. *)
Lemma host_after_snapshot_is_elected (entries : list _) (now now' : Z)
                                     (pm : PresenceManager) :
  NoDup (map fst entries) ->
  hostId (fst (updatePresence (Some entries) now now' pm))
  = electHost (flat_map (kept now) entries).
Proof.
  intros Hnd.
  rewrite <- (users_after_snapshot entries now now' pm Hnd).
  unfold updatePresence.
  destruct (updateHost now' _) as [pm2 effs] eqn:Hup. cbn [fst].
  pose proof (updateHost_hostId now' (set_users
    (fold_left (addEntry now) entries []) (set_users [] pm))) as Hh.
  rewrite Hup in Hh. cbn [fst] in Hh. rewrite Hh. f_equal.
  replace pm2 with (fst (updateHost now' (set_users
    (fold_left (addEntry now) entries []) (set_users [] pm))))
    by (rewrite Hup; reflexivity).
  unfold updateHost. destruct (negb _); reflexivity.
Qed.

Lemma kept_entry (now : Z) (entries : list (string * option UserData))
                 (e : string * User) :
  In e (flat_map (kept now) entries) <->
  In (fst e, Some (userData (snd e))) entries
  /\ now - lastSeenOf (userData (snd e)) now < 60000
  /\ isOnline (snd e) = (now - lastSeenOf (userData (snd e)) now <? 35000).
Proof.
  rewrite in_flat_map. split.
  - intros ([uid [u|]] & Hin & Hk); cbn in Hk; [|tauto].
    destruct (_ <? timeoutMs) eqn:Halive; [|destruct Hk].
    destruct Hk as [<-|[]]. cbn. apply Z.ltb_lt in Halive.
    unfold timeoutMs in Halive. auto.
  - intros (Hin & Halive & Hon). eexists. split; [exact Hin|].
    cbn. apply Z.ltb_lt in Halive. unfold timeoutMs. rewrite Halive.
    left. destruct e as [uid [u on]]. cbn in *. subst on. reflexivity.
Qed.

(** C5, as stated, fails on an entry whose [lastSeen] is 0 (or missing):
    [now - lastSeen] puts Zoe far outside the 35 s window, which leaves Bea
    as the only entry in it; but the code measures Zoe from her [joinedAt],
    finds her online, and elects her, who joined before Bea. *)
Lemma host_outside_the_window_is_elected :
  let now := 1700000100000 in
  let result := updatePresence (Some Examples.falsy_snapshot) now now
                  (Examples.presence [] None) in
  In ("user_z", Some (mkUserData "Zoe" 1700000070000 (Some 0)))
     Examples.falsy_snapshot
  /\ 35000 <= now - 0
  /\ In ("user_b", Some (mkUserData "Bea" 1700000080000 (Some 1700000099000)))
        Examples.falsy_snapshot
  /\ now - 1700000099000 < 35000
  /\ hostId (fst result) = Some "user_z".
Proof.
  cbv zeta. split; [right; left; reflexivity|]. split; [lia|].
  split; [left; reflexivity|]. split; [lia|]. reflexivity.
Qed.

(** C5 (amended): let an entry be in the online window when [now] minus
    its effective last-seen time, [lastSeen || joinedAt || now], is below
    35000.  For a snapshot whose entries have pairwise distinct [joinedAt],
    [updatePresence] leaves in [hostId] the user id of the entry with the
    least [joinedAt] among those in the window, whatever the order of the
    entries in the snapshot and whatever was held before. *)
Theorem host_election_deterministic
    (entries : list (string * option UserData)) (now now' : Z)
    (pm : PresenceManager) (uid : string) (u : UserData) :
  NoDup (map fst entries) ->
  (forall k1 u1 k2 u2,
     In (k1, Some u1) entries -> In (k2, Some u2) entries ->
     joinedAt u1 = joinedAt u2 -> k1 = k2) ->
  In (uid, Some u) entries ->
  now - lastSeenOf u now < 35000 ->
  (forall k' u', In (k', Some u') entries ->
                 now - lastSeenOf u' now < 35000 ->
                 joinedAt u <= joinedAt u') ->
  hostId (fst (updatePresence (Some entries) now now' pm)) = Some uid
  /\ (forall entries' pm' now'',
        Permutation entries entries' ->
        hostId (fst (updatePresence (Some entries') now now'' pm'))
        = Some uid).
Proof.
  assert (Hmain : forall es pm0 n',
            NoDup (map fst es) ->
            (forall k1 u1 k2 u2,
               In (k1, Some u1) es -> In (k2, Some u2) es ->
               joinedAt u1 = joinedAt u2 -> k1 = k2) ->
            In (uid, Some u) es ->
            now - lastSeenOf u now < 35000 ->
            (forall k' u', In (k', Some u') es ->
                           now - lastSeenOf u' now < 35000 ->
                           joinedAt u <= joinedAt u') ->
            hostId (fst (updatePresence (Some es) now n' pm0)) = Some uid).
  { intros es pm0 n' Hnd Hdistinct Hin Hwindow Hleast.
    rewrite host_after_snapshot_is_elected by exact Hnd.
    assert (He : In (uid, mkUser u true) (flat_map (kept now) es)).
    { apply kept_entry. cbn. split; [exact Hin|]. split; [lia|].
      symmetry. apply Z.ltb_lt. exact Hwindow. }
    destruct (electHost (flat_map (kept now) es)) as [h|] eqn:Hel.
    - destruct (electHost_some _ h Hel) as (e' & <- & He' & Hon' & Hmin').
      f_equal. apply kept_entry in He'. destruct He' as (Hin' & _ & Hflag).
      rewrite Hon' in Hflag. symmetry in Hflag. apply Z.ltb_lt in Hflag.
      apply (Hdistinct _ _ _ _ Hin' Hin).
      specialize (Hmin' _ He eq_refl). unfold joined in Hmin'. cbn in Hmin'.
      specialize (Hleast _ _ Hin' Hflag). lia.
    - rewrite electHost_none in Hel. specialize (Hel _ He). discriminate. }
  intros Hnd Hdistinct Hin Hwindow Hleast. split.
  - apply Hmain; assumption.
  - intros entries' pm' now'' Hperm.
    assert (Hsame : forall x, In x entries' -> In x entries).
    { intros x. apply Permutation_in. apply Permutation_sym. exact Hperm. }
    apply Hmain; try assumption.
    + apply (Permutation_NoDup (l := map fst entries)); [|exact Hnd].
      apply Permutation_map. exact Hperm.
    + intros k1 u1 k2 u2 H1 H2. apply Hdistinct; apply Hsame; assumption.
    + apply (Permutation_in _ Hperm). exact Hin.
    + intros k' u' H' Hw. apply (Hleast k' u'); [apply Hsame; exact H'|exact Hw].
Qed.

(** The sample snapshot: Ann was last seen 70 s before, so Bea, the only
    entry in the window, is elected. *)
Lemma host_election_deterministic_witness :
  hostId (fst (updatePresence (Some Examples.snapshot) 1700000100000
                 1700000100000 (Examples.presence [] None)))
  = Some "user_b".
Proof.
  refine (proj1 (host_election_deterministic Examples.snapshot 1700000100000
                   1700000100000 (Examples.presence [] None) "user_b"
                   (mkUserData "Bea" 1700000050000 (Some 1700000099000))
                   _ _ _ _ _)).
  - cbn. repeat constructor; cbn; intuition discriminate.
  - intros k1 u1 k2 u2 [H1|[H1|[]]] [H2|[H2|[]]];
      injection H1 as <- <-; injection H2 as <- <-; cbn;
      intros H; congruence.
  - right. left. reflexivity.
  - vm_compute. reflexivity.
  - intros k' u' [H|[H|[]]]; injection H as <- <-; vm_compute; congruence.
Defined.

Lemma count_kept (now : Z) (entries : list (string * option UserData)) :
  List.length (filter isOnline (map snd (flat_map (kept now) entries)))
  = List.length (filter (counted now) entries).
Proof.
  induction entries as [|[uid [u|]] entries IH]; cbn; [reflexivity| |exact IH].
  unfold counted at 1. cbn [snd]. unfold timeoutMs.
  destruct (now - lastSeenOf u now <? 35000) eqn:Hon.
  - assert ((now - lastSeenOf u now <? 60000) = true) as ->
      by (apply Z.ltb_lt; apply Z.ltb_lt in Hon; lia).
    cbn. now rewrite IH.
  - destruct (_ <? 60000); cbn; rewrite ?Hon; exact IH.
Qed.

(** C6, as stated, fails on an entry whose [lastSeen] is 0: the value is
    falsy, [joinedAt] is used in its place, and the entry is kept, online
    and elected although [now - lastSeen] is far beyond 60000. *)
Lemma zero_lastSeen_is_kept :
  let result := updatePresence (Some Examples.zero_snapshot) 1700000100000
                  1700000100000 (Examples.presence [] None) in
  60000 <= 1700000100000 - 0
  /\ users (fst result)
     = [("user_z", mkUser (mkUserData "Zoe" 1700000099000 (Some 0)) true)]
  /\ hostId (fst result) = Some "user_z"
  /\ In (ViewersCount 1) (snd result).
Proof.
  cbv zeta. split; [lia|]. split; [reflexivity|]. split; [reflexivity|].
  cbn. right. right. left. reflexivity.
Qed.

(** C6 (amended): let the age of an entry be [now] minus its [lastSeen], or
    minus its [joinedAt] when [lastSeen] is missing or zero, or [0] when
    both are.  After [updatePresence] on a snapshot, an entry of age 60000
    or more is absent from the user map and is not the elected host; an
    entry of age below 60000 is in the map with [isOnline] set exactly when
    its age is below 35000; and the viewer count shown is the number of
    entries of age below 35000. *)
Theorem stale_entries_dropped (entries : list (string * option UserData))
    (now now' : Z) (pm : PresenceManager) (uid : string) (u : UserData) :
  NoDup (map fst entries) ->
  In (uid, Some u) entries ->
  let age := now - lastSeenOf u now in
  let result := updatePresence (Some entries) now now' pm in
  (60000 <= age ->
   ~ In uid (map fst (users (fst result)))
   /\ hostId (fst result) <> Some uid)
  /\ (age < 60000 ->
      In (uid, mkUser u (age <? 35000)) (users (fst result)))
  /\ exists effs,
       snd result
       = effs ++ [ViewersCount (List.length (filter (counted now) entries))].
Proof.
  intros Hnd Hin age result.
  pose proof (users_after_snapshot entries now now' pm Hnd) as Husers.
  fold result in Husers.
  assert (Hdropped : 60000 <= age -> ~ In uid (map fst (users (fst result)))).
  { intros Hage Hkey. rewrite Husers in Hkey.
    apply in_map_iff in Hkey. destruct Hkey as ([k v] & Hk & Hkv).
    cbn in Hk. subst k. apply in_flat_map in Hkv.
    destruct Hkv as ([uid' [u'|]] & Hentry & Hkept); cbn in Hkept; [|tauto].
    destruct (_ <? timeoutMs) eqn:Halive; [|destruct Hkept].
    destruct Hkept as [Heq|[]]. injection Heq as -> _.
    pose proof (unique_key _ _ _ _ Hnd Hentry Hin) as Hu.
    injection Hu as ->. apply Z.ltb_lt in Halive. unfold timeoutMs in Halive.
    subst age. lia. }
  split; [|split].
  - intros Hage. split; [exact (Hdropped Hage)|].
    intros Hhost. apply (Hdropped Hage).
    assert (Hel : electHost (users (fst result)) = Some uid).
    { subst result. unfold updatePresence in Hhost |- *.
      destruct (updateHost now' _) as [pm2 effs] eqn:Hup.
      cbn [fst] in Hhost |- *.
      pose proof (updateHost_hostId now' (set_users
        (fold_left (addEntry now) entries []) (set_users [] pm))) as Hh.
      rewrite Hup in Hh. cbn [fst] in Hh. rewrite Hhost in Hh.
      assert (users pm2 = fold_left (addEntry now) entries []) as ->.
      { replace pm2 with (fst (updateHost now' (set_users
          (fold_left (addEntry now) entries []) (set_users [] pm))))
          by (rewrite Hup; reflexivity).
        unfold updateHost. destruct (negb _); reflexivity. }
      symmetry. exact Hh. }
    destruct (electHost_some _ _ Hel) as (e & <- & He & _).
    apply in_map. exact He.
  - intros Hage. rewrite Husers. apply in_flat_map.
    exists (uid, Some u). split; [exact Hin|]. cbn. fold age.
    assert ((age <? timeoutMs) = true) as -> by (apply Z.ltb_lt; exact Hage).
    now left.
  - subst result. unfold updatePresence.
    destruct (updateHost now' _) as [pm2 effs] eqn:Hup. cbn [snd].
    exists effs. unfold updateUI, getOnlineUsers.
    assert (users pm2 = flat_map (kept now) entries) as ->.
    { rewrite <- Husers. unfold updatePresence. rewrite Hup. reflexivity. }
    rewrite count_kept. reflexivity.
Qed.

(** The sample snapshot: the entry last seen 70 s before is gone. *)
Lemma stale_entries_dropped_witness :
  ~ In "user_a"
       (map fst (users (fst (updatePresence (Some Examples.snapshot)
                               1700000100000 1700000100000
                               (Examples.presence [] None))))).
Proof.
  refine (proj1 (proj1 (stale_entries_dropped Examples.snapshot 1700000100000
                          1700000100000 (Examples.presence [] None) "user_a"
                          (mkUserData "Ann" 1700000000000 (Some 1700000030000))
                          _ _) _)).
  - cbn. repeat constructor; cbn; intuition discriminate.
  - left. reflexivity.
  - vm_compute. discriminate.
Defined.

(** C10: when no entry of the user map is online, [updateHost] leaves
    [hostId] at [null]; if another host was held, it writes [hostId: null]
    with the current time as [updatedAt] to the room state and calls the
    registered host-change callback with [(null, previousHostId)]; if
    [null] was held already it does nothing. *)
Theorem no_online_user_elects_null (pm : PresenceManager) (now : Z)
    (remote : Store.StoredState) :
  (forall e, In e (users pm) -> isOnline (snd e) = false) ->
  hostId (fst (updateHost now pm)) = None
  /\ (hostId pm <> None ->
      snd (updateHost now pm)
      = StoreUpdate (Store.UpdateHost None now)
        :: (if onHostChangeCallback pm then [HostChange None (hostId pm)]
            else [])
      /\ Store.s_hostId (replay (snd (updateHost now pm)) remote) = None
      /\ Store.s_updatedAt (replay (snd (updateHost now pm)) remote)
         = Some now)
  /\ (hostId pm = None -> updateHost now pm = (pm, [])).
Proof.
  intros Hoff. apply electHost_none in Hoff.
  split; [rewrite updateHost_hostId; exact Hoff|].
  unfold updateHost. rewrite Hoff. split.
  - intros Hheld. destruct (hostId pm) as [h|] eqn:Hh; [|congruence].
    cbn. destruct (onHostChangeCallback pm); cbn; repeat split.
  - intros Hnone. rewrite Hnone. reflexivity.
Qed.

(** The last online user has gone quiet while holding the host role. *)
Lemma no_online_user_elects_null_witness :
  hostId (fst (updateHost 1700000100000
                 (Examples.presence Examples.offline_users (Some "user_a"))))
  = None.
Proof.
  refine (proj1 (no_online_user_elects_null
                   (Examples.presence Examples.offline_users (Some "user_a"))
                   1700000100000 Examples.empty_store _)).
  intros e [<-|[]]. reflexivity.
Defined.

End PresenceFacts.

(* ------------------------------------------------------------------ *)
(** * Numbers, and calls that are not awaited *)

Module NumberFacts.

Local Open Scope list_scope.
Local Open Scope Q_scope.

(** [Js.double] gives what binary64 division gives, on quotients that fall
    on, between and halfway between doubles, in the normal and in the
    subnormal range. *)
Lemma double_is_binary64 :
  forallb (fun x => Qeq_bool (Js.double x)
                             (Js.binary64_quotient (Qnum x) (Qden x)))
    [4 # 10; 996 # 10; 1015 # 10; 103; 1 # 3; 2 # 3; -1 # 3; 1 # 10; 3 # 10;
     7 # 1000; 22 # 7; 355 # 113; 5 # 8; 123456789 # 1000;
     9007199254740993 # 9007199254740992; 9007199254740995 # 9007199254740992;
     4503599627370497 # 9007199254740992; 1 # 8388609;
     6004799503160661 # 18014398509481984;
     1 # 67413492557336846539848944654588427510674136710336496477536280434149753427062861174765678995902826007920042704951772509122046163305406233434817786489802796641662960034324556978613332350467285294794906107031877163314306505878423580552717416452810213936256441506719861839980217226929893614313258623609084051456;
     7 # 112355820928894744233081574424314045851123561183894160795893800723582922378438101957942798326504710013200071174919620848536743605509010389058029644149671327736104933390540928297688887250778808824658176845053128605523844176464039300921195694088017023227094069177866436399967028711549822690522097706015140085760]
  = true.
Proof. vm_compute. reflexivity. Qed.

(** 0.4 as a number is a little more than four tenths; the difference of
    100 and 99.6 as numbers is more than that. *)
Lemma four_tenths :
  Js.double (4 # 10) = 3602879701896397 # 9007199254740992
  /\ 4 # 10 < Js.double (4 # 10)
  /\ Js.gt (Qabs (Js.sub 100 (996 # 10))) (4 # 10) = true.
Proof. vm_compute. repeat split. Qed.

End NumberFacts.

Module AsyncFacts.

Import Video.

(** The two halves of [play()], [pause()] and [seek(time)] add up to the
    method: when its promise resolves, finishing what the call started
    gives the adapter and the notifications of the whole. *)
Lemma halves_make_the_method (vp vp' : VideoPlayer) (evs : list Event)
    (time : Q) :
  (play vp = Resolved vp' evs -> finish_play (start_play vp) = (vp', evs))
  /\ (pause vp = Resolved vp' evs ->
      finish_pause (start_pause vp) = (vp', evs))
  /\ (seek time vp = Resolved vp' evs ->
      finish_seek time (start_seek time vp) = (vp', evs)).
Proof.
  destruct vp as [[b|] [[]|] [] ct du pg mu vo]; cbn;
    repeat split; intros H; try discriminate H;
    injection H as <- <-; reflexivity.
Qed.

(** A call that its promise will reject has changed nothing when it
    returns. *)
Lemma rejected_call_changes_nothing (vp : VideoPlayer) (time : Q) :
  (play vp = Rejected -> start_play vp = vp)
  /\ (pause vp = Rejected -> start_pause vp = vp)
  /\ (seek time vp = Rejected -> start_seek time vp = vp).
Proof.
  destruct vp as [[b|] [[]|] [] ct du pg mu vo]; cbn;
    repeat split; intros H; try discriminate H; reflexivity.
Qed.

End AsyncFacts.

(* ------------------------------------------------------------------ *)
(** * The rate limiter *)

Module LimiterFacts.

Import App.
Local Open Scope list_scope.
Local Open Scope Z_scope.

(** The remembered calls that are less than [w] old at time [now]. *)
Local Abbreviation recent now w hist :=
  (filter (fun call => now - call <? w) hist).

Lemma recent_later (w last now : Z) (hist : list Z) :
  last <= now -> recent now w (recent last w hist) = recent now w hist.
Proof.
  intros Hle. induction hist as [|t hist IH]; cbn; [reflexivity|].
  destruct (last - t <? w) eqn:Hl; cbn.
  - rewrite IH. reflexivity.
  - assert (Hn : (now - t <? w) = false)
      by (apply Z.ltb_ge; apply Z.ltb_ge in Hl; lia).
    rewrite Hn. exact IH.
Qed.

Lemma last_cons (l : list Z) :
  forall a d : Z, List.last (a :: l) d = List.last l a.
Proof.
  induction l as [|b l IH]; intros a d; [reflexivity|].
  change (List.last (b :: l) d = List.last (b :: l) a).
  rewrite !IH. reflexivity.
Qed.

Lemma canMakeCall_fields (now : Z) (rl : RateLimiter) :
  maxCalls (snd (canMakeCall now rl)) = maxCalls rl
  /\ timeWindow (snd (canMakeCall now rl)) = timeWindow rl.
Proof. unfold canMakeCall. destruct (_ <? maxCalls rl); split; reflexivity. Qed.

(** One request against a limiter that remembers the admitted calls still
    in the window. *)
Lemma canMakeCall_history (now last : Z) (rl : RateLimiter) (hist : list Z) :
  0 < timeWindow rl -> last <= now ->
  calls rl = recent last (timeWindow rl) hist ->
  let w := timeWindow rl in
  let ok := Z.of_nat (List.length (recent now w hist)) <? maxCalls rl in
  fst (canMakeCall now rl) = ok
  /\ calls (snd (canMakeCall now rl))
     = recent now w (hist ++ if ok then [now] else []).
Proof.
  intros Hw Hle Hcalls w ok. unfold canMakeCall. rewrite Hcalls.
  rewrite (recent_later _ _ _ _ Hle). fold w. fold ok.
  destruct ok; cbn [fst snd calls].
  - split; [reflexivity|]. rewrite filter_app. cbn.
    assert (Hnow : (now - now <? w) = true) by (apply Z.ltb_lt; lia).
    rewrite Hnow. reflexivity.
  - split; [reflexivity|]. rewrite app_nil_r. reflexivity.
Qed.

Lemma admitted_history (times : list Z) :
  forall (rl : RateLimiter) (hist0 : list Z) (last : Z),
    0 < timeWindow rl -> ascending last times ->
    calls rl = recent last (timeWindow rl) hist0 ->
    calls (snd (admitted times rl))
    = recent (List.last times last) (timeWindow rl)
             (hist0 ++ fst (admitted times rl))
    /\ maxCalls (snd (admitted times rl)) = maxCalls rl
    /\ timeWindow (snd (admitted times rl)) = timeWindow rl.
Proof.
  induction times as [|now rest IH]; intros rl hist0 last Hw Hasc Hcalls.
  - cbn. rewrite app_nil_r. auto.
  - cbn [admitted]. destruct Hasc as [Hle Hasc].
    destruct (canMakeCall_history now last rl hist0 Hw Hle Hcalls)
      as [Hok Hnext].
    destruct (canMakeCall_fields now rl) as [Hmax Hwin].
    destruct (canMakeCall now rl) as [ok rl1] eqn:Hstep.
    cbn [fst snd] in Hok, Hnext, Hmax, Hwin.
    assert (Hw1 : 0 < timeWindow rl1) by (rewrite Hwin; exact Hw).
    rewrite <- Hok in Hnext. rewrite <- Hwin in Hnext.
    specialize (IH rl1 _ now Hw1 Hasc Hnext).
    destruct (admitted rest rl1) as [later rl2] eqn:Hrest.
    cbn [fst snd] in IH |- *. destruct IH as (Hc & Hm & Ht).
    rewrite last_cons, Hc, Hm, Ht, Hmax, Hwin.
    repeat split. f_equal. rewrite <- app_assoc. destruct ok; reflexivity.
Qed.

(** X1: after any series of requests at times that never run backwards, a
    request is admitted exactly when fewer than [maxCalls] of the requests
    admitted before it are less than [timeWindow] old. *)
Theorem limiter_counts_admitted_calls (m w : Z) (times : list Z) (first now : Z) :
  0 < w ->
  ascending first (times ++ [now]) ->
  fst (canMakeCall now (snd (admitted times (newRateLimiter m w))))
  = (Z.of_nat (List.length
       (filter (fun call => now - call <? w)
               (fst (admitted times (newRateLimiter m w))))) <? m).
Proof.
  intros Hw Hasc.
  assert (Hsplit : ascending first times /\ List.last times first <= now).
  { clear - Hasc. revert first Hasc.
    induction times as [|t rest IH]; intros first; cbn [app ascending].
    - cbn. tauto.
    - intros [Hle Hrest]. destruct (IH t Hrest) as [Ha Hl].
      split; [tauto|]. rewrite last_cons. exact Hl. }
  destruct Hsplit as [Htimes Hlast].
  destruct (admitted_history times (newRateLimiter m w) [] first Hw Htimes
              eq_refl) as (Hcalls & Hmax & Hwin).
  cbn [newRateLimiter maxCalls timeWindow app] in Hcalls, Hmax, Hwin.
  set (rl := snd (admitted times (newRateLimiter m w))) in *.
  assert (Hw' : 0 < timeWindow rl) by (rewrite Hwin; exact Hw).
  rewrite <- Hwin in Hcalls.
  destruct (canMakeCall_history now _ rl _ Hw' Hlast Hcalls) as [Hok _].
  rewrite Hok, Hwin, Hmax. reflexivity.
Qed.

(** The chat limiter after a message at 1000 and attempts at 1500 and
    1800. *)
Lemma limiter_counts_admitted_calls_witness :
  fst (canMakeCall 1900
         (snd (admitted [1000; 1500; 1800] (newRateLimiter 1 800))))
  = false.
Proof.
  rewrite (limiter_counts_admitted_calls 1 800 [1000; 1500; 1800] 0 1900).
  - reflexivity.
  - lia.
  - cbn. lia.
Defined.

Lemma fold_min_spec (r : list Z) :
  forall x : Z,
    In (fold_left Z.min r x) (x :: r)
    /\ forall t, In t (x :: r) -> fold_left Z.min r x <= t.
Proof.
  induction r as [|y r IH]; intros x; cbn [fold_left].
  - split; [now left|]. intros t [<-|[]]. lia.
  - destruct (IH (Z.min x y)) as [Hin Hle]. split.
    + destruct Hin as [Heq|Hin]; [|right; right; exact Hin].
      rewrite <- Heq. destruct (Z.min_spec x y) as [[_ ->]|[_ ->]];
        [left|right; left]; reflexivity.
    + intros t [<-|[<-|Ht]].
      * specialize (Hle (Z.min x y) (or_introl eq_refl)). lia.
      * specialize (Hle (Z.min x y) (or_introl eq_refl)). lia.
      * apply Hle. right. exact Ht.
Qed.

Lemma min_of_nonempty (l : list Z) :
  l <> [] ->
  exists oldest,
    Math_min_of l = Some oldest
    /\ In oldest l /\ forall t, In t l -> oldest <= t.
Proof.
  destruct l as [|x r]; [congruence|]. intros _.
  exists (fold_left Z.min r x). split; [reflexivity|]. apply fold_min_spec.
Qed.

Lemma filter_all {A} (f : A -> bool) (l : list A) :
  (forall x, In x l -> f x = true) -> filter f l = l.
Proof.
  induction l as [|a l IH]; cbn; [reflexivity|]. intros H.
  rewrite (H a (or_introl eq_refl)), IH; [reflexivity|].
  intros x Hx. apply H. right. exact Hx.
Qed.

Lemma filter_drops {A} (f : A -> bool) (l : list A) (x : A) :
  In x l -> f x = false -> (List.length (filter f l) < List.length l)%nat.
Proof.
  induction l as [|a l IH]; cbn; [tauto|].
  pose proof (filter_length_le f l) as Hle.
  intros [->|Hx] Hf.
  - rewrite Hf. lia.
  - specialize (IH Hx Hf). destruct (f a); cbn; lia.
Qed.

(** X2: when a limiter that allows at least one call and holds no more
    than [maxCalls] calls, none of them in the future, refuses a request,
    [getTimeUntilNextCall] answers a wait that is positive and at most
    [timeWindow]; every request before the wait is over is refused again
    and the request made exactly when it is over is admitted. *)
Theorem wait_is_exact (now : Z) (rl : RateLimiter) :
  1 <= maxCalls rl ->
  Z.of_nat (List.length (calls rl)) <= maxCalls rl ->
  (forall call, In call (calls rl) -> call <= now) ->
  fst (canMakeCall now rl) = false ->
  exists wait,
    getTimeUntilNextCall now (snd (canMakeCall now rl)) = Some wait
    /\ 0 < wait <= timeWindow rl
    /\ (forall d, 0 <= d < wait ->
         fst (canMakeCall (now + d) (snd (canMakeCall now rl))) = false)
    /\ fst (canMakeCall (now + wait) (snd (canMakeCall now rl))) = true.
Proof.
  intros Hmax Hlen Hpast. unfold canMakeCall at 1 2 4 6.
  set (kept := filter (fun call => now - call <? timeWindow rl) (calls rl)).
  pose proof (filter_length_le (fun call => now - call <? timeWindow rl)
                               (calls rl)) as Hkept. fold kept in Hkept.
  destruct (Z.of_nat (List.length kept) <? maxCalls rl) eqn:Hfull;
    cbn [fst snd]; [discriminate|]. intros _.
  apply Z.ltb_ge in Hfull.
  assert (Hsize : Z.of_nat (List.length kept) = maxCalls rl) by lia.
  unfold getTimeUntilNextCall, canMakeCall. cbn [calls maxCalls timeWindow].
  assert (Hnot : (Z.of_nat (List.length kept) <? maxCalls rl) = false)
    by (apply Z.ltb_ge; lia).
  rewrite Hnot.
  destruct (min_of_nonempty kept) as (oldest & Hmin & Hin & Hleast).
  { intros Hnil. rewrite Hnil in Hsize. cbn in Hsize. lia. }
  rewrite Hmin. cbn [option_map].
  assert (Hold : In oldest (calls rl) /\ now - oldest < timeWindow rl).
  { unfold kept in Hin. apply filter_In in Hin.
    split; [tauto|]. apply Z.ltb_lt. tauto. }
  destruct Hold as [Hcall Hfresh]. specialize (Hpast oldest Hcall).
  eexists. split; [reflexivity|]. split; [lia|]. split.
  - intros d Hd. rewrite filter_all.
    + rewrite Hnot. reflexivity.
    + intros c Hc. apply Z.ltb_lt. specialize (Hleast c Hc). lia.
  - assert (Hdrop : Nat.lt (List.length (filter (fun call =>
               now + (timeWindow rl - (now - oldest)) - call <? timeWindow rl)
               kept)) (List.length kept)).
    { apply (filter_drops _ kept oldest Hin). apply Z.ltb_ge. lia. }
    assert (Hok : (Z.of_nat (List.length (filter (fun call =>
               now + (timeWindow rl - (now - oldest)) - call <? timeWindow rl)
               kept)) <? maxCalls rl) = true) by (apply Z.ltb_lt; lia).
    rewrite Hok. reflexivity.
Qed.

(** The chat limiter asked again 300 ms after a message: wait 500 ms. *)
Lemma wait_is_exact_witness :
  exists wait,
    getTimeUntilNextCall 1300
      (snd (canMakeCall 1300 (mkRateLimiter 1 800 [1000]))) = Some wait
    /\ 0 < wait <= 800
    /\ (forall d, 0 <= d < wait ->
         fst (canMakeCall (1300 + d)
                (snd (canMakeCall 1300 (mkRateLimiter 1 800 [1000]))))
         = false)
    /\ fst (canMakeCall (1300 + wait)
              (snd (canMakeCall 1300 (mkRateLimiter 1 800 [1000]))))
       = true.
Proof.
  apply (wait_is_exact 1300 (mkRateLimiter 1 800 [1000])).
  - cbn. lia.
  - cbn. lia.
  - intros call [<-|[]]. lia.
  - reflexivity.
Defined.

End LimiterFacts.

(* ------------------------------------------------------------------ *)
(** * Chat messages *)

Module ChatFacts.

Import Chat.
Local Open Scope list_scope.
Local Open Scope Z_scope.

Section Trimming.

Context {A : Type} (p : A -> bool).

Lemma chop_head (c : A) (r : list A) :
  p c = false -> Js.chop p (c :: r) = c :: Js.chop p r.
Proof.
  intros Hc. cbn [Js.chop]. destruct (Js.chop p r); [|reflexivity].
  rewrite Hc. reflexivity.
Qed.

Lemma chop_idempotent (s : list A) : Js.chop p (Js.chop p s) = Js.chop p s.
Proof.
  induction s as [|c r IH]; [reflexivity|]. cbn [Js.chop].
  destruct (Js.chop p r) as [|d r'] eqn:Hr.
  - destruct (p c) eqn:Hc; [reflexivity|]. cbn. rewrite Hc. reflexivity.
  - cbn [Js.chop] in IH |- *. rewrite IH. reflexivity.
Qed.

Lemma skip_head (s : list A) :
  Js.skip p s = [] \/ exists c r, Js.skip p s = c :: r /\ p c = false.
Proof.
  induction s as [|c r IH]; [now left|]. cbn.
  destruct (p c) eqn:Hc; [exact IH|]. right. eauto.
Qed.

Lemma chop_length (s : list A) : (List.length (Js.chop p s) <= List.length s)%nat.
Proof.
  induction s as [|c r IH]; [reflexivity|]. cbn [Js.chop].
  destruct (Js.chop p r); [destruct (p c)|]; cbn in *; lia.
Qed.

Lemma skip_length (s : list A) : (List.length (Js.skip p s) <= List.length s)%nat.
Proof.
  induction s as [|c r IH]; [reflexivity|]. cbn.
  destruct (p c); cbn; lia.
Qed.

(** The last element that [chop] leaves does not satisfy [p]. *)
Lemma chop_last (s : list A) (d : A) :
  Js.chop p s <> [] -> p (List.last (Js.chop p s) d) = false.
Proof.
  induction s as [|c r IH]; [intros H; contradiction|]. cbn [Js.chop].
  destruct (Js.chop p r) as [|e r'] eqn:Hr.
  - destruct (p c) eqn:Hc; [intros H; contradiction|]. intros _. exact Hc.
  - intros _. change (List.last (c :: e :: r') d) with (List.last (e :: r') d).
    apply IH. discriminate.
Qed.

End Trimming.

(** Trimming trimmed text changes nothing. *)
Lemma trim16_idempotent (s : Js.text16) : Js.trim16 (Js.trim16 s) = Js.trim16 s.
Proof.
  unfold Js.trim16.
  destruct (skip_head Js.is_white16 s) as [->|(c & r & -> & Hc)];
    [reflexivity|].
  rewrite (chop_head _ _ _ Hc). cbn [Js.skip]. rewrite Hc.
  rewrite <- (chop_head _ _ _ Hc). apply chop_idempotent.
Qed.

(** Trimmed text neither starts nor ends with a code unit that [trim]
    strips. *)
Lemma trim16_ends (s : Js.text16) (c : N) (r : list N) :
  Js.trim16 s = c :: r ->
  Js.is_white16 c = false /\ Js.is_white16 (List.last (c :: r) c) = false.
Proof.
  unfold Js.trim16. intros H.
  destruct (skip_head Js.is_white16 s) as [E|(c' & r' & E & Hc)];
    rewrite E in H; [discriminate|].
  rewrite (chop_head _ _ _ Hc) in H. injection H as <- <-. split; [exact Hc|].
  rewrite <- (chop_head _ _ _ Hc).
  apply chop_last. rewrite (chop_head _ _ _ Hc). discriminate.
Qed.

(** X3: whatever text is given, in any script, a message that
    [sendMessage] pushes carries the trimmed text: it is not empty, has at
    most 500 UTF-16 code units, is unchanged by another [trim], and neither
    starts nor ends with white space or a line terminator; it is signed
    with the sender's id and name.  A text that is empty after trimming, or
    longer than 500 code units, pushes nothing and leaves the chat manager,
    its rate limiter included, as it was. *)
Theorem pushed_message_is_clean (text : Js.text16) (now now' : Z)
    (cm : ChatManager) :
  (forall m, In (Push m) (snd (sendMessage text now now' cm)) ->
     m_text m = Js.trim16 text
     /\ Js.trim16 (m_text m) = m_text m
     /\ (1 <= List.length (m_text m) <= 500)%nat
     /\ (exists c r, m_text m = c :: r /\ Js.is_white16 c = false
                     /\ Js.is_white16 (List.last (c :: r) c) = false)
     /\ m_userId m = userId cm /\ m_userName m = userName cm
     /\ m_timestamp m = now')
  /\ (Js.trim16 text = [] \/ (500 < List.length (Js.trim16 text))%nat ->
      fst (sendMessage text now now' cm) = cm
      /\ forall m, ~ In (Push m) (snd (sendMessage text now now' cm))).
Proof.
  unfold sendMessage. split.
  - intros m. destruct (Js.trim16 text) as [|c r] eqn:Htrim.
    { intros []. }
    destruct (500 <? List.length (c :: r))%nat eqn:Hlong.
    { cbn. intros [H|[]]. discriminate. }
    apply Nat.ltb_ge in Hlong.
    destruct (App.canMakeCall now (rateLimiter cm)) as [[|] limiter];
      cbn [negb snd In].
    + intros [H|[H|[]]]; [|discriminate]. injection H as <-.
      cbn [m_text m_userId m_userName m_timestamp].
      split; [reflexivity|]. split.
      { rewrite <- Htrim. apply trim16_idempotent. }
      split; [cbn in *; lia|]. split; [|auto].
      exists c, r. split; [reflexivity|]. exact (trim16_ends _ _ _ Htrim).
    + intros [H|[]]. discriminate.
  - intros [Hempty|Hlong].
    + rewrite Hempty. cbn. split; [reflexivity|]. intros m [].
    + destruct (Js.trim16 text) as [|c r]; [cbn in Hlong; lia|].
      apply Nat.ltb_lt in Hlong. rewrite Hlong.
      cbn. split; [reflexivity|]. intros m [H|[]]. discriminate.
Qed.

(** "hé" typed between a no-break space and a blank. *)
Lemma pushed_message_is_clean_witness :
  m_text (mkMessage "user_a" "Ann" [104; 233]%N 1000)
  = Js.trim16 [160; 104; 233; 32]%N.
Proof.
  refine (proj1 (proj1 (pushed_message_is_clean [160; 104; 233; 32]%N 1000
                          1000 (init "user_a" "Ann")) _ _)).
  left. reflexivity.
Defined.

(** X4: once [sendMessage] has pushed a message at time [t], a chat manager
    with the limiter of its constructor pushes nothing that is sent before
    [t + 800].  A well-formed text sent in that time only raises the
    warning toast; the seconds it asks to wait are computed from a second
    reading [t''] of the clock as [ceil ((800 - (t'' - t)) / 1000)]: 1
    while [t''] is before [t + 800], and 0 or less once the window has run
    out between the two readings. *)
Theorem second_message_is_throttled (cm : ChatManager)
    (text1 text2 : Js.text16) (t t1 t' t'' : Z) (m : Message) :
  App.maxCalls (rateLimiter cm) = 1 ->
  App.timeWindow (rateLimiter cm) = 800 ->
  In (Push m) (snd (sendMessage text1 t t1 cm)) ->
  t <= t' < t + 800 ->
  t' <= t'' ->
  let cm1 := fst (sendMessage text1 t t1 cm) in
  (forall m', ~ In (Push m') (snd (sendMessage text2 t' t'' cm1)))
  /\ (Js.trim16 text2 <> [] ->
      (List.length (Js.trim16 text2) <= 500)%nat ->
      snd (sendMessage text2 t' t'' cm1)
      = [ToastWait (Some (ceilSeconds (800 - (t'' - t))))]
      /\ (t'' < t + 800 -> ceilSeconds (800 - (t'' - t)) = 1)
      /\ (t + 800 <= t'' -> ceilSeconds (800 - (t'' - t)) <= 0)).
Proof.
  intros Hmax Hwin Hpushed [Hle1 Hsoon] Hle2 cm1.
  assert (Hcalls : App.calls (rateLimiter cm1) = [t]
                   /\ App.maxCalls (rateLimiter cm1) = 1
                   /\ App.timeWindow (rateLimiter cm1) = 800).
  { subst cm1. unfold sendMessage in Hpushed |- *.
    destruct (Js.trim16 text1); [destruct Hpushed|].
    destruct (500 <? List.length (n :: t0))%nat.
    { destruct Hpushed as [H|[]]. discriminate. }
    unfold App.canMakeCall in *. rewrite Hmax, Hwin in *.
    set (kept := filter (fun call => t - call <? 800)
                        (App.calls (rateLimiter cm))) in *.
    destruct (Z.of_nat (List.length kept) <? 1) eqn:Hfree; cbn [negb] in *.
    - apply Z.ltb_lt in Hfree. destruct kept; [|cbn in Hfree; lia].
      cbn. auto.
    - destruct Hpushed as [H|[]]. discriminate. }
  destruct Hcalls as (Hcalls & Hmax1 & Hwin1).
  assert (Hrefused : App.canMakeCall t' (rateLimiter cm1)
                     = (false, App.mkRateLimiter 1 800 [t])).
  { unfold App.canMakeCall. rewrite Hcalls, Hmax1, Hwin1. cbn [filter].
    assert (Hin : (t' - t <? 800) = true) by (apply Z.ltb_lt; lia).
    rewrite Hin. reflexivity. }
  assert (Hwait : option_map ceilSeconds
                    (App.getTimeUntilNextCall t'' (App.mkRateLimiter 1 800 [t]))
                  = Some (ceilSeconds (800 - (t'' - t)))).
  { unfold App.getTimeUntilNextCall, App.Math_min_of.
    cbn [App.calls App.maxCalls App.timeWindow List.length fold_left].
    change (Z.of_nat 1 <? 1) with false. reflexivity. }
  unfold sendMessage. rewrite Hrefused. cbn [negb]. rewrite Hwait.
  split.
  - intros m'. destruct (Js.trim16 text2); cbn [snd]; [intros []|].
    destruct (500 <? List.length (n :: t0))%nat; cbn;
      intros [H|[]]; discriminate.
  - intros Hnonempty Hshort.
    destruct (Js.trim16 text2) as [|c r]; [congruence|].
    apply Nat.ltb_ge in Hshort. rewrite Hshort.
    split; [reflexivity|]. unfold ceilSeconds. split.
    + intros Hin.
      assert (H : (- (800 - (t'' - t))) / 1000 = -1)
        by (symmetry; apply (Z.div_unique _ _ _ (1000 - (800 - (t'' - t)))); lia).
      rewrite H. reflexivity.
    + intros Hout.
      assert (0 <= (- (800 - (t'' - t))) / 1000)
        by (apply Z.div_pos; lia).
      lia.
Qed.

(** "again" typed half a second after " hello ": the toast asks to wait
    1 s. *)
Lemma second_message_is_throttled_witness :
  snd (sendMessage (Js.ascii16 "again") 1500 1500
         (fst (sendMessage (Js.ascii16 " hello ") 1000 1000
                 (init "user_a" "Ann"))))
  = [ToastWait (Some 1)].
Proof.
  refine (proj1 (proj2 (second_message_is_throttled (init "user_a" "Ann")
                   (Js.ascii16 " hello ") (Js.ascii16 "again")
                   1000 1000 1500 1500
                   (mkMessage "user_a" "Ann" (Js.ascii16 "hello") 1000)
                   eq_refl eq_refl (or_introl eq_refl) _ _) _ _)).
  - lia.
  - lia.
  - vm_compute. discriminate.
  - change (5 <= 500)%nat. lia.
Defined.

End ChatFacts.

(* ------------------------------------------------------------------ *)
(** * Room ids *)

Module RoomIdFacts.

Import App.

Lemma alphabet_index (n : nat) :
  (n < 36)%nat ->
  exists c, Js.charAt roomIdChars (Z.of_nat n) = String c EmptyString
            /\ id_char c.
Proof.
  intros Hn.
  do 36 (destruct n as [|n];
         [eexists; split; [reflexivity|repeat split]|]).
  lia.
Qed.

Lemma pick_in_alphabet (r : Q) :
  (0 <= r)%Q -> (r < 1)%Q ->
  exists c,
    Js.charAt roomIdChars
      (Qfloor (r * inject_Z (Z.of_nat (String.length roomIdChars))))
    = String c EmptyString
    /\ id_char c.
Proof.
  intros H0 H1.
  change (inject_Z (Z.of_nat (String.length roomIdChars))) with (36 # 1)%Q.
  set (i := Qfloor (r * (36 # 1))).
  assert (Hlo : (0 <= i)%Z).
  { change 0%Z with (Qfloor 0). apply Qfloor_resp_le.
    apply Qmult_le_0_compat; [exact H0|discriminate]. }
  assert (Hhi : (i < 36)%Z).
  { rewrite Zlt_Qlt. apply Qle_lt_trans with (r * (36 # 1))%Q.
    - apply Qfloor_le.
    - setoid_replace (inject_Z 36) with (1 * (36 # 1))%Q by reflexivity.
      apply Qmult_lt_compat_r; [reflexivity|exact H1]. }
  rewrite <- (Z2Nat.id i Hlo). apply alphabet_index. lia.
Qed.

Lemma keep_id_chars (c : ascii) (s : string) :
  id_char c ->
  sanitizeRoomId (String c s) = String c (sanitizeRoomId s).
Proof.
  intros (Hkeep & Hupper & _). unfold sanitizeRoomId. cbn.
  rewrite Hupper, Hkeep. reflexivity.
Qed.

(** X5: whatever [Math.random()] answers within its range, a generated room
    id has six characters, all capital letters or digits; the room id field
    leaves it unchanged and [joinRoom], for a user who has a display name,
    goes to the room of that id. *)
Theorem generated_room_id_is_joinable (random : nat -> Q) (name : string) :
  (forall i, 0 <= random i /\ random i < 1)%Q ->
  name <> EmptyString ->
  let id := generateRoomId random in
  String.length id = 6%nat
  /\ sanitizeRoomId id = id
  /\ joinRoom (Some name) id = JoinNavigate ("room.html?r=" ++ id).
Proof.
  intros Hrange Hname id. subst id. unfold generateRoomId. cbn [roomIdLoop].
  destruct (pick_in_alphabet (random 0%nat)) as (c0 & -> & H0);
    try apply Hrange.
  destruct (pick_in_alphabet (random 1%nat)) as (c1 & -> & H1);
    try apply Hrange.
  destruct (pick_in_alphabet (random 2%nat)) as (c2 & -> & H2);
    try apply Hrange.
  destruct (pick_in_alphabet (random 3%nat)) as (c3 & -> & H3);
    try apply Hrange.
  destruct (pick_in_alphabet (random 4%nat)) as (c4 & -> & H4);
    try apply Hrange.
  destruct (pick_in_alphabet (random 5%nat)) as (c5 & -> & H5);
    try apply Hrange.
  cbn [String.append].
  split; [reflexivity|]. split.
  - rewrite !keep_id_chars by assumption. reflexivity.
  - unfold joinRoom, getUserName, Js.trim.
    destruct name as [|n0 nr]; [congruence|]. cbn [Js.truthy].
    destruct H0 as (_ & _ & S0), H5 as (_ & _ & S5).
    cbn [Js.dropWhile]. rewrite S0.
    assert (Hend : forall s, Js.dropEnd Js.is_space (s ++ String c5 EmptyString)
                             = s ++ String c5 EmptyString).
    { induction s as [|c s IH]; cbn [String.append Js.dropEnd].
      - rewrite S5. reflexivity.
      - rewrite IH. destruct s; reflexivity. }
    specialize (Hend (String c0 (String c1 (String c2 (String c3
                        (String c4 EmptyString)))))).
    cbn [String.append] in Hend. rewrite Hend. reflexivity.
Qed.

(** Six draws of one half: the id ["SSSSSS"]. *)
Lemma generated_room_id_is_joinable_witness :
  joinRoom (Some "Ann") (generateRoomId (fun _ => 1 # 2))
  = JoinNavigate ("room.html?r=" ++ generateRoomId (fun _ => 1 # 2)).
Proof.
  refine (proj2 (proj2 (generated_room_id_is_joinable (fun _ => 1 # 2) "Ann"
                          _ _))).
  - intros i. split; [discriminate|reflexivity].
  - discriminate.
Defined.

End RoomIdFacts.

(* ------------------------------------------------------------------ *)
(** * Colours, avatars and presence notices *)

Module PresenceMore.

Import Presence.
Local Open Scope list_scope.
Local Open Scope Z_scope.

Lemma toInt32_congr (x y : Z) :
  x mod 2 ^ 32 = y mod 2 ^ 32 -> Js.toInt32 x = Js.toInt32 y.
Proof.
  intros H. unfold Js.toInt32. f_equal.
  rewrite <- (Zplus_mod_idemp_l x), <- (Zplus_mod_idemp_l y), H.
  reflexivity.
Qed.

Lemma toInt32_mod (x : Z) : Js.toInt32 x mod 2 ^ 32 = x mod 2 ^ 32.
Proof.
  unfold Js.toInt32.
  rewrite <- Zminus_mod_idemp_l, Z.mod_mod by lia.
  rewrite Zminus_mod_idemp_l. f_equal. lia.
Qed.

Lemma toInt32_range (x : Z) : - 2 ^ 31 <= Js.toInt32 x < 2 ^ 31.
Proof.
  unfold Js.toInt32.
  pose proof (Z.mod_pos_bound (x + 2 ^ 31) (2 ^ 32) ltac:(lia)). lia.
Qed.

Lemma hashLoop_poly (codes : list Z) :
  forall hash p : Z,
    hash = Js.toInt32 p ->
    hashLoop codes hash
    = Js.toInt32 (fold_left (fun h char => h * 31 + char) codes p).
Proof.
  induction codes as [|char rest IH]; intros hash p Hhash; cbn.
  - exact Hhash.
  - apply IH. apply toInt32_congr. subst hash.
    change (eqm (2 ^ 32)
              (Js.toInt32 (Js.toInt32 (Js.toInt32 p) * 32) - Js.toInt32 p + char)
              (p * 31 + char)).
    assert (Hwrap : forall x, eqm (2 ^ 32) (Js.toInt32 x) x)
      by (intros x; apply toInt32_mod).
    apply Zplus_eqm; [|apply eqm_refl].
    replace (p * 31) with (p * 32 - p) by lia.
    apply Zminus_eqm; [|apply Hwrap].
    apply eqm_trans with (Js.toInt32 (Js.toInt32 p) * 32); [apply Hwrap|].
    apply Zmult_eqm; [|apply eqm_refl].
    apply eqm_trans with (Js.toInt32 p); apply Hwrap.
Qed.

(** X6: the hash that picks the colour of a user is the polynomial in 31 of
    the character codes of the id, wrapped once into 32 bits: wrapping the
    intermediate results at every character loses nothing. *)
Theorem colour_hash_is_poly31 (uid : string) :
  hashLoop (Js.charCodes uid) 0 = Js.toInt32 (poly31 (Js.charCodes uid)).
Proof. apply hashLoop_poly. reflexivity. Qed.

(** X7: every user id gets one of the ten colours, the most negative hash
    included: the index never leaves the array. *)
Theorem every_user_has_a_colour (uid : string) :
  exists c, getUserColor uid = Some c /\ In c colors.
Proof.
  unfold getUserColor.
  set (hash := hashLoop (Js.charCodes uid) 0).
  change (Z.of_nat (List.length colors)) with 10.
  pose proof (Z.mod_pos_bound (Z.abs hash) 10 ltac:(lia)) as Hidx.
  destruct (nth_error colors (Z.to_nat (Z.abs hash mod 10))) as [c|] eqn:Hc.
  - exists c. split; [reflexivity|]. apply (nth_error_In _ _ Hc).
  - apply nth_error_None in Hc. change (List.length colors) with 10%nat in Hc.
    lia.
Qed.

Lemma insert_length (x : string * User) (l : Users) :
  List.length (insert x l) = S (List.length l).
Proof.
  induction l as [|y l IH]; cbn; [reflexivity|].
  destruct (_ <=? 0); cbn; [reflexivity|]. rewrite IH. reflexivity.
Qed.

Lemma sort_length (l : Users) : List.length (sort l) = List.length l.
Proof.
  induction l as [|x l IH]; cbn; [reflexivity|].
  rewrite insert_length, IH. reflexivity.
Qed.

Lemma online_count (pm : PresenceManager) :
  List.length (getOnlineUsers pm) = List.length (onlineEntries (users pm)).
Proof.
  unfold getOnlineUsers, onlineEntries.
  induction (users pm) as [|e m IH]; cbn; [reflexivity|].
  destruct (isOnline (snd e)); cbn; rewrite IH; reflexivity.
Qed.

(** X8: after [updateHost], the avatar row shows the first six online
    users; together with the number on the overflow badge they add up to
    the online count; and whenever a host is elected, the first avatar is
    the host's and carries the host mark. *)
Theorem avatars_show_the_host (pm : PresenceManager) (now : Z) :
  let pm' := fst (updateHost now pm) in
  let avatars := fst (updateUserAvatars pm') in
  let overflow := snd (updateUserAvatars pm') in
  let online := List.length (getOnlineUsers pm') in
  List.length avatars = Nat.min 6 online
  /\ (List.length avatars
      + match overflow with Some n => n | None => 0 end = online)%nat
  /\ (forall h, hostId pm' = Some h ->
      exists a rest, avatars = a :: rest /\ a_isHost a = true).
Proof.
  intros pm' avatars overflow online.
  assert (Husers : users pm' = users pm).
  { subst pm'. unfold updateHost. destruct (negb _); reflexivity. }
  assert (Hcount : online = List.length (sort (onlineEntries (users pm')))).
  { subst online. rewrite online_count, sort_length. reflexivity. }
  subst avatars overflow. unfold updateUserAvatars. cbn [fst snd].
  fold online. rewrite length_map, length_firstn, <- Hcount.
  split; [reflexivity|]. split.
  - destruct (6 <? online)%nat eqn:Hmany.
    + apply Nat.ltb_lt in Hmany. lia.
    + apply Nat.ltb_ge in Hmany. lia.
  - intros h Hh.
    assert (Hel : electHost (users pm') = Some h).
    { rewrite Husers. rewrite <- Hh. subst pm'. symmetry.
      apply PresenceFacts.updateHost_hostId. }
    unfold electHost in Hel.
    destruct (sort (onlineEntries (users pm'))) as [|e r]; [discriminate|].
    injection Hel as <-. cbn [firstn map]. do 2 eexists.
    split; [reflexivity|]. cbn [a_isHost]. rewrite Hh. cbn.
    apply String.eqb_refl.
Qed.

(** The third client elects Ann, the earlier of the two users it knows,
    and her avatar comes first. *)
Lemma avatars_show_the_host_witness :
  exists a rest,
    fst (updateUserAvatars (fst (updateHost 1000 Examples.watcher))) = a :: rest
    /\ a_isHost a = true.
Proof.
  exact (proj2 (proj2 (avatars_show_the_host Examples.watcher 1000))
           "user_a"%string eq_refl).
Defined.

Lemma has_In (m : Users) (key : string) :
  has m key = true <-> In key (map fst m).
Proof.
  unfold has. rewrite existsb_exists, in_map_iff. split.
  - intros (e & He & Heq). apply String.eqb_eq in Heq. eauto.
  - intros (e & Heq & He). exists e. split; [exact He|].
    apply String.eqb_eq. exact Heq.
Qed.

Lemma kept_In (now : Z) (entries : list (string * option UserData))
              (uid : string) (u : User) :
  In (uid, u) (flat_map (kept now) entries) ->
  exists d, In (uid, Some d) entries
            /\ now - lastSeenOf d now < 60000
            /\ u = mkUser d (now - lastSeenOf d now <? 35000).
Proof.
  intros Hin. apply in_flat_map in Hin.
  destruct Hin as ([k [d|]] & Hentry & Hkept); cbn in Hkept; [|tauto].
  destruct (_ <? timeoutMs) eqn:Halive; [|destruct Hkept].
  destruct Hkept as [Heq|[]]. injection Heq as -> <-.
  exists d. repeat split; [exact Hentry|]. apply Z.ltb_lt. exact Halive.
Qed.

(** X9: the notices that follow a snapshot.  Nobody is announced on an
    empty snapshot.  Otherwise a "left" notice is about a user other than
    the client who was in the map and is no longer; a "joined" notice is
    about a user other than the client who was not in the map and whose
    entry is less than 60000 ms old; and every known user other than the
    client whose entry is missing, [null] or at least 60000 ms old is
    announced as having left. *)
Theorem presence_notices (entries : list (string * option UserData))
    (now now' : Z) (pm : PresenceManager) :
  NoDup (map fst entries) ->
  let notices := showPresenceChanges (Some entries) now now' pm in
  showPresenceChanges None now now' pm = []
  /\ (forall uid n, In (Left uid n) notices ->
       uid <> userId pm
       /\ has (users pm) uid = true
       /\ forall d, In (uid, Some d) entries ->
                    60000 <= now - lastSeenOf d now)
  /\ (forall uid n, In (Joined uid n) notices ->
       uid <> userId pm
       /\ has (users pm) uid = false
       /\ exists d, In (uid, Some d) entries
                    /\ now - lastSeenOf d now < 60000 /\ n = name d)
  /\ (forall uid u, In (uid, u) (users pm) -> uid <> userId pm ->
       (forall d, In (uid, Some d) entries ->
                  60000 <= now - lastSeenOf d now) ->
       In (Left uid (name (userData u))) notices).
Proof.
  intros Hnd notices. split; [reflexivity|].
  subst notices. unfold showPresenceChanges, handlePresenceChanges.
  rewrite (PresenceFacts.users_after_snapshot entries now now' pm Hnd).
  assert (Hid : userId (fst (updatePresence (Some entries) now now' pm))
                = userId pm).
  { unfold updatePresence, updateHost. destruct (negb _); reflexivity. }
  rewrite Hid. clear Hid.
  assert (Hgone : forall uid,
            has (flat_map (kept now) entries) uid = false <->
            forall d, In (uid, Some d) entries ->
                      60000 <= now - lastSeenOf d now).
  { intros uid. split.
    - intros Hhas d Hd.
      destruct (Z.lt_ge_cases (now - lastSeenOf d now) 60000) as [Hlt|]; [|lia].
      exfalso. assert (Hin : has (flat_map (kept now) entries) uid = true).
      { apply has_In. apply in_map_iff.
        exists (uid, mkUser d (now - lastSeenOf d now <? 35000)).
        split; [reflexivity|]. apply in_flat_map.
        exists (uid, Some d). split; [exact Hd|]. cbn.
        assert ((now - lastSeenOf d now <? timeoutMs) = true) as ->
          by (apply Z.ltb_lt; exact Hlt).
        now left. }
      congruence.
    - intros Hstale.
      destruct (has (flat_map (kept now) entries) uid) eqn:Hhas;
        [|reflexivity].
      apply has_In in Hhas. apply in_map_iff in Hhas.
      destruct Hhas as ([k u] & Hk & Hu). cbn in Hk. subst k.
      destruct (kept_In _ _ _ _ Hu) as (d & Hd & Hfresh & _).
      specialize (Hstale d Hd). lia. }
  split; [|split].
  - intros uid n Hin. apply in_app_iff in Hin. destruct Hin as [Hin|Hin].
    + apply in_flat_map in Hin. destruct Hin as (e & _ & He).
      destruct (_ && _); [destruct He as [He|[]]; discriminate|destruct He].
    + apply in_flat_map in Hin. destruct Hin as (e & Hprev & He).
      destruct (negb (has _ (fst e))) eqn:Hnew; cbn [andb] in He;
        [|destruct He].
      destruct (String.eqb_spec (fst e) (userId pm)) as [|Hself];
        cbn [negb] in He; [destruct He|].
      destruct He as [He|[]]. injection He as <- _.
      split; [exact Hself|]. split.
      * apply has_In. apply in_map. exact Hprev.
      * apply Hgone. apply negb_true_iff. exact Hnew.
  - intros uid n Hin. apply in_app_iff in Hin. destruct Hin as [Hin|Hin].
    + apply in_flat_map in Hin. destruct Hin as ([k u] & Hkept & He).
      cbn [fst snd] in He.
      destruct (negb (has (users pm) k)) eqn:Hnew; cbn [andb] in He;
        [|destruct He].
      destruct (String.eqb_spec k (userId pm)) as [|Hself];
        cbn [negb] in He; [destruct He|].
      destruct He as [He|[]]. injection He as -> <-.
      split; [exact Hself|]. split; [apply negb_true_iff; exact Hnew|].
      destruct (kept_In _ _ _ _ Hkept) as (d & Hd & Hfresh & ->).
      exists d. repeat split; assumption.
    + apply in_flat_map in Hin. destruct Hin as (e & _ & He).
      destruct (_ && _); [destruct He as [He|[]]; discriminate|destruct He].
  - intros uid u Hprev Hself Hstale. apply in_app_iff. right.
    apply in_flat_map. exists (uid, u). split; [exact Hprev|].
    cbn [fst snd]. apply Hgone in Hstale. rewrite Hstale.
    destruct (String.eqb_spec uid (userId pm)); [contradiction|].
    now left.
Qed.

(** The sample snapshot seen by a third client that knew both users: Ann, last
    seen 70 s before, is announced as having left. *)
Lemma presence_notices_witness :
  In (Left "user_a" "Ann")
     (showPresenceChanges (Some Examples.snapshot) 1700000100000 1700000100000
        Examples.watcher).
Proof.
  refine (proj2 (proj2 (proj2
            (presence_notices Examples.snapshot 1700000100000 1700000100000
               Examples.watcher _)))
            "user_a" (mkUser (mkUserData "Ann" 100 (Some 995)) true) _ _ _).
  - cbn. repeat constructor; cbn; intuition discriminate.
  - right. left. reflexivity.
  - discriminate.
  - intros d [H|[H|[]]]; [|discriminate].
    injection H as <-. vm_compute. discriminate.
Defined.

(** X10: after a snapshot that is not empty, the host held is an online
    user of the map with the least [joinedAt] among the online ones, or
    [null] when nobody is online.  An empty snapshot is the exception: the
    map is cleared and the viewer count set to 0, but no election takes
    place, so the host id held before stays and nothing is written. *)
Theorem host_after_snapshot (entries : list (string * option UserData))
    (now now' : Z) (pm : PresenceManager) :
  let pm' := fst (updatePresence (Some entries) now now' pm) in
  match hostId pm' with
  | Some h =>
      exists u, In (h, u) (users pm') /\ isOnline u = true
                /\ forall y, In y (users pm') -> isOnline (snd y) = true ->
                             joinedAt (userData u) <= joined y
  | None => forall e, In e (users pm') -> isOnline (snd e) = false
  end
  /\ users (fst (updatePresence None now now' pm)) = []
  /\ hostId (fst (updatePresence None now now' pm)) = hostId pm
  /\ snd (updatePresence None now now' pm) = [ViewersCount 0].
Proof.
  intros pm'. split; [|repeat split].
  set (pm1 := set_users (fold_left (addEntry now) entries [])
                        (set_users [] pm)).
  assert (Hpm' : pm' = fst (updateHost now' pm1)).
  { subst pm'. unfold updatePresence. fold pm1.
    destruct (updateHost now' pm1); reflexivity. }
  assert (Husers : users pm' = users pm1).
  { rewrite Hpm'. unfold updateHost. destruct (negb _); reflexivity. }
  assert (Hhost : hostId pm' = electHost (users pm1))
    by (rewrite Hpm'; apply PresenceFacts.updateHost_hostId).
  rewrite Husers, Hhost.
  destruct (electHost (users pm1)) as [h|] eqn:Hel.
  - destruct (PresenceFacts.electHost_some _ _ Hel)
      as ([k u] & Hk & He & Hon & Hmin).
    cbn in Hk. subst k. exists u. repeat split; assumption.
  - apply PresenceFacts.electHost_none. exact Hel.
Qed.

(** The sample snapshot: Ann was last seen 70 s before, so Bea, the only
    user online, is the host. *)
Lemma host_after_snapshot_witness :
  let pm' := fst (updatePresence (Some Examples.snapshot) 1700000100000
                    1700000100000 Examples.watcher) in
  exists u, In ("user_b"%string, u) (users pm') /\ isOnline u = true
            /\ forall y, In y (users pm') -> isOnline (snd y) = true ->
                         joinedAt (userData u) <= joined y.
Proof.
  exact (proj1 (host_after_snapshot Examples.snapshot 1700000100000
                  1700000100000 Examples.watcher)).
Defined.

Lemma upper_char_not_lower (c : ascii) :
  Js.is_lower (Js.upper_char c) = false.
Proof. destruct c as [[] [] [] [] [] [] [] []]; reflexivity. Qed.

Lemma every_append (p : ascii -> bool) (a b : string) :
  Js.every p (a ++ b)%string = Js.every p a && Js.every p b.
Proof.
  induction a as [|c a IH]; cbn; [reflexivity|].
  rewrite IH, andb_assoc. reflexivity.
Qed.

Lemma every_substring (p : ascii -> bool) (s : string) :
  forall n m, Js.every p s = true ->
              Js.every p (String.substring n m s) = true.
Proof.
  induction s as [|c s IH]; intros n m Hs.
  - destruct n, m; reflexivity.
  - cbn in Hs. apply andb_true_iff in Hs. destruct Hs as [Hc Hs].
    destruct n as [|n]; cbn.
    + destruct m as [|m]; [reflexivity|]. cbn. rewrite Hc. apply IH, Hs.
    + apply IH, Hs.
Qed.

Lemma substring_length (s : string) :
  forall m, (String.length (String.substring 0 m s) <= m)%nat.
Proof.
  induction s as [|c s IH]; intros [|m]; cbn; try lia.
  specialize (IH m). lia.
Qed.

(** X11: the initials on an avatar have at most two characters and never a
    lower-case letter, whatever the display name is. *)
Theorem initials_are_short_capitals (name : string) :
  (String.length (getInitials name) <= 2)%nat
  /\ Js.every (fun c => negb (Js.is_lower c)) (getInitials name) = true.
Proof.
  unfold getInitials. split; [apply substring_length|].
  apply every_substring.
  induction (Js.split " " name) as [|word words IH]; [reflexivity|].
  cbn [map Js.join]. rewrite every_append, IH, andb_true_r.
  unfold Js.charAt. cbn.
  destruct word as [|c r]; cbn; [reflexivity|].
  rewrite upper_char_not_lower. reflexivity.
Qed.

End PresenceMore.

(* ------------------------------------------------------------------ *)
(** * From a validated locator to the adapter *)

Module LocatorFacts.

Import App.

Lemma span_every (p : ascii -> bool) (s : string) :
  Js.every p (fst (Js.span p s)) = true.
Proof.
  induction s as [|c r IH]; cbn; [reflexivity|].
  destruct (p c) eqn:Hc; [|reflexivity].
  destruct (Js.span p r) as [a b]. cbn in IH |- *. rewrite Hc. exact IH.
Qed.

Lemma span_all (p : ascii -> bool) (s : string) :
  Js.every p s = true -> Js.span p s = (s, EmptyString).
Proof.
  induction s as [|c r IH]; cbn; [reflexivity|].
  intros H. apply andb_true_iff in H. destruct H as [Hc Hr].
  rewrite Hc, (IH Hr). reflexivity.
Qed.

Lemma every_impl (p q : ascii -> bool) (s : string) :
  (forall c, p c = true -> q c = true) ->
  Js.every p s = true -> Js.every q s = true.
Proof.
  intros Hpq. induction s as [|c r IH]; cbn; [reflexivity|].
  intros H. apply andb_true_iff in H. destruct H as [Hc Hr].
  rewrite (Hpq c Hc), (IH Hr). reflexivity.
Qed.

Lemma digit_is_plain (c : ascii) :
  Js.is_digit c = true ->
  negb (ends_path c) = true /\ negb (Video.id_stop c) = true
  /\ Ascii.eqb c "v" = false.
Proof. destruct c as [[] [] [] [] [] [] [] []]; cbn; intros H; auto; discriminate. Qed.

(** What [cleanVimeoUrl] captures is a non-empty string of digits. *)
Lemma match_slash_digits_digits (path id : string) :
  match_slash_digits path = Some id ->
  Js.truthy id = true /\ Js.every Js.is_digit id = true.
Proof.
  induction path as [|c r IH]; cbn; [discriminate|].
  destruct (Ascii.eqb c "/"); [|exact IH].
  destruct (Js.truthy (fst (Js.span Js.is_digit r))) eqn:Hd; [|exact IH].
  intros [= <-]. split; [exact Hd|apply span_every].
Qed.

Lemma parse_vimeo_tail (t path query : string) :
  split_tail (String "/" t) = (path, query) ->
  parseURL ("https://vimeo.com/" ++ t)
  = Some (mkURL "https:" "vimeo.com"
                (if Js.truthy path then path else "/") query).
Proof.
  intros Htail. unfold parseURL. lazy -[split_tail Js.truthy].
  rewrite Htail. reflexivity.
Qed.

Lemma parse_canonical_vimeo (id : string) :
  Js.every Js.is_digit id = true ->
  parseURL ("https://vimeo.com/" ++ id)
  = Some (mkURL "https:" "vimeo.com" (String "/" id) "").
Proof.
  intros Hid.
  assert (Hpath : Js.span (fun c => negb (ends_path c)) id = (id, EmptyString)).
  { apply span_all. revert Hid. apply every_impl.
    intros c Hc. apply digit_is_plain. exact Hc. }
  apply (parse_vimeo_tail id (String "/" id) "").
  unfold split_tail. cbn [Js.span].
  change (negb (ends_path "/")) with true. cbv iota.
  rewrite Hpath. reflexivity.
Qed.

Lemma validate_canonical_vimeo (id : string) :
  Js.truthy id = true -> Js.every Js.is_digit id = true ->
  validateVideoUrl ("https://vimeo.com/" ++ id)
  = Some (mkValidated vimeo ("https://vimeo.com/" ++ id)).
Proof.
  intros Hne Hid. unfold validateVideoUrl, cleanVimeoUrl.
  rewrite (parse_canonical_vimeo id Hid).
  cbn [hostname pathname]. change (Js.includes "vimeo.com" "youtube.com") with false.
  change (Js.includes "vimeo.com" "youtu.be") with false.
  change (Js.includes "vimeo.com" "vimeo.com") with true.
  cbn [orb]. cbn [match_slash_digits].
  change (Ascii.eqb "/" "/") with true. cbv iota.
  rewrite (span_all _ _ Hid). cbn [fst]. rewrite Hne. reflexivity.
Qed.

(** X12: what [validateVideoUrl] returns for a Vimeo or direct-file
    locator is stable: validating the returned url again, as every client
    does with the url it reads from the room state, gives the same
    result. *)
Theorem revalidation_is_stable (url : string) (v : Validated) :
  validateVideoUrl url = Some v ->
  type v = vimeo \/ type v = mp4 ->
  validateVideoUrl (App.url v) = Some v.
Proof.
  intros Hv Hty. pose proof Hv as Hv0. unfold validateVideoUrl in Hv.
  destruct (parseURL url) as [urlObj|] eqn:Hparse; [|discriminate].
  destruct (_ || _).
  { injection Hv as <-. destruct Hty; discriminate. }
  destruct (Js.includes (hostname urlObj) "vimeo.com").
  - injection Hv as <-. cbn [App.url]. unfold cleanVimeoUrl in *.
    rewrite Hparse in *.
    destruct (match_slash_digits (pathname urlObj)) as [id|] eqn:Hid.
    + destruct (match_slash_digits_digits _ _ Hid) as [Hne Hdigits].
      apply validate_canonical_vimeo; assumption.
    + exact Hv0.
  - destruct (_ || _); [|discriminate]. injection Hv as <-. exact Hv0.
Qed.

(** The two Vimeo spellings of the locator claims. *)
Lemma revalidation_is_stable_witness :
  validateVideoUrl "https://vimeo.com/12345"
  = Some (mkValidated vimeo "https://vimeo.com/12345").
Proof.
  exact (revalidation_is_stable "https://vimeo.com/video/12345"
           (mkValidated vimeo "https://vimeo.com/12345")
           eq_refl (or_introl eq_refl)).
Defined.

Lemma extract_canonical_vimeo (id : string) :
  Js.truthy id = true -> Js.every Js.is_digit id = true ->
  Video.extractVimeoId ("https://vimeo.com/" ++ id) = Some id.
Proof.
  intros Hne Hid.
  assert (Hat : Video.vimeo_at ("vimeo.com/" ++ id) = Some id).
  { unfold Video.vimeo_at. cbn [String.append String.prefix].
    repeat (destruct (ascii_dec _ _) as [_|Hneq]; [|congruence]).
    assert (Hpre : String.prefix "" id = true) by (destruct id; reflexivity).
    rewrite Hpre. cbn [Js.drop].
    assert (Hvideo : String.prefix "video/" id = false).
    { destruct id as [|c r]; [reflexivity|]. cbn [Js.every] in Hid.
      apply andb_true_iff in Hid. destruct Hid as [Hc _].
      cbn [String.prefix].
      destruct (ascii_dec "v" c) as [Heq|_]; [|reflexivity].
      subst c. discriminate Hc. }
    rewrite Hvideo. cbn [andb]. rewrite (span_all _ _ Hid). cbn [fst].
    rewrite Hne. reflexivity. }
  cbn [String.append]. do 8 (cbn [Video.extractVimeoId];
    match goal with
    | |- context [Video.vimeo_at (String ?c ?s)] =>
        change (Video.vimeo_at (String c s)) with (@None string)
    end; cbv iota).
  cbn [Video.extractVimeoId]. change (String "v" ?s) with ("vimeo.com/" ++ id).
  rewrite Hat. reflexivity.
Qed.

(** X13: a Vimeo locator that [cleanVimeoUrl] rewrites is one the adapter
    can load: the canonical url is [https://vimeo.com/] followed by digits,
    and [extractVimeoId] gets exactly those digits back from it. *)
Theorem canonical_vimeo_is_loadable (url : string) (urlObj : URL) (id : string) :
  parseURL url = Some urlObj ->
  match_slash_digits (pathname urlObj) = Some id ->
  cleanVimeoUrl url = "https://vimeo.com/" ++ id
  /\ Video.extractVimeoId (cleanVimeoUrl url) = Some id.
Proof.
  intros Hparse Hid. unfold cleanVimeoUrl. rewrite Hparse, Hid.
  split; [reflexivity|].
  destruct (match_slash_digits_digits _ _ Hid) as [Hne Hdigits].
  apply extract_canonical_vimeo; assumption.
Qed.

(** The longer spelling of the sample Vimeo locator. *)
Lemma canonical_vimeo_is_loadable_witness :
  Video.extractVimeoId (cleanVimeoUrl "https://vimeo.com/video/12345")
  = Some "12345".
Proof.
  exact (proj2 (canonical_vimeo_is_loadable "https://vimeo.com/video/12345"
                  (mkURL "https:" "vimeo.com" "/video/12345" "") "12345"
                  eq_refl eq_refl)).
Defined.

Lemma capture_watch (videoId : string) :
  Js.truthy (fst (Js.span (fun c => negb (Video.id_stop c)) videoId)) = true ->
  Video.capture_after ("youtube.com/watch?v=" ++ videoId) "youtube.com/watch?v="
  = Some (fst (Js.span (fun c => negb (Video.id_stop c)) videoId)).
Proof.
  intros Hne. unfold Video.capture_after.
  cbn [String.append String.prefix].
  repeat (destruct (ascii_dec _ _) as [_|Hneq]; [|congruence]).
  assert (Hpre : String.prefix "" videoId = true)
    by (destruct videoId; reflexivity).
  rewrite Hpre. cbn [String.length Js.drop]. rewrite Hne. reflexivity.
Qed.

Lemma extract_canonical_youtube (videoId : string) :
  Js.truthy (fst (Js.span (fun c => negb (Video.id_stop c)) videoId)) = true ->
  Video.extractYouTubeId ("https://www.youtube.com/watch?v=" ++ videoId)
  = Some (fst (Js.span (fun c => negb (Video.id_stop c)) videoId)).
Proof.
  intros Hne. unfold Video.extractYouTubeId.
  cbn [String.append].
  do 12 (cbn [Video.match_capture];
    match goal with
    | |- context [Video.first_capture (String ?c ?s) ?ps] =>
        change (Video.first_capture (String c s) ps) with (@None string)
    end; cbv iota).
  cbn [Video.match_capture Video.first_capture].
  pose proof (capture_watch videoId Hne) as Hhere.
  cbn [String.append] in Hhere. rewrite Hhere. reflexivity.
Qed.

(** X14: when [cleanYouTubeUrl] finds a video id that starts with a
    character other than [&], [?], [#] and line feed, it returns
    [https://www.youtube.com/watch?v=] followed by the id, and
    [extractYouTubeId] reads from that url the id up to the first of those
    four characters: the whole id when it has none of them. *)
Theorem canonical_youtube_is_loadable (url : string) (urlObj : URL) :
  parseURL url = Some urlObj ->
  let videoId :=
    if String.eqb (hostname urlObj) "youtu.be" then Js.slice1 (pathname urlObj)
    else if params_has (searchParams urlObj) "v"
         then params_get (searchParams urlObj) "v" else "" in
  let loaded := fst (Js.span (fun c => negb (Video.id_stop c)) videoId) in
  Js.truthy loaded = true ->
  cleanYouTubeUrl url = "https://www.youtube.com/watch?v=" ++ videoId
  /\ Video.extractYouTubeId (cleanYouTubeUrl url) = Some loaded
  /\ (Js.every (fun c => negb (Video.id_stop c)) videoId = true ->
      loaded = videoId).
Proof.
  intros Hparse videoId loaded Hne.
  assert (Htruthy : Js.truthy videoId = true).
  { subst loaded. destruct videoId as [|c r]; [discriminate Hne|reflexivity]. }
  assert (Hclean : cleanYouTubeUrl url
                   = "https://www.youtube.com/watch?v=" ++ videoId).
  { unfold cleanYouTubeUrl. rewrite Hparse. fold videoId.
    rewrite Htruthy. reflexivity. }
  split; [exact Hclean|]. split.
  - rewrite Hclean. apply extract_canonical_youtube. exact Hne.
  - intros Hplain. subst loaded. rewrite (span_all _ _ Hplain). reflexivity.
Qed.

(** The short spelling of the sample YouTube locator. *)
Lemma canonical_youtube_is_loadable_witness :
  Video.extractYouTubeId (cleanYouTubeUrl "https://youtu.be/XYZ") = Some "XYZ".
Proof.
  exact (proj1 (proj2 (canonical_youtube_is_loadable "https://youtu.be/XYZ"
                         (mkURL "https:" "youtu.be" "/XYZ" "")
                         eq_refl eq_refl))).
Defined.

End LocatorFacts.

(* ------------------------------------------------------------------ *)
(** * The adapter once a video is loaded *)

Module VideoMore.

Import Video.
Local Open Scope list_scope.
Local Open Scope Q_scope.

Lemma clamp_bounds (v : Q) :
  let c := Math_max 0 (Math_min 1 v) in
  0 <= c /\ c <= 1
  /\ (0 <= v -> v <= 1 -> c == v)
  /\ (v <= 0 -> c == 0)
  /\ (1 <= v -> c == 1).
Proof.
  unfold Math_max, Math_min.
  destruct (Qle_bool 1 v) eqn:H1.
  - apply Qle_bool_iff in H1. cbn.
    repeat split; try discriminate; intros; try reflexivity.
    + apply Qle_antisym; assumption.
    + exfalso. apply (Qlt_not_le 0 1); [reflexivity|].
      apply Qle_trans with v; assumption.
  - assert (Hlt : v < 1).
    { apply Qnot_le_lt. intros H. apply Qle_bool_iff in H. congruence. }
    destruct (Qle_bool 0 v) eqn:H0.
    + apply Qle_bool_iff in H0.
      repeat split; intros; try reflexivity; try assumption.
      * apply Qlt_le_weak. exact Hlt.
      * apply Qle_antisym; assumption.
      * exfalso. apply (Qlt_not_le _ _ Hlt). assumption.
    + assert (Hneg : v < 0).
      { apply Qnot_le_lt. intros H. apply Qle_bool_iff in H. congruence. }
      repeat split; intros; try reflexivity; try discriminate.
      * exfalso. apply (Qlt_not_le _ _ Hneg). assumption.
      * exfalso. apply (Qlt_not_le _ _ Hlt). assumption.
Qed.

(** X15: whatever number [setVolume] is given, the volume the adapter keeps
    lies between 0 and 1: it is the number itself when that is in range, 0
    below and 1 above.  On a ready adapter the player receives that volume,
    scaled to 0..100 for YouTube. *)
Theorem setVolume_clamps (v : Q) (vp vp' : VideoPlayer) (evs : list Event) :
  setVolume v vp = Resolved vp' evs ->
  0 <= volume vp' /\ volume vp' <= 1
  /\ (0 <= v -> v <= 1 -> volume vp' == v)
  /\ (v <= 0 -> volume vp' == 0)
  /\ (1 <= v -> volume vp' == 1)
  /\ (forall ty, isReady vp = true -> type vp = Some ty ->
      exists b', player vp' = Some b'
                 /\ b_volume b'
                    = match ty with
                      | App.youtube => volume vp' * 100
                      | _ => volume vp'
                      end).
Proof.
  intros Hset.
  assert (Hvol : volume vp' = Math_max 0 (Math_min 1 v)
                 /\ forall ty, isReady vp = true -> type vp = Some ty ->
                    exists b', player vp' = Some b'
                      /\ b_volume b' = match ty with
                                       | App.youtube => volume vp' * 100
                                       | _ => volume vp'
                                       end).
  { destruct vp as [pl ty0 rd ct du pg mu vo].
    unfold setVolume, send, isReady in *. cbn in Hset |- *.
    destruct rd; cbn in Hset.
    - destruct ty0 as [[]|]; destruct pl as [b|]; cbn in Hset;
        try discriminate; injection Hset as <- _; cbn;
        (split; [reflexivity|]); intros ty _ Hty;
        try discriminate; injection Hty as <-; eauto.
    - injection Hset as <- _. split; [reflexivity|]. discriminate. }
  destruct Hvol as [Hvol Hsent]. rewrite Hvol.
  destruct (clamp_bounds v) as (H0 & H1 & Hin & Hlo & Hhi).
  repeat split; try assumption. rewrite <- Hvol. exact Hsent.
Qed.

(** The volume slider pushed beyond its end on the sample adapter. *)
Lemma setVolume_clamps_witness :
  exists vp' evs,
    setVolume (3 # 2) Examples.adapter = Resolved vp' evs
    /\ volume vp' == 1.
Proof.
  do 2 eexists. split; [reflexivity|].
  destruct (setVolume_clamps (3 # 2) Examples.adapter _ _ eq_refl)
    as (_ & _ & _ & _ & Hhigh & _).
  apply Hhigh. discriminate.
Defined.

Lemma Qle_bool_false (x y : Q) : Qle_bool x y = false -> y < x.
Proof.
  intros H. apply Qnot_le_lt. intros Hle. apply Qle_bool_iff in Hle.
  congruence.
Qed.

(** X16: on a loaded, ready adapter whose own volume and whose player's
    volume are not negative, [toggleMute] twice leaves the player sounding
    as before: muted or not as it was, and at the same volume. *)
Theorem toggleMute_twice (vp : VideoPlayer) (ty : App.VideoType) (b : Backend) :
  isReady vp = true -> type vp = Some ty -> player vp = Some b ->
  0 <= volume vp -> 0 <= b_volume b ->
  exists vp1 evs1 vp2 evs2 b2,
    toggleMute vp = Resolved vp1 evs1
    /\ toggleMute vp1 = Resolved vp2 evs2
    /\ player vp2 = Some b2
    /\ b_muted b2 = b_muted b
    /\ b_volume b2 == b_volume b.
Proof.
  destruct vp as [pl t rd ct du pg mu vo]. unfold isReady. cbn.
  intros -> -> -> Hvo Hbv. destruct b as [bt bp bm bv bc]. cbn in Hbv.
  destruct ty.
  - destruct bm; do 5 eexists; (split; [reflexivity|]);
      (split; [reflexivity|]); repeat split; reflexivity.
  - unfold toggleMute at 1. unfold send. cbn -[Qeq Qle_bool toggleMute].
    destruct (Qle_bool bv 0) eqn:Hb.
    + apply Qle_bool_iff in Hb.
      assert (Hzero : bv == 0) by (apply Qle_antisym; assumption).
      destruct (Qle_bool vo 0) eqn:Hv.
      * apply Qle_bool_iff in Hv.
        do 5 eexists. split; [reflexivity|].
        unfold toggleMute, send. cbn -[Qeq Qle_bool].
        apply Qle_bool_iff in Hv. rewrite Hv. apply Qle_bool_iff in Hv.
        split; [reflexivity|]. cbn -[Qeq]. repeat split.
        rewrite Hzero. apply Qle_antisym; assumption.
      * do 5 eexists. split; [reflexivity|].
        unfold toggleMute, send. cbn -[Qeq Qle_bool]. rewrite Hv.
        split; [reflexivity|]. cbn -[Qeq]. repeat split.
        symmetry. exact Hzero.
    + do 5 eexists. split; [reflexivity|].
      unfold toggleMute, send. cbn -[Qeq Qle_bool].
      change (Qle_bool 0 0) with true. cbv iota.
      split; [reflexivity|]. cbn -[Qeq]. repeat split.
  - destruct bm; do 5 eexists; (split; [reflexivity|]);
      (split; [reflexivity|]); repeat split; reflexivity.
Qed.

(** The mute button pressed twice on the sample adapter. *)
Lemma toggleMute_twice_witness :
  exists vp1 evs1 vp2 evs2 b2,
    toggleMute Examples.adapter = Resolved vp1 evs1
    /\ toggleMute vp1 = Resolved vp2 evs2
    /\ player vp2 = Some b2
    /\ b_muted b2 = b_muted Examples.element
    /\ b_volume b2 == b_volume Examples.element.
Proof.
  apply (toggleMute_twice Examples.adapter App.mp4 Examples.element);
    try reflexivity; discriminate.
Defined.

Lemma invoke_loaded (c : Command) (vp : VideoPlayer) :
  loaded vp ->
  exists vp' evs, invoke c vp = Resolved vp' evs /\ loaded vp'.
Proof.
  intros Hloaded. destruct vp as [pl t rd ct du pg mu vo].
  unfold loaded in *. cbn in Hloaded.
  destruct rd.
  - destruct (Hloaded eq_refl) as (ty & b & -> & ->).
    destruct b as [bt bp bm bv bc].
    destruct c; unfold invoke, play, pause, seek, setVolume, toggleMute,
      destroy, send; cbn;
      try (destruct ty; cbn; do 2 eexists; (split; [reflexivity|]);
           intros _; cbn; eauto; fail).
    + destruct ty; cbn;
        repeat match goal with
               | |- context [if ?x then _ else _] => destruct x; cbn
               end;
        do 2 eexists; (split; [reflexivity|]); intros _; cbn; eauto.
    + do 2 eexists. split; [reflexivity|]. cbn. discriminate.
  - destruct c; unfold invoke, play, pause, seek, setVolume, toggleMute,
      destroy; cbn; do 2 eexists; (split; [reflexivity|]); cbn; discriminate.
Qed.

(** X17: once a video is loaded no call on the adapter ever fails.
    Whatever series of [play], [pause], [seek], [setVolume], [toggleMute]
    and [destroy] calls follows, each one resolves, the adapter stays
    loaded, and [getCurrentTime], [isPlaying] and [isMuted] answer; that
    holds after [destroy] too, when the player is gone. *)
Theorem loaded_adapter_never_fails (cs : list Command) (vp : VideoPlayer) :
  loaded vp ->
  exists vp',
    run cs vp = Some vp'
    /\ loaded vp'
    /\ getCurrentTime vp' <> None
    /\ isPlaying vp' <> None
    /\ isMuted vp' <> None.
Proof.
  revert vp. induction cs as [|c cs IH]; intros vp Hloaded.
  - exists vp. split; [reflexivity|]. split; [exact Hloaded|].
    destruct vp as [pl t rd ct du pg mu vo]. unfold loaded in Hloaded.
    unfold getCurrentTime, isPlaying, isMuted. cbn in *.
    destruct rd; cbn; [|repeat split; discriminate].
    destruct (Hloaded eq_refl) as (ty & b & -> & ->).
    destruct ty; cbn; repeat split; discriminate.
  - destruct (invoke_loaded c vp Hloaded) as (vp1 & evs & Hc & Hl1).
    cbn [run]. rewrite Hc. apply IH. exact Hl1.
Qed.

(** The sample adapter, loaded and ready, is played, sought, turned up,
    muted and destroyed, and asked to mute once more. *)
Lemma loaded_adapter_never_fails_witness :
  exists vp',
    run [DoPlay; DoSeek 3; DoSetVolume 2; DoToggleMute; DoDestroy; DoToggleMute]
        Examples.adapter = Some vp'
    /\ getCurrentTime vp' <> None
    /\ isPlaying vp' <> None
    /\ isMuted vp' <> None.
Proof.
  destruct (loaded_adapter_never_fails
              [DoPlay; DoSeek 3; DoSetVolume 2; DoToggleMute; DoDestroy;
               DoToggleMute] Examples.adapter)
    as (vp' & Hrun & _ & Hrest).
  - intros _. exists App.mp4, Examples.element. split; reflexivity.
  - exists vp'. split; [exact Hrun|exact Hrest].
Defined.

End VideoMore.

(* ------------------------------------------------------------------ *)
(** * Host actions, the state listener and what reconciliation reaches *)

Module RoomMore.

Import Room.
Local Open Scope list_scope.
Local Open Scope Z_scope.

(** X19: the reconciliation that the state listener runs right after a
    snapshot never touches the player when the record names no video or a
    video that [validateVideoUrl] accepts: in the second case the listener
    has just started to load the video again, so the adapter is not ready.
    The listener caches the record and takes the host role exactly when
    the record names the client. *)
Theorem listener_sync_is_idle (rm : RoomManager) (s : RoomState)
    (fresh : option Video.Backend) (now : Z) :
  url s = EmptyString \/ App.validateVideoUrl (url s) <> None ->
  exists rm',
    onRoomState (Some s) fresh now rm = Done tt rm' []
    /\ currentState rm' = s
    /\ isHost rm' = String.eqb (hostId s) (userId rm)
    /\ (url s <> EmptyString -> Video.isReady (videoPlayer rm') = false).
Proof.
  intros Hurl. unfold onRoomState.
  unfold bind at 1. unfold modify at 1.
  unfold bind at 1. unfold this at 1.
  unfold bind at 1. unfold modify at 1.
  unfold bind at 1.
  cbn [userId set_currentState].
  destruct (Js.truthy (url s)) eqn:Htruthy.
  - destruct Hurl as [Hempty|Hvalid];
      [rewrite Hempty in Htruthy; discriminate|].
    unfold loadVideo_begin.
    destruct (App.validateVideoUrl (url s)) as [v|]; [|congruence].
    unfold modify. rewrite RoomFacts.sync_guarded.
    + eexists. split; [reflexivity|]. cbn. repeat split.
    + cbn. apply orb_true_r.
  - unfold ret. rewrite RoomFacts.sync_guarded.
    + eexists. split; [reflexivity|]. cbn. repeat split.
      intros Hne. destruct (url s); [congruence|discriminate].
    + cbn. rewrite Htruthy. cbn. rewrite orb_true_r. reflexivity.
Qed.

(** The sample viewer hears of the sample record again. *)
Lemma listener_sync_is_idle_witness :
  exists rm',
    onRoomState (Some Examples.record) None 1700000003000 Examples.viewer
    = Done tt rm' []
    /\ Video.isReady (videoPlayer rm') = false.
Proof.
  destruct (listener_sync_is_idle Examples.viewer Examples.record None
              1700000003000) as (rm' & Hrun & _ & _ & Hidle).
  - right. discriminate.
  - exists rm'. split; [exact Hrun|]. apply Hidle. discriminate.
Defined.

Lemma host_actions (rm : RoomManager) (t : Q) (now : Z) (l : Q) (p : bool)
    (remote : Store.StoredState) :
  isHost rm = true ->
  Video.isReady (videoPlayer rm) = true ->
  Video.loaded (videoPlayer rm) ->
  Video.getCurrentTime (videoPlayer rm) = Some l ->
  Video.isPlaying (videoPlayer rm) = Some p ->
  let s := currentState rm in
  (exists rm' tr,
     play now rm = Done tt rm' tr
     /\ currentState rm' = mkRoomState (url s) l true now (userId rm)
     /\ replay tr remote = Store.apply (write_of (currentState rm')) remote
     /\ Video.isPlaying (videoPlayer rm') = Some true
     /\ Video.loaded (videoPlayer rm') /\ isHost rm' = true)
  /\ (exists rm' tr,
       pause now rm = Done tt rm' tr
       /\ currentState rm' = mkRoomState (url s) l false now (userId rm)
       /\ replay tr remote = Store.apply (write_of (currentState rm')) remote
       /\ Video.isPlaying (videoPlayer rm') = Some false
       /\ Video.loaded (videoPlayer rm') /\ isHost rm' = true)
  /\ (exists rm' tr l',
       seek t now rm = Done tt rm' tr
       /\ currentState rm' = mkRoomState (url s) t p now (userId rm)
       /\ replay tr remote = Store.apply (write_of (currentState rm')) remote
       /\ Video.getCurrentTime (videoPlayer rm') = Some l' /\ (l' == t)%Q
       /\ Video.isPlaying (videoPlayer rm') = Some p
       /\ Video.loaded (videoPlayer rm') /\ isHost rm' = true).
Proof.
  intros Hhost Hready Hloaded Hlocal Hplaying s. subst s.
  destruct rm as [uid host cs lst flag vp]. cbn in Hhost. subst host.
  destruct vp as [pl ty rd ct du pg mu vo].
  unfold Video.isReady in Hready. cbn in Hready. subst rd.
  destruct (Hloaded eq_refl) as (ty' & b & Hty & Hpl). cbn in Hty, Hpl.
  subst ty pl. destruct b as [bt bp bm bv bc].
  assert (Hl : forall x y : Video.VideoPlayer, Video.loaded x -> x = y ->
                                               Video.loaded y)
    by (intros; subst; assumption).
  destruct ty', flag;
    cbn -[Video.or_zero] in Hlocal, Hplaying;
    injection Hlocal as <-; injection Hplaying as <-;
    (split; [|split]);
    unfold play, pause, seek, await, query, updateRoomState, callbacks,
      callback, onPlay, onPause, onSeek, bind, this, modify, emit, ret, throw;
    cbn -[Video.or_zero Qeq];
    repeat eexists; try reflexivity;
    try (intros _; cbn; eauto; fail);
    try apply RoomFacts.or_zero_eq.
Qed.

(** X20: [play], [pause] and [seek] of a client that is not host do
    nothing at all.  On the host, with a loaded and ready adapter, each of
    them returns, drives the player, and leaves both in the cache and in
    the store a record signed by the host at the time of the call: [play]
    and [pause] record the local time with [playing] true or false, [seek]
    records the target with the play state of the player. *)
Theorem host_actions_write_the_record (rm : RoomManager) (t : Q) (now : Z)
    (l : Q) (p : bool) (remote : Store.StoredState) :
  (isHost rm = false ->
   play now rm = Done tt rm [] /\ pause now rm = Done tt rm []
   /\ seek t now rm = Done tt rm [])
  /\ (isHost rm = true ->
      Video.isReady (videoPlayer rm) = true ->
      Video.loaded (videoPlayer rm) ->
      Video.getCurrentTime (videoPlayer rm) = Some l ->
      Video.isPlaying (videoPlayer rm) = Some p ->
      let s := currentState rm in
      (exists rm' tr,
         play now rm = Done tt rm' tr
         /\ currentState rm' = mkRoomState (url s) l true now (userId rm)
         /\ replay tr remote = Store.apply (write_of (currentState rm')) remote
         /\ Video.isPlaying (videoPlayer rm') = Some true)
      /\ (exists rm' tr,
           pause now rm = Done tt rm' tr
           /\ currentState rm' = mkRoomState (url s) l false now (userId rm)
           /\ replay tr remote
              = Store.apply (write_of (currentState rm')) remote
           /\ Video.isPlaying (videoPlayer rm') = Some false)
      /\ (exists rm' tr l',
           seek t now rm = Done tt rm' tr
           /\ currentState rm' = mkRoomState (url s) t p now (userId rm)
           /\ replay tr remote
              = Store.apply (write_of (currentState rm')) remote
           /\ Video.getCurrentTime (videoPlayer rm') = Some l'
           /\ (l' == t)%Q)).
Proof.
  split.
  - intros Hhost. unfold play, pause, seek, bind, this, ret.
    rewrite Hhost. cbn. repeat split.
  - intros Hhost Hready Hloaded Hlocal Hplaying s.
    destruct (host_actions rm t now l p remote Hhost Hready Hloaded Hlocal
                Hplaying)
      as ((r1 & t1 & H1 & C1 & S1 & P1 & _)
          & (r2 & t2 & H2 & C2 & S2 & P2 & _)
          & (r3 & t3 & l3 & H3 & C3 & S3 & L3 & E3 & _)).
    split; [|split].
    + exists r1, t1. auto.
    + exists r2, t2. auto.
    + exists r3, t3, l3. auto.
Qed.

(** The sample host seeks to 42 s. *)
Lemma host_actions_write_the_record_witness :
  exists rm' tr l',
    seek 42 1700000005000 Examples.host = Done tt rm' tr
    /\ currentState rm'
       = mkRoomState "https://example.com/a.mp4" 42 false 1700000005000
                     "user_h"
    /\ replay tr Examples.empty_store
       = Store.apply (write_of (currentState rm')) Examples.empty_store
    /\ Video.getCurrentTime (videoPlayer rm') = Some l'
    /\ (l' == 42)%Q.
Proof.
  refine (proj2 (proj2 (proj2 (host_actions_write_the_record Examples.host 42
            1700000005000 (1015 # 10) false Examples.empty_store)
            eq_refl eq_refl _ eq_refl eq_refl))).
  intros _. exists App.mp4, Examples.element. split; reflexivity.
Defined.

(** X21: a seek of the host reaches the viewers.  The host, on a loaded
    and ready adapter, seeks to [t] at time [now]; a viewer with a loaded
    and ready adapter holds the record the host wrote and reconciles [d] ms
    later, [d] being at most 10000.  The viewer predicts [t + d / 1000] in
    double arithmetic; its player is told to seek there, once, when the
    drift from its local time is above 0.4, and is not told to seek
    otherwise; and it is told to play or to pause exactly when the play
    state it reports differs from the one the host recorded.  The numbers
    are of magnitude at most 2^53. *)
Theorem host_seek_reaches_viewer (host viewer : RoomManager) (t : Q)
    (now d : Z) (l lv : Q) (p : bool) (ty : App.VideoType)
    (b : Video.Backend) :
  isHost host = true ->
  Video.isReady (videoPlayer host) = true ->
  Video.loaded (videoPlayer host) ->
  Video.getCurrentTime (videoPlayer host) = Some l ->
  Video.isPlaying (videoPlayer host) = Some p ->
  Js.truthy (url (currentState host)) = true ->
  isHost viewer = false ->
  Video.isReady (videoPlayer viewer) = true ->
  Video.type (videoPlayer viewer) = Some ty ->
  Video.player (videoPlayer viewer) = Some b ->
  Video.getCurrentTime (videoPlayer viewer) = Some lv ->
  0 <= d <= 10000 ->
  Js.safe t -> Js.safe lv ->
  let target := Js.add t (Js.div (inject_Z d) 1000) in
  let q := Video.reported ty b (videoPlayer viewer) in
  exists host' trh viewer' trv b',
    seek t now host = Done tt host' trh
    /\ syncToRemoteState false (now + d)
         (set_currentState (currentState host') viewer)
       = Done tt viewer' trv
    /\ Video.player (videoPlayer viewer') = Some b'
    /\ Video.b_calls b'
       = Video.b_calls b
         ++ (if Js.gt (Qabs (Js.sub target lv)) (4 # 10)
             then [Video.CallSeek target] else [])
         ++ (if p && negb q then [Video.CallPlay]
             else if negb p && q then [Video.CallPause]
             else []).
Proof.
  intros Hhost Hready Hloaded Hlocal Hplaying Hurl Hviewer Hvready Hty Hb
         Hvlocal Hd _ _ target q.
  destruct (host_actions host t now l p (Store.mkStored None None None None None)
              Hhost Hready Hloaded Hlocal Hplaying)
    as (_ & _ & (host' & trh & _ & Hseek & Hrecord & _)).
  set (viewer0 := set_currentState (currentState host') viewer).
  assert (Hr : remoteTime (currentState viewer0) (now + d) = target).
  { subst viewer0. cbn [currentState set_currentState]. rewrite Hrecord.
    unfold remoteTime. cbn [time updatedAt].
    replace (now + d - now) with d by lia. reflexivity. }
  assert (Hgate : (10000 <? now + d - updatedAt (currentState viewer0))
                  && negb false = false).
  { subst viewer0. cbn [currentState set_currentState]. rewrite Hrecord.
    cbn [updatedAt]. apply andb_false_intro1. apply Z.ltb_ge. lia. }
  assert (Hvurl : Js.truthy (url (currentState viewer0)) = true).
  { subst viewer0. cbn [currentState set_currentState]. rewrite Hrecord.
    exact Hurl. }
  destruct (RoomFacts.reconciled_player (videoPlayer viewer) target p
              (Js.gt (Qabs (Js.sub target lv)) (4 # 10) || false)
              ty b Hvready Hty Hb) as (Hp & b' & Hb' & Hcalls & _).
  pose proof (RoomFacts.sync_viewer false (now + d) viewer0 lv q
                Hviewer Hvurl Hvready Hgate Hvlocal) as Hrun.
  cbv zeta in Hrun. rewrite Hr in Hrun.
  assert (Hplay : playing (currentState viewer0) = p).
  { subst viewer0. cbn [currentState set_currentState]. rewrite Hrecord.
    reflexivity. }
  rewrite Hplay in Hrun. specialize (Hrun Hp).
  exists host', trh. eexists. eexists. exists b'.
  split; [exact Hseek|]. split; [exact Hrun|].
  cbn [videoPlayer]. split; [exact Hb'|].
  rewrite Hcalls. rewrite orb_false_r. reflexivity.
Qed.

(** The sample host seeks to 42 s; the sample viewer, at 101.5 s,
    reconciles 2 s later and its element is told to seek to 44 s. *)
Lemma host_seek_reaches_viewer_witness :
  exists host' trh viewer' trv b',
    seek 42 1700000005000 Examples.host = Done tt host' trh
    /\ syncToRemoteState false (1700000005000 + 2000)
         (set_currentState (currentState host') Examples.viewer)
       = Done tt viewer' trv
    /\ Video.player (videoPlayer viewer') = Some b'
    /\ Video.b_calls b' = [Video.CallSeek 44].
Proof.
  apply (host_seek_reaches_viewer Examples.host Examples.viewer 42
           1700000005000 2000 (1015 # 10) (1015 # 10) false App.mp4
           Examples.element); try reflexivity.
  - intros _. exists App.mp4, Examples.element. split; reflexivity.
  - lia.
  - vm_compute. discriminate.
  - vm_compute. discriminate.
Defined.

End RoomMore.

(* ------------------------------------------------------------------ *)
(** * Keyboard shortcuts *)

Module KeyFacts.

Import Room.
Local Open Scope list_scope.
Local Open Scope Z_scope.

Lemma updateRoomState_writes (u : Updates) (now now' : Z) (rm : RoomManager) :
  exists rm' tr, updateRoomState u now now' rm = Done tt rm' tr
                 /\ Forall is_write tr.
Proof.
  unfold updateRoomState, bind, this, modify, emit, ret.
  destruct (isHost rm); cbn; do 2 eexists; split; try reflexivity.
  - repeat constructor. eexists. reflexivity.
  - constructor.
Qed.

Lemma callbacks_write (now : Z) (evs : list Video.Event) :
  forall rm, exists rm' tr, callbacks now evs rm = Done tt rm' tr
                            /\ Forall is_write tr.
Proof.
  induction evs as [|ev evs IH]; intros rm.
  - do 2 eexists. split; [reflexivity|constructor].
  - cbn [callbacks]. unfold bind.
    assert (Hcb : exists rm1 tr1, callback now ev rm = Done tt rm1 tr1
                                  /\ Forall is_write tr1).
    { destruct ev; unfold callback, onPlay, onPause, onSeek;
        unfold bind at 1; unfold this at 1;
        destruct (isHost rm && negb (isUpdatingFromRemote rm));
        match goal with
        | |- context [updateRoomState ?u ?n ?n' ?r] =>
            destruct (updateRoomState_writes u n n' r) as (rm1 & tr1 & -> & Hw);
            exists rm1, tr1; split; [reflexivity|exact Hw]
        | |- _ => unfold ret; do 2 eexists; split; [reflexivity|constructor]
        end. }
    destruct Hcb as (rm1 & tr1 & -> & Hw1).
    destruct (IH rm1) as (rm2 & tr2 & -> & Hw2).
    do 2 eexists. split; [reflexivity|]. apply Forall_app. split; assumption.
Qed.

(** The only seek in the trace of [seek(time)] is the one to [time]. *)
(** An effect of [m ;; k] is an effect of [m] or of the continuation. *)
Lemma bind_trace {A B} (m : M A) (k : A -> M B) (rm : RoomManager)
    (e : Effect) :
  In e (trace_of (bind m k rm)) ->
  In e (trace_of (m rm))
  \/ exists a rm1 tr1, m rm = Done a rm1 tr1 /\ In e (trace_of (k a rm1)).
Proof.
  unfold bind. destruct (m rm) as [a rm1 tr1|rm1 tr1]; [|auto].
  intros H. assert (H' : In e (tr1 ++ trace_of (k a rm1)))
    by (destruct (k a rm1); exact H).
  apply in_app_iff in H'. destruct H' as [H'|H']; [left; exact H'|].
  right. exists a, rm1, tr1. auto.
Qed.

Ltac trace_step H :=
  apply bind_trace in H;
  let a := fresh "a" in let r := fresh "rm" in let tr := fresh "tr" in
  let E := fresh "E" in
  destruct H as [H|(a & r & tr & E & H)].

(** The only seek in the trace of [seek(time)] is the one to [time]. *)
Lemma seek_target (time : Q) (now : Z) (rm : RoomManager) (t : Q) :
  In (PlayerSeek t) (trace_of (detached (seek time now) rm)) ->
  t = time /\ isHost rm = true.
Proof.
  assert (Hno : forall tr, Forall is_write tr -> ~ In (PlayerSeek t) tr).
  { intros tr Hw H. eapply Forall_forall in Hw; [|exact H].
    destruct Hw. discriminate. }
  intros H0.
  assert (H : In (PlayerSeek t) (trace_of (seek time now rm)))
    by (unfold detached in H0; destruct (seek time now rm); exact H0).
  clear H0. unfold seek in H. trace_step H; [destruct H|].
  unfold this in E. injection E as <- <- <-.
  destruct (isHost rm) eqn:Hhost; cbn [negb] in H; [|destruct H].
  trace_step H.
  - unfold await in H. trace_step H.
    + destruct H as [H|[]]. injection H as <-. auto.
    + trace_step H; [destruct H|].
      unfold this in E0. injection E0 as <- <- <-.
      destruct (Video.seek time (videoPlayer rm0)) as [vp evs|];
        [|destruct H].
      trace_step H; [destruct H|].
      destruct (callbacks_write now evs rm1) as (rm2 & tr2 & Hcb & Hw).
      rewrite Hcb in H. exfalso. exact (Hno _ Hw H).
  - exfalso. trace_step H.
    + unfold query in H. trace_step H; [destruct H|].
      match type of H with
      | context [Video.isPlaying ?v] => destruct (Video.isPlaying v)
      end; destruct H.
    + match type of H with
      | context [updateRoomState ?u ?n ?n' ?r] =>
          destruct (updateRoomState_writes u n n' r) as (rm2 & tr2 & Hup & Hw)
      end.
      rewrite Hup in H. exact (Hno _ Hw H).
Qed.

Lemma Math_max_lower (x y : Q) : (x <= Video.Math_max x y)%Q.
Proof.
  unfold Video.Math_max. destruct (Qle_bool x y) eqn:H.
  - apply Qle_bool_iff. exact H.
  - apply Qle_refl.
Qed.

Lemma Math_min_upper (x y : Q) : (Video.Math_min x y <= x)%Q.
Proof.
  unfold Video.Math_min. destruct (Qle_bool x y) eqn:H.
  - apply Qle_refl.
  - apply Qlt_le_weak. apply Qnot_le_lt. intros Hle.
    apply Qle_bool_iff in Hle. congruence.
Qed.

(** X24: a key pressed in an input field triggers nothing.  Elsewhere the
    left arrow never seeks below 0 and the right arrow never seeks beyond
    the duration, whatever the local time is, and both seek only on the
    host. *)
Theorem arrow_keys_stay_in_range (key : string) (now : Z) (rm : RoomManager)
    (t : Q) :
  onKeyDown true key now rm = Done tt rm []
  /\ (Js.toLowerCase key = "arrowleft"%string ->
      In (PlayerSeek t) (trace_of (onKeyDown false key now rm)) ->
      (0 <= t)%Q /\ isHost rm = true)
  /\ (Js.toLowerCase key = "arrowright"%string ->
      In (PlayerSeek t) (trace_of (onKeyDown false key now rm)) ->
      (t <= Video.getDuration (videoPlayer rm))%Q /\ isHost rm = true).
Proof.
  split; [reflexivity|].
  split; intros Hkey H; unfold onKeyDown in H; rewrite Hkey in H;
    lazy [String.eqb Ascii.eqb Bool.eqb] in H;
    (trace_step H; [destruct H|]);
    unfold this in E; injection E as <- <- <-;
    (destruct (isHost rm) eqn:Hhost; [|destruct H]);
    (trace_step H;
     [unfold query in H; trace_step H; [destruct H|];
      match type of H with
      | context [Video.getCurrentTime ?v] => destruct (Video.getCurrentTime v)
      end; destruct H|]);
    apply seek_target in H; destruct H as [-> _]; (split; [|reflexivity]).
  - apply Math_max_lower.
  - unfold query, bind, this in E.
    destruct (Video.getCurrentTime (videoPlayer rm)); [|discriminate].
    injection E as <- <- <-. apply Math_min_upper.
Qed.

(** The sample host, at 101.5 s of a 600 s video, presses the right
    arrow: the seek goes to 106.5 s. *)
Lemma arrow_keys_stay_in_range_witness :
  (1065 # 10 <= Video.getDuration (videoPlayer Examples.host))%Q
  /\ isHost Examples.host = true.
Proof.
  refine (proj2 (proj2 (arrow_keys_stay_in_range "ArrowRight"
            1700000005000 Examples.host (1065 # 10))) eq_refl _).
  left. reflexivity.
Defined.

End KeyFacts.

(* ------------------------------------------------------------------ *)
(** * Host changes reaching the room manager *)

Module WiringFacts.

Import Room.
Local Open Scope list_scope.
Local Open Scope Z_scope.

(** X22: when [updateHost] changes the host and the callback of the room
    manager is registered, the room manager ends as host exactly when the
    presence manager says the client is the host; it shows "You are now the
    host" when it gains the role and "Host privileges transferred" when it
    loses it, and nothing else about it changes.  When the election changes
    nothing the room manager is not called. *)
Theorem host_change_reaches_room (pm : Presence.PresenceManager)
    (rm : RoomManager) (now : Z) :
  Presence.onHostChangeCallback pm = true ->
  Presence.userId pm = userId rm ->
  let pm' := fst (Presence.updateHost now pm) in
  let effs := snd (Presence.updateHost now pm) in
  (Presence.hostId pm' = Presence.hostId pm ->
   Wiring.deliver effs rm = Done tt rm [])
  /\ (Presence.hostId pm' <> Presence.hostId pm ->
      let nowHost := Presence.isHost None pm' in
      Wiring.deliver effs rm
      = Done tt (set_isHost nowHost rm)
          (if negb (isHost rm) && nowHost
           then [Toast "You are now the host" "success"]
           else if isHost rm && negb nowHost
                then [Toast "Host privileges transferred" "warning"]
                else [])).
Proof.
  intros Hcb Hid pm' effs. subst pm' effs.
  pose proof (PresenceFacts.updateHost_hostId now pm) as Hh.
  unfold Presence.updateHost in *.
  destruct (Presence.option_string_eqb (Presence.electHost (Presence.users pm))
                                       (Presence.hostId pm)) eqn:Heq;
    cbn [negb fst snd] in *.
  - split; [reflexivity|]. intros Hne. congruence.
  - split.
    + intros Hsame. cbn in Hsame. rewrite Hsame in Heq.
      assert (Presence.option_string_eqb (Presence.hostId pm)
                                         (Presence.hostId pm) = true)
        by (apply PresenceFacts.option_string_eqb_eq; reflexivity).
      congruence.
    + intros _. rewrite Hcb. cbn [Wiring.deliver].
      unfold Presence.isHost. cbn [Presence.userId Presence.hostId
                                   Presence.set_hostId].
      rewrite Hid.
      unfold onHostChange, bind, this, modify, emit, ret.
      destruct (Presence.electHost (Presence.users pm)) as [h|];
        cbn [Presence.option_string_eqb].
      * rewrite (String.eqb_sym (userId rm) h).
        destruct (isHost rm) eqn:Hwas, (String.eqb h (userId rm)) eqn:Hnow;
          cbn; rewrite ?Hwas, ?Hnow; reflexivity.
      * destruct (isHost rm) eqn:Hwas; cbn; rewrite ?Hwas; reflexivity.
Qed.

(** The client that joined first learns it is the host. *)
Lemma host_change_reaches_room_witness :
  Wiring.deliver
    (snd (Presence.updateHost 1000 (Examples.presence Examples.two_users None)))
    (mkRoomManager "user_a" false Examples.record 0 false Examples.adapter)
  = Done tt
      (mkRoomManager "user_a" true Examples.record 0 false Examples.adapter)
      [Toast "You are now the host" "success"].
Proof.
  refine (proj2 (host_change_reaches_room
                   (Examples.presence Examples.two_users None)
                   (mkRoomManager "user_a" false Examples.record 0 false
                                  Examples.adapter)
                   1000 eq_refl eq_refl) _).
  discriminate.
Defined.

End WiringFacts.

(* ------------------------------------------------------------------ *)
(** * Displayed times *)

Module TimeFacts.

Import App.
Local Open Scope Q_scope.





End TimeFacts.
